(** * UniShell (BigShell): the execution core, embedded in Rocq

    A shallow embedding of [runner.c], [wait.c] and [signal.c].  The shell
    is followed as ONE process through its system calls: the state of that
    process and of the kernel objects it touches is a record [World], the
    answers of the operating system that the code cannot know in advance
    (what [fork] returns, which call fails with which [errno], what
    [waitpid] reports) are read from queues stored in the same record, and
    every call leaves an [event] in a trace.  C functions become functions
    in a small state monad [M] whose results are either a returned value
    or the end of the process ([exit], [execvp], a failed [assert], a
    blocking call that never returns). *)

From stdpp Require Import gmap strings list.
From Stdlib Require Import ZArith Ascii String Lia.

Open Scope Z_scope.

(** ** Constants of the C library and of the kernel interface *)

Module C.
(* <errno.h>, Linux values *)
Definition EPERM  : Z := 1.
Definition ENOENT : Z := 2.
Definition ESRCH  : Z := 3.
Definition EINTR  : Z := 4.
Definition EBADF  : Z := 9.
Definition ECHILD : Z := 10.
Definition EAGAIN : Z := 11.
Definition ENOMEM : Z := 12.
Definition EACCES : Z := 13.
Definition EINVAL : Z := 22.
Definition EMFILE : Z := 24.
Definition ERANGE : Z := 34.

(* <fcntl.h> *)
Definition O_RDONLY : Z := 0.
Definition O_WRONLY : Z := 1.
Definition O_RDWR   : Z := 2.
Definition O_CREAT  : Z := 64.
Definition O_EXCL   : Z := 128.
Definition O_TRUNC  : Z := 512.
Definition O_APPEND : Z := 1024.

(* <unistd.h>, <limits.h>, <signal.h>, <sys/wait.h> *)
Definition STDIN_FILENO  : Z := 0.
Definition STDOUT_FILENO : Z := 1.
Definition INT_MAX  : Z := 2147483647.
Definition INT_MIN  : Z := -2147483648.
Definition LONG_MAX : Z := 9223372036854775807.
Definition LONG_MIN : Z := -9223372036854775808.
Definition SIGINT  : Z := 2.
Definition SIGCONT : Z := 18.
Definition SIGTSTP : Z := 20.
Definition SIGTTOU : Z := 22.
Definition WNOHANG : Z := 1.
Definition WUNTRACED : Z := 2.

(** The conversion of a [long] to [int]: the value modulo 2^32, read as
    a signed 32-bit number. *)
Definition to_int (z : Z) : Z := (z + 2147483648) mod 4294967296 - 2147483648.
End C.

(** ** Wait statuses *)

(** Modelled from the spec: the status macros of <sys/wait.h>
    ([WIFEXITED], [WEXITSTATUS], [WIFSIGNALED], [WTERMSIG], [WIFSTOPPED])
    are not part of the sources; a raw status is the usual 16-bit
    encoding: the low seven bits hold the terminating signal (0 for a
    normal exit, 127 for a stopped process) and bits 8-15 the exit code. *)
Module WStatus.
Definition WTERMSIG (s : Z) : Z := Z.land s 127.
Definition WEXITSTATUS (s : Z) : Z := Z.shiftr (Z.land s 65280) 8.
Definition WIFEXITED (s : Z) : bool := WTERMSIG s =? 0.
Definition WIFSTOPPED (s : Z) : bool := Z.land s 255 =? 127.
Definition WIFSIGNALED (s : Z) : bool :=
    negb (WTERMSIG s =? 0) && negb (WTERMSIG s =? 127).

Definition exited (code : Z) : Z := Z.shiftl code 8.
Definition signaled (sig : Z) : Z := sig.
Definition stopped (sig : Z) : Z := Z.lor (Z.shiftl sig 8) 127.
End WStatus.

(** ** The parsed command list (parser.h) *)

Inductive io_operator :=
| OP_LESSAND     (* <& *)
| OP_LESS        (* <  *)
| OP_GREATAND    (* >& *)
| OP_GREAT       (* >  *)
| OP_DGREAT      (* >> *)
| OP_LESSGREAT   (* <> *)
| OP_CLOBBER.    (* >| *)

Record io_redir := IoRedir {
  io_number : Z;
  io_op : io_operator;
  filename : string
}.

Record assignment := Assignment {
  a_name : string;
  a_value : string
}.

Record command := Command {
  words : list string;
  assignments : list assignment;
  io_redirs : list io_redir;
  ctrl_op : ascii
}.

Definition command_list := list command.

(** ** Kernel objects and shell globals *)

(** An open file description: what a descriptor refers to. *)
Inductive ofd :=
| OTerminal
| OFile (name : string) (flags : Z)
| OPipeRead (id : nat)
| OPipeWrite (id : nat).

(** One entry of the job table (jobs.h). *)
Record job := Job {
  jid : Z;
  pgid : Z;
  jstatus : Z
}.

(** A record of the virtual redirection list of a builtin. *)
Record builtin_redir := BuiltinRedir {
  pseudofd : Z;
  realfd : Z
}.

Inductive disposition :=
| SIG_DFL
| SIG_IGN
| Handler (name : string).

(** What [waitpid] can find: no child has changed state yet, a child has
    changed state, or the call fails. *)
Inductive wait_answer :=
| WRunning
| WChanged (pid : Z) (status : Z)
| WError (errno : Z).

(** Every system call, diagnostic and library call that reaches outside
    the shell is recorded with its arguments and its result. *)
Inductive event :=
| EOpen (name : string) (flags mode : Z) (rv : Z)
| EClose (fd : Z) (rv : Z)
| EDup (fd : Z) (rv : Z)
| EDup2 (src dst : Z) (rv : Z)
| EPipe (rd wr : Z) (rv : Z)
| EFork (rv : Z)
| ESetpgid (pid pgrp : Z) (rv : Z)
| EKill (pid sig : Z) (rv : Z)
| ETcsetpgrp (fd pgrp : Z) (rv : Z)
| EWaitpid (pid options : Z) (rv : Z)
| EWaitBlocked (pid options : Z)     (* entered and never returned *)
| ESigaction (sig : Z) (rv : Z)
| EExecvp (argv : list string) (rv : Z)   (* a call of execvp that returned *)
| EJobsAdd (pgrp : Z) (rv : Z)
| EJobsRemove (pgrp : Z) (rv : Z)
| EBuiltin (argv : list string) (redirs : list builtin_redir) (rv : Z)
| EStderr (fmt : string) (args : list Z).

Record World := mkWorld {
  (* kernel objects *)
  fds : gmap Z ofd;              (* descriptor table of this process *)
  procs : list (Z * Z);          (* children spawned so far: pid, process group *)
  tty_fg : Z;                    (* foreground process group of the terminal *)
  shell_pgrp : Z;                (* getpgid(0) *)
  sigdisp : gmap Z disposition;  (* signal dispositions *)
  (* shell globals *)
  errno : Z;
  p_status : Z;                  (* params.status *)
  p_bg_pid : Z;                  (* params.bg_pid *)
  is_interactive : bool;
  jobs : list job;               (* the job table *)
  vars : gmap string (string * bool);  (* variable store: value, exported *)
  old_sigtstp : disposition;
  old_sigint : disposition;
  old_sigttou : disposition;
  live_recs : nat;               (* builtin_redir records allocated and not freed *)
  (* the environment *)
  faults : list Z;               (* errno of each coming fallible call, 0: it succeeds *)
  forks : list Z;                (* what each coming fork() returns *)
  waits : list wait_answer;      (* what the coming calls of waitpid() find *)
  npipes : nat;                  (* pipes created so far *)
  (* what the process did *)
  trace : list event
}.

Definition set_fds (v : gmap Z ofd) (w : World) : World :=
  mkWorld v (procs w) (tty_fg w) (shell_pgrp w) (sigdisp w) (errno w)
    (p_status w) (p_bg_pid w) (is_interactive w) (jobs w) (vars w)
    (old_sigtstp w) (old_sigint w) (old_sigttou w) (live_recs w)
    (faults w) (forks w) (waits w) (npipes w) (trace w).

Definition set_procs (v : list (Z * Z)) (w : World) : World :=
  mkWorld (fds w) v (tty_fg w) (shell_pgrp w) (sigdisp w) (errno w)
    (p_status w) (p_bg_pid w) (is_interactive w) (jobs w) (vars w)
    (old_sigtstp w) (old_sigint w) (old_sigttou w) (live_recs w)
    (faults w) (forks w) (waits w) (npipes w) (trace w).

Definition set_tty_fg (v : Z) (w : World) : World :=
  mkWorld (fds w) (procs w) v (shell_pgrp w) (sigdisp w) (errno w)
    (p_status w) (p_bg_pid w) (is_interactive w) (jobs w) (vars w)
    (old_sigtstp w) (old_sigint w) (old_sigttou w) (live_recs w)
    (faults w) (forks w) (waits w) (npipes w) (trace w).

Definition set_sigdisp (v : gmap Z disposition) (w : World) : World :=
  mkWorld (fds w) (procs w) (tty_fg w) (shell_pgrp w) v (errno w)
    (p_status w) (p_bg_pid w) (is_interactive w) (jobs w) (vars w)
    (old_sigtstp w) (old_sigint w) (old_sigttou w) (live_recs w)
    (faults w) (forks w) (waits w) (npipes w) (trace w).

Definition set_errno (v : Z) (w : World) : World :=
  mkWorld (fds w) (procs w) (tty_fg w) (shell_pgrp w) (sigdisp w) v
    (p_status w) (p_bg_pid w) (is_interactive w) (jobs w) (vars w)
    (old_sigtstp w) (old_sigint w) (old_sigttou w) (live_recs w)
    (faults w) (forks w) (waits w) (npipes w) (trace w).

Definition set_status (v : Z) (w : World) : World :=
  mkWorld (fds w) (procs w) (tty_fg w) (shell_pgrp w) (sigdisp w) (errno w)
    v (p_bg_pid w) (is_interactive w) (jobs w) (vars w)
    (old_sigtstp w) (old_sigint w) (old_sigttou w) (live_recs w)
    (faults w) (forks w) (waits w) (npipes w) (trace w).

Definition set_bg_pid (v : Z) (w : World) : World :=
  mkWorld (fds w) (procs w) (tty_fg w) (shell_pgrp w) (sigdisp w) (errno w)
    (p_status w) v (is_interactive w) (jobs w) (vars w)
    (old_sigtstp w) (old_sigint w) (old_sigttou w) (live_recs w)
    (faults w) (forks w) (waits w) (npipes w) (trace w).

Definition set_jobs (v : list job) (w : World) : World :=
  mkWorld (fds w) (procs w) (tty_fg w) (shell_pgrp w) (sigdisp w) (errno w)
    (p_status w) (p_bg_pid w) (is_interactive w) v (vars w)
    (old_sigtstp w) (old_sigint w) (old_sigttou w) (live_recs w)
    (faults w) (forks w) (waits w) (npipes w) (trace w).

Definition set_vars (v : gmap string (string * bool)) (w : World) : World :=
  mkWorld (fds w) (procs w) (tty_fg w) (shell_pgrp w) (sigdisp w) (errno w)
    (p_status w) (p_bg_pid w) (is_interactive w) (jobs w) v
    (old_sigtstp w) (old_sigint w) (old_sigttou w) (live_recs w)
    (faults w) (forks w) (waits w) (npipes w) (trace w).

Definition set_old_sigs (a b c : disposition) (w : World) : World :=
  mkWorld (fds w) (procs w) (tty_fg w) (shell_pgrp w) (sigdisp w) (errno w)
    (p_status w) (p_bg_pid w) (is_interactive w) (jobs w) (vars w)
    a b c (live_recs w)
    (faults w) (forks w) (waits w) (npipes w) (trace w).

Definition set_live_recs (v : nat) (w : World) : World :=
  mkWorld (fds w) (procs w) (tty_fg w) (shell_pgrp w) (sigdisp w) (errno w)
    (p_status w) (p_bg_pid w) (is_interactive w) (jobs w) (vars w)
    (old_sigtstp w) (old_sigint w) (old_sigttou w) v
    (faults w) (forks w) (waits w) (npipes w) (trace w).

Definition set_faults (v : list Z) (w : World) : World :=
  mkWorld (fds w) (procs w) (tty_fg w) (shell_pgrp w) (sigdisp w) (errno w)
    (p_status w) (p_bg_pid w) (is_interactive w) (jobs w) (vars w)
    (old_sigtstp w) (old_sigint w) (old_sigttou w) (live_recs w)
    v (forks w) (waits w) (npipes w) (trace w).

Definition set_forks (v : list Z) (w : World) : World :=
  mkWorld (fds w) (procs w) (tty_fg w) (shell_pgrp w) (sigdisp w) (errno w)
    (p_status w) (p_bg_pid w) (is_interactive w) (jobs w) (vars w)
    (old_sigtstp w) (old_sigint w) (old_sigttou w) (live_recs w)
    (faults w) v (waits w) (npipes w) (trace w).

Definition set_waits (v : list wait_answer) (w : World) : World :=
  mkWorld (fds w) (procs w) (tty_fg w) (shell_pgrp w) (sigdisp w) (errno w)
    (p_status w) (p_bg_pid w) (is_interactive w) (jobs w) (vars w)
    (old_sigtstp w) (old_sigint w) (old_sigttou w) (live_recs w)
    (faults w) (forks w) v (npipes w) (trace w).

Definition set_npipes (v : nat) (w : World) : World :=
  mkWorld (fds w) (procs w) (tty_fg w) (shell_pgrp w) (sigdisp w) (errno w)
    (p_status w) (p_bg_pid w) (is_interactive w) (jobs w) (vars w)
    (old_sigtstp w) (old_sigint w) (old_sigttou w) (live_recs w)
    (faults w) (forks w) (waits w) v (trace w).

Definition emit (e : event) (w : World) : World :=
  mkWorld (fds w) (procs w) (tty_fg w) (shell_pgrp w) (sigdisp w) (errno w)
    (p_status w) (p_bg_pid w) (is_interactive w) (jobs w) (vars w)
    (old_sigtstp w) (old_sigint w) (old_sigttou w) (live_recs w)
    (faults w) (forks w) (waits w) (npipes w) (trace w ++ [e]).

(** ** The monad of one process *)

Inductive stop :=
| Exited (code : Z)            (* exit(), err() *)
| Execed (argv : list string)  (* execvp() replaced the program *)
| Aborted                      (* a failed assert() *)
| Blocked.                     (* a blocking call that never returns *)

Inductive result (A : Type) :=
| Ok (a : A) (w : World)
| Stop (s : stop) (w : World).
Arguments Ok {A} a w.
Arguments Stop {A} s w.

Definition M (A : Type) : Type := World -> result A.

Definition ret {A} (a : A) : M A := fun w => Ok a w.

Definition bind {A B} (m : M A) (k : A -> M B) : M B :=
  fun w => match m w with
           | Ok a w' => k a w'
           | Stop s w' => Stop s w'
           end.

Notation "x <- m ;; k" := (bind m (fun x => k))
  (at level 100, m at next level, right associativity).
Notation "m ;;; k" := (bind m (fun _ => k))
  (at level 100, right associativity).

Definition get {A} (f : World -> A) : M A := fun w => Ok (f w) w.
Definition modify (f : World -> World) : M unit := fun w => Ok tt (f w).
Definition halt {A} (s : stop) : M A := fun w => Stop s w.

Definition when (b : bool) (m : M unit) : M unit := if b then m else ret tt.

(** assert(): the process aborts when the condition is false. *)
Definition assert (b : bool) : M unit := if b then ret tt else halt Aborted.

(** fprintf(stderr, ...), perror(), warn(): the format and its arguments. *)
Definition stderr (fmt : string) (args : list Z) : M unit :=
  modify (emit (EStderr fmt args)).

(** err(code, 0): a diagnostic, then exit(code). *)
Definition err {A} (code : Z) : M A :=
  stderr "err" [code] ;;; halt (Exited code).

(** The next injected fault: the [errno] with which the coming fallible
    call fails, or 0 when it succeeds.  A used-up queue injects nothing. *)
Definition fault : M Z := fun w =>
  match faults w with
  | [] => Ok 0 w
  | e :: rest => Ok e (set_faults rest w)
  end.

(** ** System calls on descriptors *)

(** The lowest descriptor number that is not open. *)
Definition fresh_fd (t : gmap Z ofd) : option Z :=
  List.find (fun n => match t !! n with Some _ => false | None => true end)
            (map Z.of_nat (seq 0 (S (size t)))).

Definition sys_close (fd : Z) : M Z := fun w =>
  match fds w !! fd with
  | Some _ => Ok 0 (emit (EClose fd 0) (set_fds (delete fd (fds w)) w))
  | None => Ok (-1) (emit (EClose fd (-1)) (set_errno C.EBADF w))
  end.

(** dup2(src, dst): EBADF when [src] is not open or [dst] is negative.
    Whether the call fails for another reason ([dst] at or above the limit
    on descriptors of the process, EINTR, EBUSY) is not decided by the
    state kept here: like the failures of open(), it is injected. *)
Definition sys_dup2 (src dst : Z) : M Z := fun w =>
  match fds w !! src with
  | Some f =>
      if 0 <=? dst then
        (e <- fault ;;
         fun w1 =>
           if e =? 0
           then Ok dst (emit (EDup2 src dst dst) (set_fds (<[dst:=f]> (fds w1)) w1))
           else Ok (-1) (emit (EDup2 src dst (-1)) (set_errno e w1))) w
      else Ok (-1) (emit (EDup2 src dst (-1)) (set_errno C.EBADF w))
  | None => Ok (-1) (emit (EDup2 src dst (-1)) (set_errno C.EBADF w))
  end.

Definition sys_dup (src : Z) : M Z := fun w =>
  match fds w !! src with
  | Some f =>
      match fresh_fd (fds w) with
      | Some n => Ok n (emit (EDup src n) (set_fds (<[n:=f]> (fds w)) w))
      | None => Ok (-1) (emit (EDup src (-1)) (set_errno C.EMFILE w))
      end
  | None => Ok (-1) (emit (EDup src (-1)) (set_errno C.EBADF w))
  end.

Definition sys_open (name : string) (flags mode : Z) : M Z :=
  e <- fault ;;
  fun w =>
    if e =? 0 then
      match fresh_fd (fds w) with
      | Some n => Ok n (emit (EOpen name flags mode n)
                          (set_fds (<[n:=OFile name flags]> (fds w)) w))
      | None => Ok (-1) (emit (EOpen name flags mode (-1)) (set_errno C.EMFILE w))
      end
    else Ok (-1) (emit (EOpen name flags mode (-1)) (set_errno e w)).

(** pipe(): the read end, then the write end; (-1, -1) is left in the
    array when the call fails. *)
Definition sys_pipe : M (Z * (Z * Z)) :=
  e <- fault ;;
  fun w =>
    if e =? 0 then
      match fresh_fd (fds w) with
      | Some rd =>
          let t1 := <[rd:=OPipeRead (npipes w)]> (fds w) in
          match fresh_fd t1 with
          | Some wr =>
              Ok (0, (rd, wr))
                 (emit (EPipe rd wr 0)
                    (set_npipes (S (npipes w))
                       (set_fds (<[wr:=OPipeWrite (npipes w)]> t1) w)))
          | None => Ok (-1, (-1, -1)) (emit (EPipe (-1) (-1) (-1)) (set_errno C.EMFILE w))
          end
      | None => Ok (-1, (-1, -1)) (emit (EPipe (-1) (-1) (-1)) (set_errno C.EMFILE w))
      end
    else Ok (-1, (-1, -1)) (emit (EPipe (-1) (-1) (-1)) (set_errno e w)).

(** malloc(sizeof *rec) and free(rec) for the records of the virtual
    redirection list: only the number of live records is kept. *)
Definition malloc_rec : M bool :=
  e <- fault ;;
  if e =? 0
  then modify (fun w => set_live_recs (S (live_recs w)) w) ;;; ret true
  else modify (set_errno e) ;;; ret false.

Definition free_rec : M unit :=
  modify (fun w => set_live_recs (Nat.pred (live_recs w)) w).

(** ** strtol(s, &end, 10) *)

Module Strtol.
Definition isspace (c : ascii) : bool :=
  let n := nat_of_ascii c in
  (n =? 32)%nat || ((9 <=? n)%nat && (n <=? 13)%nat).

Definition digit (c : ascii) : option Z :=
  let n := Z.of_nat (nat_of_ascii c) in
  if (48 <=? n) && (n <=? 57) then Some (n - 48) else None.

Fixpoint skip_space (s : string) : string :=
  match s with
  | String c r => if isspace c then skip_space r else s
  | EmptyString => s
  end.

(** The longest prefix of digits: its value ([None] when it is empty)
    and what follows it. *)
Fixpoint digits (acc : option Z) (s : string) : option Z * string :=
  match s with
  | String c r =>
      match digit c with
      | Some d => digits (Some (10 * default 0 acc + d)) r
      | None => (acc, s)
      end
  | EmptyString => (acc, s)
  end.

Definition clamp (z : Z) : Z := Z.max C.LONG_MIN (Z.min C.LONG_MAX z).

(** The number that the text stands for, before it is cut to the range
    of [long], and the text left after it; [None] without any digit. *)
Definition convert (s : string) : option (Z * string) :=
  let s1 := skip_space s in
  let '(neg, s2) :=
    match s1 with
    | String "-"%char r => (true, r)
    | String "+"%char r => (false, r)
    | _ => (false, s1)
    end in
  match digits None s2 with
  | (Some v, rest) => Some (if neg then - v else v, rest)
  | (None, _) => None
  end.

(** The value and the text left at [end].  Without any digit no
    conversion is performed: the value is 0 and [end] is the whole
    string.  A number out of the range of [long] gives LONG_MAX or
    LONG_MIN. *)
Definition strtol (s : string) : Z * string :=
  match convert s with
  | Some (v, rest) => (clamp v, rest)
  | None => (0, s)
  end.

(** Whether the number is out of the range of [long]: strtol then sets
    errno to ERANGE; in every other case it leaves errno alone. *)
Definition erange (s : string) : bool :=
  match convert s with
  | Some (v, _) => negb (clamp v =? v)
  | None => false
  end.
End Strtol.

(** What a call of strtol(s, &end, 10) does to the process: it sets
    errno to ERANGE when the number is out of range. *)
Definition strtol_errno (s : string) (w : World) : World :=
  if Strtol.erange s then set_errno C.ERANGE w else w.

(** ** runner.c: the redirection engine *)

Definition get_io_flags (io_op : io_operator) : Z :=
  match io_op with
  | OP_LESSAND | OP_LESS => C.O_RDONLY
  | OP_GREATAND | OP_GREAT => Z.lor (Z.lor C.O_WRONLY C.O_CREAT) C.O_EXCL
  | OP_DGREAT => Z.lor (Z.lor C.O_WRONLY C.O_CREAT) C.O_APPEND
  | OP_LESSGREAT => Z.lor C.O_RDWR C.O_CREAT
  | OP_CLOBBER => Z.lor (Z.lor C.O_WRONLY C.O_CREAT) C.O_TRUNC
  end.

Definition move_fd (src dst : Z) : M Z :=
  if src =? dst then ret dst
  else
    r <- sys_dup2 src dst ;;
    if r <? 0 then ret (-1)
    else
      c <- sys_close src ;;
      if c <? 0 then ret (-1) else ret dst.

Definition is_dup_op (op : io_operator) : bool :=
  match op with
  | OP_GREATAND | OP_LESSAND => true
  | _ => false
  end.

(** The test [*(r->filename) && !*end && src <= INT_MAX] after
    [src = strtol(r->filename, &end, 10)]: the descriptor number when the
    test passes.  (The call itself, with its effect on errno, is
    [strtol_errno] in the two functions below.) *)
Definition fd_operand (name : string) : option Z :=
  let '(src, rest) := Strtol.strtol name in
  if negb (String.eqb name "") && String.eqb rest "" && (src <=? C.INT_MAX)
  then Some src else None.

(** *** do_io_redirects (external commands) *)

(** The [file_open:] block. *)
Definition open_redirect (r : io_redir) : M Z :=
  fd <- sys_open (filename r) (get_io_flags (io_op r)) 511 ;;
  if fd <? 0 then ret (-1)
  else
    m <- move_fd fd (io_number r) ;;
    if m <? 0 then ret (-1) else ret 0.

(** One turn of the loop: 0, or -1 for [goto err]. *)
Definition io_redirect (r : io_redir) : M Z :=
  if is_dup_op (io_op r) then
    if String.eqb (filename r) "-" then
      c <- sys_close (io_number r) ;;
      if c <? 0 then ret (-1) else ret 0
    else
      (* src = strtol(r->filename, &end, 10), then the test on src and end *)
      modify (strtol_errno (filename r)) ;;;
      match fd_operand (filename r) with
      | Some src =>
          d <- sys_dup2 (C.to_int src) (io_number r) ;;
          if d <? 0 then ret (-1) else ret 0
      | None => open_redirect r
      end
  else open_redirect r.

Fixpoint io_redirects (rs : list io_redir) : M Z :=
  match rs with
  | [] => ret 0
  | r :: rest =>
      st <- io_redirect r ;;
      if st <? 0 then ret (-1) else io_redirects rest
  end.

Definition do_io_redirects (cmd : command) : M Z :=
  io_redirects (io_redirs cmd).

(** *** do_builtin_io_redirects (virtual redirections) *)

(** The first record of the list for a pseudo-descriptor. *)
Fixpoint find_rec (n : Z) (l : list builtin_redir) : option builtin_redir :=
  match l with
  | [] => None
  | rec :: rest => if pseudofd rec =? n then Some rec else find_rec n rest
  end.

(** [rec->pseudofd = -1] on the first record for [n]. *)
Fixpoint unmap_rec (n : Z) (l : list builtin_redir) : list builtin_redir :=
  match l with
  | [] => []
  | rec :: rest =>
      if pseudofd rec =? n then BuiltinRedir (-1) (realfd rec) :: rest
      else rec :: unmap_rec n rest
  end.

(** The loop that turns the operand of [n>&m] into a real descriptor:
    [None] is the [goto err] with EBADF. *)
Fixpoint resolve_src (l : list builtin_redir) (src : Z) : option Z :=
  match l with
  | [] => Some src
  | rec :: rest =>
      if realfd rec =? src then None
      else resolve_src rest (if pseudofd rec =? src then realfd rec else src)
  end.

(** A new record at the head of the list; [None] when malloc fails. *)
Definition push_rec (n fd : Z) (l : list builtin_redir)
  : M (option (list builtin_redir)) :=
  ok <- malloc_rec ;;
  if ok then ret (Some (BuiltinRedir n fd :: l)) else ret None.

(** The [file_open:] block of the virtual path. *)
Definition builtin_open_redirect (r : io_redir) (l : list builtin_redir)
  : M (option (list builtin_redir)) :=
  fd <- sys_open (filename r) (get_io_flags (io_op r)) 511 ;;
  if fd <? 0 then ret None
  else
    match find_rec (io_number r) l with
    | Some rec =>
        m <- move_fd fd (realfd rec) ;;
        if m <? 0 then ret None else ret (Some l)
    | None => push_rec (io_number r) fd l
    end.

(** One turn of the loop: the new list, or [None] for [goto err] (the
    list is then as the turn left it). *)
Definition builtin_io_redirect (r : io_redir) (l : list builtin_redir)
  : M (option (list builtin_redir)) :=
  if is_dup_op (io_op r) then
    if String.eqb (filename r) "-" then
      match find_rec (io_number r) l with
      | Some rec =>
          sys_close (realfd rec) ;;;
          ret (Some (unmap_rec (io_number r) l))
      | None => push_rec (io_number r) (-1) l
      end
    else
      (* src = strtol(r->filename, &end, 10), then the test on src and end *)
      modify (strtol_errno (filename r)) ;;;
      match fd_operand (filename r) with
      | Some src0 =>
          match resolve_src l src0 with
          | None => modify (set_errno C.EBADF) ;;; ret None
          | Some src =>
              match find_rec (io_number r) l with
              | Some rec =>
                  d <- sys_dup2 (C.to_int src) (realfd rec) ;;
                  if d <? 0 then ret None else ret (Some l)
              | None =>
                  ok <- malloc_rec ;;
                  if ok then
                    fd <- sys_dup (C.to_int src) ;;
                    ret (Some (BuiltinRedir (io_number r) fd :: l))
                  else ret None
              end
          end
      | None => builtin_open_redirect r l
      end
  else builtin_open_redirect r l.

(** The loop: [err:] sits inside its body, so a failed turn sets the
    status and the loop goes on with the next redirection. *)
Fixpoint builtin_io_redirects (rs : list io_redir) (status : Z)
    (l : list builtin_redir) : M (Z * list builtin_redir) :=
  match rs with
  | [] => ret (status, l)
  | r :: rest =>
      o <- builtin_io_redirect r l ;;
      match o with
      | Some l' => builtin_io_redirects rest status l'
      | None => builtin_io_redirects rest (-1) l
      end
  end.

Definition do_builtin_io_redirects (cmd : command) (redir_list : list builtin_redir)
  : M (Z * list builtin_redir) :=
  builtin_io_redirects (io_redirs cmd) 0 redir_list.

(** ** The job table (jobs.h) *)

(** Modelled from the spec: the job table ([jobs_add], [jobs_get_jid],
    [jobs_get_pgid], [jobs_set_status], [jobs_get_status],
    [jobs_remove_pgid], [jobs_get_joblist], [jobs_get_joblist_size]) is
    declared in jobs.h and its implementation is not part of the sources.
    The spec gives its contract: an ordered list of {job id, process-group
    id, last-known wait status}; register(pid) -> job_id|fail,
    find_job_by_group(pgid) -> job_id|fail, record_status(job_id,
    raw_status) -> ok|fail, last_status(job_id) -> raw_status|fail,
    forget_group(pgid) -> ok|fail, snapshot().  A query fails when no
    entry matches; a new entry gets an id that is not in use (the lowest
    one) and status 0. *)
Module Jobs.
Definition find_pgid (g : Z) (js : list job) : option job :=
  List.find (fun j => pgid j =? g) js.

Definition find_jid (i : Z) (js : list job) : option job :=
  List.find (fun j => jid j =? i) js.

Definition fresh_jid (js : list job) : Z :=
  default (Z.of_nat (List.length js))
    (List.find (fun n => negb (existsb (fun j => jid j =? n) js))
               (map Z.of_nat (seq 0 (S (List.length js))))).

Definition record_status (i st : Z) (js : list job) : list job :=
  map (fun j => if jid j =? i then Job (jid j) (pgid j) st else j) js.

Definition forget_group (g : Z) (js : list job) : list job :=
  List.filter (fun j => negb (pgid j =? g)) js.
End Jobs.

Definition jobs_add (g : Z) : M Z :=
  e <- fault ;;
  if e =? 0 then
    i <- get (fun w => Jobs.fresh_jid (jobs w)) ;;
    modify (fun w => emit (EJobsAdd g i) (set_jobs (jobs w ++ [Job i g 0]) w)) ;;;
    ret i
  else
    modify (fun w => emit (EJobsAdd g (-1)) (set_errno e w)) ;;;
    ret (-1).

Definition jobs_get_jid (g : Z) : M Z :=
  get (fun w => match Jobs.find_pgid g (jobs w) with
                | Some j => jid j
                | None => -1
                end).

Definition jobs_get_pgid (i : Z) : M Z :=
  get (fun w => match Jobs.find_jid i (jobs w) with
                | Some j => pgid j
                | None => -1
                end).

Definition jobs_set_status (i st : Z) : M Z := fun w =>
  match Jobs.find_jid i (jobs w) with
  | Some _ => Ok 0 (set_jobs (Jobs.record_status i st (jobs w)) w)
  | None => Ok (-1) w
  end.

(** The return value and the status written through the pointer. *)
Definition jobs_get_status (i : Z) : M (Z * Z) :=
  get (fun w => match Jobs.find_jid i (jobs w) with
                | Some j => (0, jstatus j)
                | None => (-1, 0)
                end).

Definition jobs_remove_pgid (g : Z) : M Z := fun w =>
  match Jobs.find_pgid g (jobs w) with
  | Some _ => Ok 0 (emit (EJobsRemove g 0) (set_jobs (Jobs.forget_group g (jobs w)) w))
  | None => Ok (-1) (emit (EJobsRemove g (-1)) w)
  end.

(** ** The variable store (vars.h) *)

(** Modelled from the spec: [vars_set] and [vars_export] are declared in
    vars.h and not part of the sources; the spec gives set(name, value) ->
    ok|fail and export(name) -> ok|fail. *)
Definition vars_set (name value : string) : M Z :=
  e <- fault ;;
  if e =? 0 then
    modify (fun w =>
      let exported := match vars w !! name with Some (_, x) => x | None => false end in
      set_vars (<[name:=(value, exported)]> (vars w)) w) ;;;
    ret 0
  else modify (set_errno e) ;;; ret (-1).

Definition vars_export (name : string) : M Z :=
  e <- fault ;;
  if e =? 0 then
    modify (fun w =>
      let value := match vars w !! name with Some (v, _) => v | None => ""%string end in
      set_vars (<[name:=(value, true)]> (vars w)) w) ;;;
    ret 0
  else modify (set_errno e) ;;; ret (-1).

(** ** System calls on processes, the terminal and signals *)

(** fork(): a positive pid in the parent, 0 in the child (the model then
    follows the child), -1 when it fails or when the environment has no
    process left to give. *)
Definition sys_fork : M Z := fun w =>
  match forks w with
  | rv :: rest =>
      if 0 <? rv then
        Ok rv (emit (EFork rv)
                 (set_procs (procs w ++ [(rv, shell_pgrp w)]) (set_forks rest w)))
      else if rv =? 0 then Ok 0 (emit (EFork 0) (set_forks rest w))
      else Ok (-1) (emit (EFork (-1)) (set_errno C.EAGAIN (set_forks rest w)))
  | [] => Ok (-1) (emit (EFork (-1)) (set_errno C.EAGAIN w))
  end.

Definition join_group (pid pgrp : Z) (ps : list (Z * Z)) : list (Z * Z) :=
  map (fun p => if fst p =? pid
                then (pid, if pgrp =? 0 then pid else pgrp)
                else p) ps.

(** setpgid(pid, pgrp).  EACCES is the answer to the parent when the
    child has already called exec: the child then made the same call
    for itself before, so that the membership is the one asked for. *)
Definition sys_setpgid (pid pgrp : Z) : M Z :=
  e <- fault ;;
  if e =? 0 then
    modify (fun w => emit (ESetpgid pid pgrp 0)
                       (set_procs (join_group pid pgrp (procs w)) w)) ;;;
    ret 0
  else if e =? C.EACCES then
    modify (fun w => emit (ESetpgid pid pgrp (-1))
                       (set_errno e (set_procs (join_group pid pgrp (procs w)) w))) ;;;
    ret (-1)
  else
    modify (fun w => emit (ESetpgid pid pgrp (-1)) (set_errno e w)) ;;;
    ret (-1).

Definition sys_getpgid (pid : Z) : M Z :=
  get (fun w =>
    if pid =? 0 then shell_pgrp w
    else match List.find (fun p => fst p =? pid) (procs w) with
         | Some p => snd p
         | None => -1
         end).

Definition sys_kill (pid sig : Z) : M Z :=
  e <- fault ;;
  if e =? 0 then modify (emit (EKill pid sig 0)) ;;; ret 0
  else modify (fun w => emit (EKill pid sig (-1)) (set_errno e w)) ;;; ret (-1).

Definition sys_tcsetpgrp (fd pgrp : Z) : M Z :=
  e <- fault ;;
  if e =? 0 then
    modify (fun w => emit (ETcsetpgrp fd pgrp 0) (set_tty_fg pgrp w)) ;;; ret 0
  else modify (fun w => emit (ETcsetpgrp fd pgrp (-1)) (set_errno e w)) ;;; ret (-1).

(** What a call of waitpid sees of an entry of the queue: a child that
    stopped is reported to a call with WUNTRACED only; for any other call
    nothing has changed yet. *)
Definition visible (untraced : bool) (a : wait_answer) : wait_answer :=
  match a with
  | WChanged _ st => if WStatus.WIFSTOPPED st && negb untraced then WRunning else a
  | _ => a
  end.

(** What a call to waitpid takes from the queue: with WNOHANG the head,
    whatever it is (nothing at all counts as "no change yet"); without it
    the first change that it can see or the first error, if one ever
    comes. *)
Fixpoint next_wait (nohang untraced : bool) (ws : list wait_answer)
  : option (wait_answer * list wait_answer) :=
  match ws with
  | [] => if nohang then Some (WRunning, []) else None
  | a :: rest =>
      match visible untraced a with
      | WRunning => if nohang then Some (WRunning, rest) else next_wait nohang untraced rest
      | b => Some (b, rest)
      end
  end.

(** waitpid(pid, &status, options): the return value and the status.  A
    blocking call for which no change ever comes does not return.  Bit 0
    of [options] is WNOHANG, bit 1 is WUNTRACED.

    Which children a call selects by [pid] is not decided here: the state
    does not hold the whole process table (the children that the shell
    had before the run are not in [procs], and no child is taken out of
    it when it is reaped).  The queue [waits] is what the successive
    calls find, each among the children that it selects. *)
Definition sys_waitpid (pid options : Z) : M (Z * Z) := fun w =>
  match next_wait (Z.testbit options 0) (Z.testbit options 1) (waits w) with
  | None => Stop Blocked (emit (EWaitBlocked pid options) (set_waits [] w))
  | Some (WRunning, rest) =>
      Ok (0, 0) (emit (EWaitpid pid options 0) (set_waits rest w))
  | Some (WChanged p st, rest) =>
      Ok (p, st) (emit (EWaitpid pid options p) (set_waits rest w))
  | Some (WError e, rest) =>
      Ok (-1, 0) (emit (EWaitpid pid options (-1)) (set_errno e (set_waits rest w)))
  end.

(** sigaction(sig, new, &old): the return value and the old disposition;
    [None] for [new] only reads. *)
Definition sys_sigaction (sig : Z) (new : option disposition) : M (Z * disposition) :=
  e <- fault ;;
  if e =? 0 then
    old <- get (fun w => default SIG_DFL (sigdisp w !! sig)) ;;
    modify (fun w => emit (ESigaction sig 0)
                       (match new with
                        | Some d => set_sigdisp (<[sig:=d]> (sigdisp w)) w
                        | None => w
                        end)) ;;;
    ret (0, old)
  else
    modify (fun w => emit (ESigaction sig (-1)) (set_errno e w)) ;;;
    ret (-1, SIG_DFL).

(** execvp(): does not return when it succeeds. *)
Definition sys_execvp (argv : list string) : M Z :=
  e <- fault ;;
  if e =? 0 then halt (Execed argv)
  else modify (fun w => emit (EExecvp argv (-1)) (set_errno e w)) ;;; ret (-1).

(** ** signal.c *)

Definition ignore_action : disposition := SIG_IGN.
Definition interrupt_action : disposition := Handler "interrupting_signal_handler".

Definition signal_init : M Z :=
  x <- sys_sigaction C.SIGTSTP (Some ignore_action) ;;
  let '(r1, o1) := x in
  if r1 <? 0 then ret (-1)
  else
    modify (fun w => set_old_sigs o1 (old_sigint w) (old_sigttou w) w) ;;;
    x <- sys_sigaction C.SIGTTOU (Some ignore_action) ;;
  let '(r2, o2) := x in
    if r2 <? 0 then ret (-1)
    else
      modify (fun w => set_old_sigs (old_sigtstp w) (old_sigint w) o2 w) ;;;
      x <- sys_sigaction C.SIGINT (Some ignore_action) ;;
  let '(r3, o3) := x in
      if r3 <? 0 then ret (-1)
      else
        modify (fun w => set_old_sigs (old_sigtstp w) o3 (old_sigttou w) w) ;;;
        ret 0.

Definition signal_enable_interrupt (sig : Z) : M Z :=
  x <- sys_sigaction sig (Some interrupt_action) ;;
  let '(r, _) := x in
  if r <? 0 then modify (set_errno C.EINVAL) ;;; ret (-1) else ret 0.

Definition signal_ignore (sig : Z) : M Z :=
  x <- sys_sigaction sig (Some ignore_action) ;;
  let '(r, _) := x in
  if r <? 0 then modify (set_errno C.EINVAL) ;;; ret (-1) else ret 0.

Definition signal_restore : M Z :=
  d1 <- get old_sigtstp ;;
  x <- sys_sigaction C.SIGTSTP (Some d1) ;;
  let '(r1, _) := x in
  if r1 <? 0 then ret (-1)
  else
    d2 <- get old_sigttou ;;
    x <- sys_sigaction C.SIGTTOU (Some d2) ;;
  let '(r2, _) := x in
    if r2 <? 0 then ret (-1)
    else
      d3 <- get old_sigint ;;
      x <- sys_sigaction C.SIGINT (Some d3) ;;
  let '(r3, _) := x in
      if r3 <? 0 then ret (-1) else ret 0.

(** ** wait.c *)

(** wait_on_fg_pgid, up to the comment "From this point on, all exit
    paths must account for setting bigshell back to the foreground process
    group": the job id, or [None] for one of the [return -1] before it. *)
Definition fg_handoff (pgrp : Z) : M (option Z) :=
  if pgrp <? 0 then ret None
  else
    j <- jobs_get_jid pgrp ;;
    if j <? 0 then ret None
    else
      k <- sys_kill (- pgrp) C.SIGCONT ;;
      if k <? 0 then
        e <- get errno ;;
        (if e =? C.ESRCH then stderr "Job [%jd] no longer exists\n" [j]
         else if e =? C.EPERM then stderr "kill(SIGCONT) failed: Permission denied" []
         else stderr "kill(SIGCONT) failed" []) ;;;
        ret None
      else
        inter <- get is_interactive ;;
        if inter then
          t <- sys_tcsetpgrp C.STDIN_FILENO pgrp ;;
          if t <? 0 then
            e <- get errno ;;
            (if e =? C.EPERM
             then stderr "Error: Process group [%jd] does not belong to this session\n" [pgrp]
             else if e =? C.EINVAL
             then stderr "Error: Invalid process group [%jd]\n" [pgrp]
             else stderr "tcsetpgrp failed" []) ;;;
            ret None
          else ret (Some j)
        else ret (Some j).

(** params.status from a raw status, as on the ECHILD path. *)
Definition record_exit_status (status : Z) : M unit :=
  if WStatus.WIFEXITED status
  then modify (set_status (WStatus.WEXITSTATUS status))
  else if WStatus.WIFSIGNALED status
  then modify (set_status (128 + WStatus.WTERMSIG status))
  else ret tt.

(** The [for (;;)] loop: the value of [retval] at [out:] (0) or at [err:]
    (-1).  Every turn takes at least one answer from the [waits] queue,
    so that its length bounds the number of turns. *)
Fixpoint fg_wait_loop (fuel : nat) (pgrp j : Z) : M Z :=
  match fuel with
  | O => halt Blocked
  | S fuel' =>
      x <- sys_waitpid (- pgrp) 0 ;;
      let '(res, status) := x in
      if res <? 0 then
        e <- get errno ;;
        if e =? C.ECHILD then
          modify (set_errno 0) ;;;
          g <- jobs_get_status j ;;
          let '(rv, status) := g in
          if rv <? 0 then ret (-1)
          else
            record_exit_status status ;;;
            jobs_remove_pgid pgrp ;;;
            ret 0
        else if e =? C.EINTR then fg_wait_loop fuel' pgrp j
        else ret (-1)
      else
        assert (0 <? res) ;;;
        s <- jobs_set_status j status ;;
        if s <? 0 then ret (-1)
        else if WStatus.WIFSTOPPED status then
          stderr "[%jd] Stopped\n" [j] ;;; ret 0
        else fg_wait_loop fuel' pgrp j
  end.

(** From [out:] on: the terminal goes back to the shell. *)
Definition fg_restore : M unit :=
  inter <- get is_interactive ;;
  if inter then
    g <- sys_getpgid 0 ;;
    t <- sys_tcsetpgrp C.STDIN_FILENO g ;;
    if t <? 0
    then stderr "Failed to restore BigShell as foreground process group" []
    else ret tt
  else ret tt.

Definition wait_on_fg_pgid (pgrp : Z) : M Z :=
  h <- fg_handoff pgrp ;;
  match h with
  | None => ret (-1)
  | Some j =>
      fuel <- get (fun w => S (List.length (waits w))) ;;
      retval <- fg_wait_loop fuel pgrp j ;;
      fg_restore ;;;
      ret retval
  end.

Definition wait_on_fg_job (j : Z) : M Z :=
  g <- jobs_get_pgid j ;;
  if g <? 0 then ret (-1) else wait_on_fg_pgid g.

(** The inner [for (;;)] of wait_on_bg_jobs for one job: [None] for
    [break], [Some rv] for [return rv]. *)
Fixpoint bg_wait_loop (fuel : nat) (pgrp j : Z) : M (option Z) :=
  match fuel with
  | O => halt Blocked
  | S fuel' =>
      x <- sys_waitpid 0 0 ;;
      let '(pid, status) := x in
      if pid =? 0 then ret None
      else if pid <? 0 then
        e <- get errno ;;
        if e =? C.ECHILD then
          modify (set_errno 0) ;;;
          g <- jobs_get_status j ;;
          let '(rv, status) := g in
          if rv <? 0 then ret (Some (-1))
          else
            (if WStatus.WIFEXITED status then stderr "[%jd] Done\n" [j]
             else if WStatus.WIFSIGNALED status then stderr "[%jd] Terminated\n" [j]
             else ret tt) ;;;
            jobs_remove_pgid pgrp ;;;
            ret None
        else ret (Some (-1))
      else
        s <- jobs_set_status j status ;;
        if s <? 0 then ret (Some (-1))
        else if WStatus.WIFSTOPPED status then
          stderr "[%jd] Stopped\n" [j] ;;; ret None
        else bg_wait_loop fuel' pgrp j
  end.

(** The outer loop, from index [i] on; [job_count] and [jobs] are read
    again after each removal, so that they are those of the live table. *)
Fixpoint bg_scan (fuel : nat) (i : nat) : M Z :=
  match fuel with
  | O => halt Blocked
  | S fuel' =>
      js <- get jobs ;;
      match js !! i with
      | None => ret 0
      | Some jb =>
          inner <- get (fun w => S (List.length (waits w))) ;;
          r <- bg_wait_loop inner (pgid jb) (jid jb) ;;
          match r with
          | Some rv => ret rv
          | None => bg_scan fuel' (S i)
          end
      end
  end.

Definition wait_on_bg_jobs : M Z :=
  job_count <- get (fun w => List.length (jobs w)) ;;
  bg_scan (S job_count) 0.

(** ** runner.c: running a command list *)

(** A builtin: called with the command and the virtual redirection list,
    it returns a status and may change the shell. *)
Definition builtin_fn : Type := command -> list builtin_redir -> World -> Z * World.

(** The state kept from one command of a pipeline to the next. *)
Record pipeline_data := PipelineData {
  pipe_fd : Z;   (* -1 means no upstream pipe *)
  pd_pgid : Z;
  pd_jid : Z
}.

Definition is_ctrl (c : ascii) (cmd : command) : bool :=
  Ascii.eqb (ctrl_op cmd) c.

Definition is_some {A} (o : option A) : bool :=
  match o with Some _ => true | None => false end.

Definition should_fork (is_builtin is_fg : bool) : bool :=
  negb is_builtin || negb is_fg.

Section Runner.

(** The collaborators of the runner that are outside the sources: word
    expansion (expand.h) and the table of builtins (builtins.h). *)
Variable expand : World -> string -> string.
Variable get_builtin : command -> option builtin_fn.

(** The command after [expand] has gone over its words, the values of
    its assignments and the file names of its redirections. *)
Definition expanded (w : World) (cmd : command) : command :=
  Command (map (expand w) (words cmd))
          (map (fun a => Assignment (a_name a) (expand w (a_value a))) (assignments cmd))
          (map (fun r => IoRedir (io_number r) (io_op r) (expand w (filename r)))
               (io_redirs cmd))
          (ctrl_op cmd).

Definition expand_command_words (cmd : command) : M command :=
  get (fun w => expanded w cmd).

Fixpoint variable_assignments (l : list assignment) (export_all : bool) : M Z :=
  match l with
  | [] => ret 0
  | a :: rest =>
      s <- vars_set (a_name a) (a_value a) ;;
      if negb (s =? 0) then ret (-1)
      else if export_all then
        x <- vars_export (a_name a) ;;
        if negb (x =? 0) then ret (-1) else variable_assignments rest export_all
      else variable_assignments rest export_all
  end.

Definition do_variable_assignment (cmd : command) (export_all : bool) : M Z :=
  variable_assignments (assignments cmd) export_all.

(** "Create new pipe if needed": the two ends, (-1, -1) without a pipe;
    [None] for the [return -1] after perror("pipe"). *)
Definition setup_pipe (is_pl : bool) : M (option (Z * Z)) :=
  if is_pl then
    x <- sys_pipe ;;
    let '(rv, ends) := x in
    if rv <? 0 then stderr "pipe" [] ;;; ret None else ret (Some ends)
  else ret (Some (-1, -1)).

(** One of the two calls of setpgid with its error filter: [false] for
    [goto err]. *)
Definition setpgid_race (child_pid pgrp : Z) : M bool :=
  r <- sys_setpgid child_pid pgrp ;;
  if r <? 0 then
    e <- get errno ;;
    if e =? C.EACCES then modify (set_errno 0) ;;; ret true else ret false
  else ret true.

(** From the fork decision to the registration of the job: [child_pid]
    and the new pipeline state; [None] for [goto err]. *)
Definition spawn (is_builtin is_fg : bool) (pd : pipeline_data)
  : M (option (Z * pipeline_data)) :=
  if should_fork is_builtin is_fg then
    child_pid <- sys_fork ;;
    if child_pid <? 0 then stderr "fork" [] ;;; ret None
    else
      ok1 <- setpgid_race child_pid (pd_pgid pd) ;;
      if negb ok1 then ret None
      else
        ok2 <- setpgid_race child_pid (pd_pgid pd) ;;
        if negb ok2 then ret None
        else if negb (child_pid =? 0) && (pd_pgid pd =? 0) then
          g <- sys_getpgid child_pid ;;
          assert (child_pid =? g) ;;;
          j <- jobs_add child_pid ;;
          if j <? 0 then ret None
          else ret (Some (child_pid, PipelineData (pipe_fd pd) child_pid j))
        else ret (Some (child_pid, pd))
  else ret (Some (0, pd)).

(** "clean up redirect list": close and free every record. *)
Fixpoint cleanup_redirs (l : list builtin_redir) : M unit :=
  match l with
  | [] => ret tt
  | rec :: rest => sys_close (realfd rec) ;;; free_rec ;;; cleanup_redirs rest
  end.

(** The two records that stand for the pipes of the pipeline; [None]
    for [goto err]. *)
Definition seed_redirs (upstream_pipefd downstream_pipefd : Z)
  : M (option (list builtin_redir)) :=
  o <- (if upstream_pipefd >=? 0
        then push_rec C.STDIN_FILENO upstream_pipefd []
        else ret (Some [])) ;;
  match o with
  | None => ret None
  | Some l =>
      if downstream_pipefd >=? 0
      then push_rec C.STDOUT_FILENO downstream_pipefd l
      else ret (Some l)
  end.

Definition call_builtin (builtin : builtin_fn) (cmd : command)
    (l : list builtin_redir) : M Z := fun w =>
  let '(result, w') := builtin cmd l w in
  Ok result (emit (EBuiltin (words cmd) l result) w').

(** The branch [if (is_builtin)] of the child: [None] for [goto err],
    [Some tt] when the shell goes on (a builtin that was forked exits). *)
Definition run_builtin (builtin : builtin_fn) (cmd : command) (is_fg : bool)
    (upstream_pipefd downstream_pipefd : Z) : M (option unit) :=
  o <- seed_redirs upstream_pipefd downstream_pipefd ;;
  match o with
  | None => ret None
  | Some l0 =>
      x <- do_builtin_io_redirects cmd l0 ;;
      let redir_list := snd x in
      do_variable_assignment cmd false ;;;
      result <- call_builtin builtin cmd redir_list ;;
      cleanup_redirs redir_list ;;;
      modify (set_status (if result =? 0 then 0 else 127)) ;;;
      if negb is_fg then
        st <- get p_status ;;
        halt (Exited st)
      else modify (set_errno 0) ;;; ret (Some tt)
  end.

(** The branch of an external command: it ends in the new program or in
    an exit. *)
Definition run_external {A} (cmd : command)
    (upstream_pipefd downstream_pipefd : Z) : M A :=
  (if upstream_pipefd >=? 0 then
     m <- move_fd upstream_pipefd C.STDIN_FILENO ;;
     if m <? 0 then err 1 else ret tt
   else ret tt) ;;;
  (if downstream_pipefd >=? 0 then
     m <- move_fd downstream_pipefd C.STDOUT_FILENO ;;
     if m <? 0 then err 1 else ret tt
   else ret tt) ;;;
  r <- do_io_redirects cmd ;;
  if r <? 0 then err 1
  else
    a <- do_variable_assignment cmd true ;;
    if a <? 0 then err 1
    else
      s <- signal_restore ;;
      if s <? 0 then err 1
      else
        sys_execvp (words cmd) ;;;
        err 127.

(** "Close unneeded pipe ends that we hooked up above". *)
Definition close_pipe_ends (downstream_pipefd upstream_pipefd : Z) : M unit :=
  when (downstream_pipefd >=? 0) (sys_close downstream_pipefd ;;; ret tt) ;;;
  when (upstream_pipefd >=? 0) (sys_close upstream_pipefd ;;; ret tt).

(** What the parent does after a fork: the state for the next command,
    or the value that run_command_list returns at once. *)
Definition parent_branch (is_pl is_bg is_fg : bool)
    (child_pid upstream_pipefd downstream_pipefd : Z) (pd : pipeline_data)
  : M (pipeline_data + Z) :=
  assert (0 <? child_pid) ;;;
  close_pipe_ends downstream_pipefd upstream_pipefd ;;;
  r <- (if is_fg then
          fg_wait_result <- wait_on_fg_pgid (pd_pgid pd) ;;
          if fg_wait_result <? 0 then
            st <- get p_status ;;
            if negb (st =? 127) then ret (Some 0)
            else
              stderr "warn" [] ;;;
              modify (set_status 127) ;;;
              ret (Some (-1))
          else ret None
        else
          assert (is_bg || is_pl) ;;;
          modify (set_bg_pid child_pid) ;;;
          when is_bg (stderr "[%jd] %jd\n" [pd_jid pd; pd_pgid pd]) ;;;
          modify (set_status 0) ;;;
          ret None) ;;
  match r with
  | Some rv => ret (inr rv)
  | None =>
      if negb is_pl then
        assert (pipe_fd pd =? -1) ;;;
        ret (inl (PipelineData (pipe_fd pd) 0 (-1)))
      else ret (inl pd)
  end.

(** The body of the loop over the commands. *)
Definition run_command (pd : pipeline_data) (cmd0 : command)
  : M (pipeline_data + Z) :=
  cmd <- expand_command_words cmd0 ;;
  let is_pl := is_ctrl "|" cmd in
  let is_bg := is_ctrl "&" cmd in
  let is_fg := is_ctrl ";" cmd in
  assert (is_pl || is_bg || is_fg) ;;;
  let upstream_pipefd := pipe_fd pd in
  p <- setup_pipe is_pl ;;
  match p with
  | None => ret (inr (-1))
  | Some (rd, downstream_pipefd) =>
      let pd1 := PipelineData rd (pd_pgid pd) (pd_jid pd) in
      let builtin := get_builtin cmd in
      let is_builtin := is_some builtin in
      s <- spawn is_builtin is_fg pd1 ;;
      match s with
      | None => ret (inr (-1))
      | Some (child_pid, pd2) =>
          if child_pid =? 0 then
            match builtin with
            | Some b =>
                o <- run_builtin b cmd is_fg upstream_pipefd downstream_pipefd ;;
                match o with
                | None => ret (inr (-1))
                | Some _ => ret (inl pd2)
                end
            | None => run_external cmd upstream_pipefd downstream_pipefd
            end
          else
            parent_branch is_pl is_bg is_fg child_pid
              upstream_pipefd downstream_pipefd pd2
      end
  end.

Fixpoint run_commands (pd : pipeline_data) (cl : list command) : M Z :=
  match cl with
  | [] => ret 0
  | cmd :: rest =>
      r <- run_command pd cmd ;;
      match r with
      | inl pd' => run_commands pd' rest
      | inr rv => ret rv
      end
  end.

Definition run_command_list (cl : command_list) : M Z :=
  run_commands (PipelineData (-1) 0 (-1)) cl.

End Runner.

(** ** The claims of the specification, as it words them *)

(** The operand of [n>&m] as the specification reads it: one that
    "parses fully as a non-negative integer within representable range". *)
Definition spec_fd_operand (name : string) : option Z :=
  match fd_operand name with
  | Some v => if 0 <=? v then Some v else None
  | None => None
  end.

(** A decimal numeral, without sign or white space, and its value. *)
Fixpoint all_digits (s : string) : bool :=
  match s with
  | EmptyString => true
  | String c r => is_some (Strtol.digit c) && all_digits r
  end.

Fixpoint numeral_value (acc : Z) (s : string) : Z :=
  match s with
  | EmptyString => acc
  | String c r => numeral_value (10 * acc + default 0 (Strtol.digit c)) r
  end.

(** The plain operator that a duplicate-fd operator falls back to. *)
Definition plain_op (op : io_operator) : io_operator :=
  match op with
  | OP_GREATAND => OP_GREAT
  | OP_LESSAND => OP_LESS
  | _ => op
  end.


(** A command that is forked wherever it stands: its control operator is
    not [;], or it is not a builtin (whatever the expansion of its words). *)
Definition forks_always (expand : World -> string -> string)
    (get_builtin : command -> option builtin_fn) (cmd : command) : Prop :=
  is_ctrl ";" cmd = false \/ forall w, get_builtin (expanded expand w cmd) = None.

(** ** Observations on worlds and traces *)

Definition world_of {A} (r : result A) : World :=
  match r with
  | Ok _ w => w
  | Stop _ w => w
  end.


Definition is_jobs_add (e : event) : bool :=
  match e with EJobsAdd _ _ => true | _ => false end.

Definition is_tcsetpgrp (e : event) : bool :=
  match e with ETcsetpgrp _ _ _ => true | _ => false end.

Definition is_wait (e : event) : bool :=
  match e with EWaitpid _ _ _ | EWaitBlocked _ _ => true | _ => false end.

Definition is_open (e : event) : bool :=
  match e with EOpen _ _ _ _ => true | _ => false end.

(** The events by which a process runs a command itself: the call of a
    builtin, and a call of execvp (one that came back). *)
Definition runs_command (e : event) : bool :=
  match e with EBuiltin _ _ _ | EExecvp _ _ => true | _ => false end.

(** The events that make a process group and register it: fork(),
    setpgid() and the registration with the job table. *)
Definition is_group_event (e : event) : bool :=
  match e with
  | EFork _ | ESetpgid _ _ _ | EJobsAdd _ _ => true
  | _ => false
  end.

(** What the parent does for a child [p] from fork() on when no call
    fails, for a pipeline state whose group id is [g0]: the two calls of
    setpgid, then, for a new pipeline only ([g0] is 0), the registration
    of the group of the child, which gives the job id [j]. *)
Definition spawn_events (p g0 j : Z) : list event :=
  [EFork p; ESetpgid p g0 0; ESetpgid p g0 0] ++
  (if g0 =? 0 then [EJobsAdd p j] else []).

(** The processes of a group, in the order of their creation. *)
Definition members (g : Z) (ps : list (Z * Z)) : list Z :=
  map fst (List.filter (fun p => snd p =? g) ps).

(** The events that a run added to a trace. *)
Definition added (w w' : World) : list event :=
  drop (List.length (trace w)) (trace w').

(** What the foreground wait loop goes through without leaving: a child
    that is still running, a child that ended (not one that stopped), an
    interrupted call. *)
Definition benign (a : wait_answer) : bool :=
  match a with
  | WRunning => true
  | WChanged p st => (0 <? p) && negb (WStatus.WIFSTOPPED st)
  | WError e => e =? C.EINTR
  end.

(** The job table after the statuses of these answers have been recorded
    for job [j], and the last status recorded ([init] when there is
    none). *)
Fixpoint recorded (j : Z) (pre : list wait_answer) (js : list job) : list job :=
  match pre with
  | [] => js
  | WChanged _ st :: more => recorded j more (Jobs.record_status j st js)
  | _ :: more => recorded j more js
  end.

Fixpoint last_recorded (pre : list wait_answer) (init : Z) : Z :=
  match pre with
  | [] => init
  | WChanged _ st :: more => last_recorded more st
  | _ :: more => last_recorded more init
  end.

(** The exit status of the shell for a raw status: the exit code, 128
    plus the signal number, or the old value for any other status. *)
Definition shell_status (st old : Z) : Z :=
  if WStatus.WIFEXITED st then WStatus.WEXITSTATUS st
  else if WStatus.WIFSIGNALED st then 128 + WStatus.WTERMSIG st
  else old.

(** No call of tcsetpgrp among these events succeeded. *)
Definition failed_tcsetpgrp_only (evs : list event) : bool :=
  forallb (fun e => match e with ETcsetpgrp _ _ rv => rv <? 0 | _ => true end) evs.

(** A call of waitpid for any child of the caller's group, blocking. *)
Definition wait_on_all (e : event) : Prop :=
  match e with
  | EWaitpid pid options _ | EWaitBlocked pid options => pid = 0 /\ options = 0
  | _ => True
  end.

(** The standard descriptors 0, 1 and 2 of the shell: they are open; they
    refer to the same files in two worlds; no record of a virtual
    redirection list has one of them as its real descriptor. *)
Definition std (k : Z) : Prop := 0 <= k <= 2.





(** The calls of close() that undo a virtual redirection list. *)
Definition closes_of (l : list builtin_redir) (evs : list event) : Prop :=
  Forall2 (fun r e => exists rv, e = EClose (realfd r) rv) l evs.


(** The pseudo-descriptors that a virtual redirection list maps (a
    record whose pseudo-descriptor is -1 maps none). *)
Definition mapped (l : list builtin_redir) : list Z :=
  List.filter (fun n => 0 <=? n) (map pseudofd l).

Definition any_event (e : event) : Prop := True.

(** What the parent leaves as it is once a child is spawned: the
    children and their groups, the pids to come, the absence of faults,
    and the registrations of jobs. *)
Definition quiet : relation World := fun w w' =>
  procs w' = procs w /\ forks w' = forks w /\
  (faults w = [] -> faults w' = []) /\
  exists evs, trace w' = trace w ++ evs /\ List.filter is_jobs_add evs = [].

(** A process that stops as the shell that it was: an assertion failed,
    or a call does not return; it has not exited and it has not become
    another program. *)
Definition still_shell (s : stop) : Prop := s = Aborted \/ s = Blocked.

(** [stops P m]: whenever [m] does not return, the way it stops
    satisfies [P]. *)
Definition stops {A} (P : stop -> Prop) (m : M A) : Prop :=
  forall w s w', m w = Stop s w' -> P s.

(** [keeps R m]: every run of [m], whether it returns or stops, relates
    the world before to the world after. *)
Definition keeps {A} (R : relation World) (m : M A) : Prop :=
  forall w, R w (world_of (m w)).

(** A projection of the world is left unchanged. *)
Definition same {T} (f : World -> T) : relation World :=
  fun w w' => f w' = f w.

(** The trace only grows, by events that satisfy [P]. *)
Definition emitting (P : event -> Prop) : relation World :=
  fun w w' => exists evs, trace w' = trace w ++ evs /\ Forall P evs.

(** ** Sample inputs *)

Module Sample.
Definition std_fds : gmap Z ofd :=
  <[2:=OTerminal]> (<[1:=OTerminal]> (<[0:=OTerminal]> ∅)).

(** An interactive shell with its three standard descriptors, process
    group 1, nothing running. *)
Definition w0 : World :=
  mkWorld std_fds [] 1 1 ∅ 0 0 0 true [] ∅ SIG_DFL SIG_DFL SIG_DFL 0 [] [] [] 0 [].

Definition no_expand : World -> string -> string := fun _ s => s.

Definition builtin_true : builtin_fn := fun _ _ w => (0, w).
Definition builtin_false : builtin_fn := fun _ _ w => (1, w).

(** A table with the builtins [cd] (succeeds) and [false] (fails). *)
Definition builtins (cmd : command) : option builtin_fn :=
  match words cmd with
  | name :: _ =>
      if String.eqb name "cd" then Some builtin_true
      else if String.eqb name "false" then Some builtin_false
      else None
  | [] => None
  end.

Definition run : command_list -> M Z := run_command_list no_expand builtins.

Definition ls (c : ascii) : command := Command ["ls"%string] [] [] c.
Definition cd (c : ascii) : command := Command ["cd"%string] [] [] c.
End Sample.

(** ** Observations for the further properties *)

(** The signals that signal_init handles, in the order of its calls. *)
Definition init_signals : list Z := [C.SIGTSTP; C.SIGTTOU; C.SIGINT].

Definition ignore_all (sigs : list Z) (m : gmap Z disposition) : gmap Z disposition :=
  foldl (fun acc s => <[s:=SIG_IGN]> acc) m sigs.

Definition disposition_of (w : World) (sig : Z) : disposition :=
  default SIG_DFL (sigdisp w !! sig).

(** Whether a variable of the store is marked for export. *)
Definition exported (m : gmap string (string * bool)) (n : string) : bool :=
  match m !! n with
  | Some (_, x) => x
  | None => false
  end.

(** The dispositions that signal_init saved. *)
Definition saved_sigs (w : World) : disposition * disposition * disposition :=
  (old_sigtstp w, old_sigttou w, old_sigint w).

(** What the foreground wait for group [pgrp] may do, in a shell whose
    own group is [sh]: continue and await that group, hand the terminal
    to it or take it back, drop its job, print a message. *)
Definition fg_scoped (pgrp sh : Z) (e : event) : Prop :=
  match e with
  | EKill pid sig _ => pid = - pgrp /\ sig = C.SIGCONT
  | EWaitpid pid options _ | EWaitBlocked pid options => pid = - pgrp /\ options = 0
  | ETcsetpgrp fd g _ => fd = C.STDIN_FILENO /\ (g = pgrp \/ g = sh)
  | EJobsRemove g _ => g = pgrp
  | EStderr _ _ => True
  | _ => False
  end.

(** [in_group P sh]: in a shell of group [sh], the group stays and the
    events added satisfy [P]. *)
Definition in_group (P : event -> Prop) (sh : Z) : relation World :=
  fun w w' => shell_pgrp w = sh -> shell_pgrp w' = sh /\ emitting P w w'.

(** No event of the kind [f]. *)
Definition never (f : event -> bool) (e : event) : Prop := f e = false.

(** A shell that runs a script: as [Sample.w0], not interactive. *)
Definition batch_w0 : World :=
  mkWorld Sample.std_fds [] 1 1 ∅ 0 0 0 false [] ∅ SIG_DFL SIG_DFL SIG_DFL 0 [] [] [] 0 [].

(** The entries at the positions 1, 3, 5, ... of a list. *)
Fixpoint every_second {A} (l : list A) : list A :=
  match l with
  | _ :: b :: rest => b :: every_second rest
  | _ => []
  end.

(** What a spawn leaves alone in the parent. *)
Definition shell_view (w : World)
  : gmap Z ofd * Z * Z * Z * list wait_answer * bool * Z :=
  (fds w, tty_fg w, p_status w, p_bg_pid w, waits w, is_interactive w, shell_pgrp w).


(** What the loop of the foreground wait never changes. *)
Definition wait_view (w : World) : gmap Z ofd * list Z * Z * bool * Z :=
  (fds w, faults w, tty_fg w, is_interactive w, shell_pgrp w).

(** The descriptor table after [if (fd >= 0) close(fd)]. *)
Definition closed (fd : Z) (t : gmap Z ofd) : gmap Z ofd :=
  if fd >=? 0 then delete fd t else t.

(** The descriptors of the parent between two commands of a pipeline:
    those it had before the pipeline, [t], and the read end of the pipe
    that the next command is to read from. *)
Definition pipe_inv (pd : pipeline_data) (t : gmap Z ofd) (w : World) : Prop :=
  (pipe_fd pd = -1 /\ fds w = t) \/
  (0 <= pipe_fd pd /\ t !! pipe_fd pd = None /\
   exists x, fds w = <[pipe_fd pd:=x]> t).

(** [returns P m]: whenever [m] returns, its value satisfies [P]. *)
Definition returns {A} (P : A -> Prop) (m : M A) : Prop :=
  forall w a w', m w = Ok a w' -> P a.

(** The values that the loop over the commands hands on: a pipeline
    state, or the value returned by run_command_list, 0 or -1. *)
Definition zero_or_minus_one (rv : Z) : Prop := rv = 0 \/ rv = -1.

Definition goes_on_or_fails (r : pipeline_data + Z) : Prop :=
  match r with
  | inl _ => True
  | inr rv => zero_or_minus_one rv
  end.

(** The same with the exit status of the shell, which the loop leaves
    alone as long as children end and calls are interrupted. *)
Definition loop_view (w : World) : gmap Z ofd * list Z * Z * bool * Z * Z :=
  (fds w, faults w, tty_fg w, is_interactive w, shell_pgrp w, p_status w).

(** A call of execvp that came back. *)
Definition is_execvp (e : event) : bool :=
  match e with EExecvp _ _ => true | _ => false end.

(** The report of a stopped job. *)
Definition is_stopped_report (e : event) : bool :=
  match e with
  | EStderr fmt _ => String.eqb fmt "[%jd] Stopped\n"
  | _ => false
  end.

(** * Proofs *)

(** ** The monad *)

Lemma bind_ok {A B} (m : M A) (k : A -> M B) w a w' :
  m w = Ok a w' -> bind m k w = k a w'.
Proof. intros H. unfold bind. now rewrite H. Qed.

Lemma bind_stop {A B} (m : M A) (k : A -> M B) w s w' :
  m w = Stop s w' -> bind m k w = Stop s w'.
Proof. intros H. unfold bind. now rewrite H. Qed.

Lemma bind_ret {A B} (a : A) (k : A -> M B) w : bind (ret a) k w = k a w.
Proof. reflexivity. Qed.

Lemma bind_get {A B} (f : World -> A) (k : A -> M B) w :
  bind (get f) k w = k (f w) w.
Proof. reflexivity. Qed.

Lemma bind_modify {B} (f : World -> World) (k : unit -> M B) w :
  bind (modify f) k w = k tt (f w).
Proof. reflexivity. Qed.

Lemma bind_assoc {A B D} (m : M A) (k : A -> M B) (h : B -> M D) w :
  bind (bind m k) h w = bind m (fun a => bind (k a) h) w.
Proof. unfold bind. now destruct (m w). Qed.

(** ** Frame reasoning: what a computation leaves as it is *)

#[export] Instance same_preorder {T} (f : World -> T) : PreOrder (same f).
Proof.
  split.
  - intros w. reflexivity.
  - intros a b c Hab Hbc. unfold same in *. congruence.
Qed.

#[export] Instance emitting_preorder (P : event -> Prop) : PreOrder (emitting P).
Proof.
  split.
  - intros w. exists []. split; [now rewrite app_nil_r | constructor].
  - intros a b c (e1 & H1 & F1) (e2 & H2 & F2). exists (e1 ++ e2). split.
    + rewrite H2, H1. now rewrite app_assoc.
    + now apply Forall_app.
Qed.

Section Keeps.
Context (R : relation World) `{!PreOrder R}.

Lemma keeps_ret {A} (a : A) : keeps R (ret a).
Proof. intros w. simpl. reflexivity. Qed.

Lemma keeps_get {A} (g : World -> A) : keeps R (get g).
Proof. intros w. simpl. reflexivity. Qed.

Lemma keeps_halt {A} (s : stop) : keeps R (@halt A s).
Proof. intros w. simpl. reflexivity. Qed.

Lemma keeps_bind {A B} (m : M A) (k : A -> M B) :
  keeps R m -> (forall a, keeps R (k a)) -> keeps R (bind m k).
Proof.
  intros Hm Hk w. unfold bind. specialize (Hm w).
  destruct (m w) as [a w1 | s w1]; simpl in *.
  - etransitivity; [exact Hm | apply Hk].
  - exact Hm.
Qed.
End Keeps.

Lemma keeps_ok {A} (R : relation World) (m : M A) w a w' :
  keeps R m -> m w = Ok a w' -> R w w'.
Proof. intros H E. specialize (H w). now rewrite E in H. Qed.

Lemma keeps_stop {A} (R : relation World) (m : M A) w s w' :
  keeps R m -> m w = Stop s w' -> R w w'.
Proof. intros H E. specialize (H w). now rewrite E in H. Qed.

Ltac case_inner H :=
  match type of H with
  | context [match ?x with _ => _ end] =>
      lazymatch x with
      | context [match _ with _ => _ end] => fail
      | _ => destruct x eqn:?
      end
  end.

Ltac case_goal :=
  match goal with
  | |- context [match ?x with _ => _ end] =>
      lazymatch x with
      | context [match _ with _ => _ end] => fail
      | _ => destruct x eqn:?
      end
  end.

Ltac unfold_prims :=
  unfold sys_close, sys_dup2, sys_dup, sys_open, sys_pipe, malloc_rec, free_rec,
    jobs_add, jobs_get_jid, jobs_get_pgid, jobs_set_status, jobs_get_status,
    jobs_remove_pgid, vars_set, vars_export, sys_fork, sys_setpgid, sys_getpgid,
    sys_kill, sys_tcsetpgrp, sys_waitpid, sys_sigaction, sys_execvp, strtol_errno,
    stderr, err, assert, when, fault, bind, modify, get, ret, halt in *.

Ltac trace_eq :=
  simpl; rewrite <- ?app_assoc; first [ reflexivity | symmetry; apply app_nil_r ].

(** A primitive keeps a projection: all its cases leave it as it is. *)
Ltac prim_same :=
  let w := fresh "w" in
  intros w; unfold same; unfold_prims;
  repeat (simpl; case_goal); simpl; try reflexivity.

(** A primitive emits only events of a kind: all its cases do. *)
Ltac prim_emitting :=
  let w := fresh "w" in
  intros w; unfold emitting; unfold_prims;
  repeat (simpl; case_goal); simpl;
  eexists; (split; [trace_eq | repeat constructor; simpl; auto]).

Create HintDb keeps.

Ltac keeps_step :=
  match goal with
  | |- keeps _ _ => solve [auto with keeps nocore]
  | |- keeps _ (bind _ _) => apply keeps_bind; [typeclasses eauto | | intros ?]
  | |- keeps _ (ret _) => apply keeps_ret; typeclasses eauto
  | |- keeps _ (get _) => apply keeps_get; typeclasses eauto
  | |- keeps _ (halt _) => apply keeps_halt; typeclasses eauto
  | |- keeps _ (if ?b then _ else _) => destruct b
  | |- keeps _ (match ?x with _ => _ end) => destruct x
  | |- keeps (same _) _ => solve [prim_same]
  | |- keeps (emitting _) _ => solve [prim_emitting]
  end.

(** Projections of updated worlds. *)
Ltac wred :=
  cbn [fds procs tty_fg shell_pgrp sigdisp errno p_status p_bg_pid is_interactive
       jobs vars old_sigtstp old_sigint old_sigttou live_recs faults forks waits
       npipes trace
       set_fds set_procs set_tty_fg set_sigdisp set_errno set_status set_bg_pid
       set_jobs set_vars set_old_sigs set_live_recs set_faults set_forks set_waits
       set_npipes emit].

(** The events that a run added, from the trace after it. *)
Lemma added_app w w' evs : trace w' = trace w ++ evs -> added w w' = evs.
Proof. intros H. unfold added. rewrite H. apply drop_app_length. Qed.

(** ** The operand of a duplicate-fd redirection *)

Lemma fd_operand_spec (name : string) (v : Z) :
  fd_operand name = Some v <->
  name <> ""%string /\ Strtol.strtol name = (v, ""%string) /\ v <= C.INT_MAX.
Proof.
  unfold fd_operand. destruct (Strtol.strtol name) as [src rest].
  destruct (String.eqb_spec name ""); simpl.
  - split; [discriminate | intros (Hn & _); contradiction].
  - destruct (String.eqb_spec rest ""); simpl.
    + destruct (Z.leb_spec src C.INT_MAX).
      * split.
        -- intros [= <-]. subst rest. auto.
        -- intros (_ & [= -> _] & _). reflexivity.
      * split; [discriminate |].
        intros (_ & [= -> _] & Hle). lia.
    + split; [discriminate |].
      intros (_ & [= _ Hr] & _). contradiction.
Qed.

(** Some conversions, as the C library makes them. *)
Example strtol_examples :
  map Strtol.strtol ["12"; " 12"; "+7"; "-5"; "12x"; "abc"; "-"; ""]%string =
    [(12, ""); (12, ""); (7, ""); (-5, ""); (12, "x"); (0, "abc"); (0, "-"); (0, "")]%string.
Proof. reflexivity. Qed.

Example fd_operand_examples :
  map fd_operand ["1"; "2147483647"; "2147483648"; "-5"; "file"; "1x"; ""]%string =
    [Some 1; Some 2147483647; None; Some (-5); None; None; None].
Proof. reflexivity. Qed.

Lemma digits_numeral s : forall acc,
  all_digits s = true ->
  Strtol.digits (Some acc) s = (Some (numeral_value acc s), ""%string).
Proof.
  induction s as [| c r IH]; intros acc H; simpl in *; [reflexivity |].
  apply andb_prop in H as [Hc Hr].
  destruct (Strtol.digit c) as [d |]; [| discriminate].
  simpl. now apply IH.
Qed.

Lemma numeral_value_nonneg s : forall acc, 0 <= acc -> 0 <= numeral_value acc s.
Proof.
  induction s as [| c r IH]; intros acc H; simpl; [exact H |].
  apply IH. unfold Strtol.digit.
  destruct ((48 <=? Z.of_nat (nat_of_ascii c)) && (Z.of_nat (nat_of_ascii c) <=? 57)) eqn:E;
    simpl; [| lia].
  apply andb_prop in E as [E1 E2]. apply Z.leb_le in E1. lia.
Qed.

Lemma digit_not_space_or_sign c d :
  Strtol.digit c = Some d ->
  Strtol.isspace c = false /\ c <> "-"%char /\ c <> "+"%char.
Proof.
  intros H.
  destruct c as [[] [] [] [] [] [] [] []]; vm_compute in H; try discriminate;
    (split; [reflexivity | split; discriminate]).
Qed.

(** A non-empty decimal numeral of value at most INT_MAX is the operand
    of a duplication: it parses in full to its value. *)
Lemma fd_operand_numeral (s : string) :
  s <> ""%string -> all_digits s = true -> numeral_value 0 s <= C.INT_MAX ->
  fd_operand s = Some (numeral_value 0 s) /\ 0 <= numeral_value 0 s.
Proof.
  intros Hne Hd Hmax.
  pose proof (numeral_value_nonneg s 0 ltac:(lia)) as Hnn.
  split; [| exact Hnn].
  apply fd_operand_spec. split; [exact Hne |]. split; [| exact Hmax].
  destruct s as [| c r]; [contradiction |].
  simpl in Hd. apply andb_prop in Hd as [Hc Hr].
  destruct (Strtol.digit c) as [d |] eqn:Ed; [| discriminate].
  destruct (digit_not_space_or_sign c d Ed) as (Hsp & Hm & Hp).
  unfold Strtol.strtol, Strtol.convert. simpl Strtol.skip_space. rewrite Hsp.
  assert (Hsign :
    match String c r with
    | String "-"%char r0 => (true, r0)
    | String "+"%char r0 => (false, r0)
    | _ => (false, String c r)
    end = (false, String c r)).
  { destruct c as [[] [] [] [] [] [] [] []]; try reflexivity; congruence. }
  rewrite Hsign.
  assert (Hdig : Strtol.digits None (String c r) =
                 (Some (numeral_value 0 (String c r)), ""%string)).
  { simpl. rewrite Ed. simpl. now apply digits_numeral. }
  rewrite Hdig. f_equal.
  unfold Strtol.clamp, C.LONG_MAX, C.LONG_MIN, C.INT_MAX in *. lia.
Qed.

Lemma to_int_id (v : Z) : C.INT_MIN <= v <= C.INT_MAX -> C.to_int v = v.
Proof.
  unfold C.to_int, C.INT_MIN, C.INT_MAX. intros H.
  rewrite Z.mod_small by lia. lia.
Qed.

Lemma get_io_flags_plain (op : io_operator) :
  get_io_flags (plain_op op) = get_io_flags op.
Proof. now destruct op. Qed.

(** What a call of dup2 does, case by case: it succeeds, it fails
    with EBADF for one of its arguments, or it fails with an injected
    error. *)
Lemma sys_dup2_cases (src dst : Z) (w : World) :
  exists rv w',
    sys_dup2 src dst w = Ok rv w' /\
    trace w' = trace w ++ [EDup2 src dst rv] /\
    ((rv = dst /\ 0 <= dst /\ hd 0 (faults w) = 0 /\
      faults w' = tl (faults w) /\ errno w' = errno w /\
      exists f, fds w !! src = Some f /\ fds w' = <[dst:=f]> (fds w)) \/
     (rv = -1 /\ fds w' = fds w /\
      ((fds w !! src = None \/ dst < 0) /\
       errno w' = C.EBADF /\ faults w' = faults w \/
       is_Some (fds w !! src) /\ 0 <= dst /\ hd 0 (faults w) <> 0 /\
       errno w' = hd 0 (faults w) /\ faults w' = tl (faults w)))).
Proof.
  unfold sys_dup2, fault, bind.
  destruct (fds w !! src) as [f |] eqn:Ef.
  - destruct (Z.leb_spec 0 dst) as [Hd | Hd].
    + destruct (faults w) as [| e fs] eqn:Efa.
      * change (0 =? 0) with true. cbv iota.
        eexists _, _. split; [reflexivity |]. wred. split; [reflexivity |].
        left. rewrite Efa. repeat split; eauto.
      * destruct (Z.eqb_spec e 0) as [-> | He].
        -- eexists _, _. split; [reflexivity |]. wred. split; [reflexivity |].
           left. repeat split; eauto.
        -- eexists _, _. split; [reflexivity |]. wred. split; [reflexivity |].
           right. split; [reflexivity |]. split; [reflexivity |].
           right. repeat split; eauto.
    + eexists _, _. split; [reflexivity |]. wred. split; [reflexivity |].
      right. split; [reflexivity |]. split; [reflexivity |]. left. auto.
  - eexists _, _. split; [reflexivity |]. wred. split; [reflexivity |].
    right. split; [reflexivity |]. split; [reflexivity |]. left. auto.
Qed.

(** A word that passes the test with a value that fits an [int] is not
    out of the range of [long]: strtol leaves errno alone. *)
Lemma fd_operand_no_erange (name : string) (v : Z) :
  fd_operand name = Some v -> C.INT_MIN <= v -> Strtol.erange name = false.
Proof.
  intros Hv Hmin. apply fd_operand_spec in Hv as (_ & Hs & Hmax).
  unfold Strtol.strtol in Hs. unfold Strtol.erange.
  destruct (Strtol.convert name) as [[z rest] |]; [| reflexivity].
  injection Hs as Hz _. apply negb_false_iff, Z.eqb_eq.
  unfold Strtol.clamp, C.LONG_MAX, C.LONG_MIN, C.INT_MAX, C.INT_MIN in *. lia.
Qed.

(** C6, as amended.  On the external path, for a duplicate-fd operator
    [n>&word] or [n<&word]: the word [-] closes descriptor [n]; a word
    that [strtol] accepts in full with a value of at most INT_MAX (and at
    least INT_MIN) is a descriptor number, negative or not, and the
    redirection is the one call [dup2(value, n)]: no file is opened; when
    the call succeeds [n] refers to the file of [value], when it fails
    (as it does with EBADF for a [value] that is not open) the
    redirection fails and the table is left as it was.  Only a word that
    fails the test falls back to the file-open of the plain operator,
    after the call of strtol, which has left ERANGE in errno when the
    number was out of the range of [long]. *)
Theorem dup_operand_redirect (r : io_redir) (w : World) :
  is_dup_op (io_op r) = true ->
  (filename r = "-"%string ->
     io_redirect r w =
       match fds w !! io_number r with
       | Some _ => Ok 0 (emit (EClose (io_number r) 0)
                      (set_fds (delete (io_number r) (fds w)) w))
       | None => Ok (-1) (emit (EClose (io_number r) (-1)) (set_errno C.EBADF w))
       end) /\
  (forall v, filename r <> "-"%string ->
     fd_operand (filename r) = Some v -> C.INT_MIN <= v ->
     io_redirect r w =
       bind (sys_dup2 v (io_number r))
            (fun d => if d <? 0 then ret (-1) else ret 0) w /\
     exists rv w',
       io_redirect r w = Ok (if rv <? 0 then -1 else 0) w' /\
       added w w' = [EDup2 v (io_number r) rv] /\
       (0 <= rv ->
        rv = io_number r /\
        exists f, fds w !! v = Some f /\ fds w' = <[io_number r:=f]> (fds w)) /\
       (rv < 0 -> fds w' = fds w) /\
       (fds w !! v = None \/ io_number r < 0 -> rv = -1 /\ errno w' = C.EBADF)) /\
  (filename r <> "-"%string -> fd_operand (filename r) = None ->
     let w0 := strtol_errno (filename r) w in
     io_redirect r w = open_redirect r w0 /\
     io_redirect r w =
       io_redirect (IoRedir (io_number r) (plain_op (io_op r)) (filename r)) w0).
Proof.
  intros Hdup. unfold io_redirect. rewrite Hdup. split; [| split].
  - intros ->. simpl. unfold bind, sys_close.
    destruct (fds w !! io_number r); reflexivity.
  - intros v Hne Hv Hmin.
    destruct (String.eqb_spec (filename r) "-"); [contradiction |].
    rewrite bind_modify. unfold strtol_errno.
    rewrite (fd_operand_no_erange _ _ Hv Hmin).
    rewrite Hv. apply fd_operand_spec in Hv as (_ & _ & Hmax).
    rewrite to_int_id by lia. split; [reflexivity |].
    destruct (sys_dup2_cases v (io_number r) w) as (rv & w' & E & T & Hc).
    exists rv, w'. rewrite (bind_ok _ _ _ _ _ E).
    split; [now destruct (rv <? 0) |].
    split; [now apply added_app |].
    destruct Hc as [(-> & Hn & _ & _ & _ & f & Hf & Hfds)
                   | (-> & Hfds & [(Hbad & He & _) | ([f Hf] & Hn & _)])].
    + split; [intros _; split; [reflexivity | eauto] |].
      split; [lia |].
      intros [Hnone | Hneg]; [congruence | lia].
    + split; [lia |]. split; [intros _; exact Hfds |]. auto.
    + split; [lia |]. split; [intros _; exact Hfds |].
      intros [Hnone | Hneg]; [congruence | lia].
  - intros Hne Hnone.
    destruct (String.eqb_spec (filename r) "-"); [contradiction |].
    rewrite bind_modify. rewrite Hnone. cbv zeta. split; [reflexivity |]. simpl.
    assert (Hp : is_dup_op (plain_op (io_op r)) = false)
      by (destruct (io_op r); simpl in *; congruence).
    rewrite Hp. unfold open_redirect. simpl.
    now rewrite get_io_flags_plain.
Qed.

(** [2>&1] in a shell with its standard descriptors: descriptor 1 is
    duplicated onto 2. *)
Lemma dup_operand_redirect_witness :
  io_redirect (IoRedir 2 OP_GREATAND "1") Sample.w0 =
    Ok 0 (emit (EDup2 1 2 2)
            (set_fds (<[2:=OTerminal]> (fds Sample.w0)) Sample.w0)).
Proof.
  destruct (dup_operand_redirect (IoRedir 2 OP_GREATAND "1") Sample.w0 eq_refl)
    as (_ & Hdup & _).
  destruct (Hdup 1) as [E _]; [discriminate | reflexivity | |].
  - unfold C.INT_MIN. lia.
  - rewrite E. reflexivity.
Defined.

(** C6 as stated fails: the word [-5] does not parse as a non-negative
    integer, yet [1>&-5] is not treated as [1> -5]: the code calls
    dup2(-5, 1), which fails, and no file is opened. *)
Lemma dup_operand_negative_counterexample :
  ~ (forall (r : io_redir) (w : World),
       is_dup_op (io_op r) = true ->
       filename r <> "-"%string ->
       spec_fd_operand (filename r) = None ->
       io_redirect r w = open_redirect r w).
Proof.
  intros H.
  specialize (H (IoRedir 1 OP_GREATAND "-5") Sample.w0 eq_refl).
  assert (Hv : match io_redirect (IoRedir 1 OP_GREATAND "-5") Sample.w0 with
               | Ok a _ => a | Stop _ _ => 0 end = -1) by (vm_compute; reflexivity).
  rewrite H in Hv; [| discriminate | reflexivity].
  vm_compute in Hv. discriminate.
Qed.

(** ** The job table *)

Lemma find_jid_record_status j st js i :
  Jobs.find_jid i (Jobs.record_status j st js) =
    match Jobs.find_jid i js with
    | Some jb => Some (if jid jb =? j then Job (jid jb) (pgid jb) st else jb)
    | None => None
    end.
Proof.
  unfold Jobs.find_jid, Jobs.record_status.
  induction js as [| a js IH]; simpl; [reflexivity |].
  destruct (Z.eqb_spec (jid a) j) as [He | Hne]; simpl.
  - destruct (Z.eqb_spec (jid a) i); [| exact IH].
    destruct (Z.eqb_spec (jid a) j); [reflexivity | contradiction].
  - destruct (Z.eqb_spec (jid a) i); [| exact IH].
    destruct (Z.eqb_spec (jid a) j); [contradiction | reflexivity].
Qed.

Lemma find_jid_recorded j pre : forall js jb0,
  Jobs.find_jid j js = Some jb0 ->
  exists jb, Jobs.find_jid j (recorded j pre js) = Some jb /\
             jstatus jb = last_recorded pre (jstatus jb0).
Proof.
  induction pre as [| a pre IH]; intros js jb0 H; simpl.
  - eauto.
  - destruct a; try (apply IH; exact H).
    assert (Hj : jid jb0 = j).
    { unfold Jobs.find_jid in H. apply List.find_some in H as [_ H].
      now apply Z.eqb_eq in H. }
    destruct (IH (Jobs.record_status j status js) (Job (jid jb0) (pgid jb0) status))
      as (jb & Hf & Hs).
    + rewrite find_jid_record_status, H, Hj, Z.eqb_refl. reflexivity.
    + exists jb. split; [exact Hf | exact Hs].
Qed.

Lemma find_pgid_forget_group g js : Jobs.find_pgid g (Jobs.forget_group g js) = None.
Proof.
  unfold Jobs.find_pgid, Jobs.forget_group.
  induction js as [| a js IH]; simpl; [reflexivity |].
  destruct (Z.eqb_spec (pgid a) g) as [He | Hne]; simpl; [exact IH |].
  destruct (Z.eqb_spec (pgid a) g); [contradiction | exact IH].
Qed.

Lemma forget_group_absent g js :
  Jobs.find_pgid g js = None -> Jobs.forget_group g js = js.
Proof.
  unfold Jobs.find_pgid, Jobs.forget_group.
  induction js as [| a js IH]; simpl; [reflexivity |].
  destruct (pgid a =? g); simpl; [discriminate |].
  intros H. now rewrite IH.
Qed.

Lemma find_pgid_jid g js jb :
  Jobs.find_pgid g js = Some jb -> exists jb', Jobs.find_jid (jid jb) js = Some jb'.
Proof.
  unfold Jobs.find_pgid, Jobs.find_jid. intros H.
  apply List.find_some in H as [Hin _].
  destruct (List.find (fun j => jid j =? jid jb) js) eqn:E; [eauto |].
  apply List.find_none with (x := jb) in E; [| exact Hin].
  now rewrite Z.eqb_refl in E.
Qed.

(** ** Wait statuses *)

Lemma WEXITSTATUS_exited c : 0 <= c <= 255 -> WStatus.WEXITSTATUS (WStatus.exited c) = c.
Proof.
  intros H. unfold WStatus.WEXITSTATUS, WStatus.exited.
  rewrite Z.shiftr_land, Z.shiftr_shiftl_l by lia.
  replace (8 - 8) with 0 by lia. rewrite Z.shiftl_0_r.
  change (Z.shiftr 65280 8) with (Z.ones 8).
  rewrite Z.land_ones by lia. apply Z.mod_small. simpl. lia.
Qed.

Lemma WIFEXITED_exited c : WStatus.WIFEXITED (WStatus.exited c) = true.
Proof.
  unfold WStatus.WIFEXITED, WStatus.WTERMSIG, WStatus.exited.
  change 127 with (Z.ones 7). rewrite Z.land_ones by lia.
  rewrite Z.shiftl_mul_pow2 by lia.
  replace (c * 2 ^ 8) with ((c * 2) * 2 ^ 7) by (change (2 ^ 8) with 256; change (2 ^ 7) with 128; lia).
  rewrite Z.mod_mul by (change (2 ^ 7) with 128; lia). reflexivity.
Qed.

Lemma WTERMSIG_signaled s : 1 <= s <= 126 ->
  WStatus.WTERMSIG (WStatus.signaled s) = s /\
  WStatus.WIFEXITED (WStatus.signaled s) = false /\
  WStatus.WIFSIGNALED (WStatus.signaled s) = true.
Proof.
  intros H. unfold WStatus.WIFSIGNALED, WStatus.WIFEXITED, WStatus.WTERMSIG, WStatus.signaled.
  change 127 with (Z.ones 7). rewrite Z.land_ones by lia.
  rewrite Z.mod_small by (change (2 ^ 7) with 128; lia).
  change (Z.ones 7) with 127.
  destruct (Z.eqb_spec s 0); [lia |]. destruct (Z.eqb_spec s 127); [lia |]. auto.
Qed.

(** ** wait.c *)

Lemma fg_handoff_facts pgrp w o w1 :
  fg_handoff pgrp w = Ok o w1 ->
  jobs w1 = jobs w /\ p_status w1 = p_status w /\ waits w1 = waits w /\
  is_interactive w1 = is_interactive w /\ shell_pgrp w1 = shell_pgrp w /\
  match o with
  | Some j =>
      0 <= pgrp /\
      (exists jb, Jobs.find_pgid pgrp (jobs w) = Some jb /\ jid jb = j) /\
      (is_interactive w = true ->
       tty_fg w1 = pgrp /\
       exists pre, trace w1 = pre ++ [ETcsetpgrp C.STDIN_FILENO pgrp 0])
  | None =>
      tty_fg w1 = tty_fg w /\
      exists evs, trace w1 = trace w ++ evs /\ failed_tcsetpgrp_only evs = true
  end.
Proof.
  unfold fg_handoff. unfold_prims. intros H.
  repeat (case_inner H; simpl in H); inversion H; subst; clear H; simpl;
    repeat split; try reflexivity; try lia; try congruence; eauto;
    try (eexists; reflexivity);
    try (eexists; split; [trace_eq | reflexivity]).

Qed.

Lemma fg_restore_facts w :
  exists w', fg_restore w = Ok tt w' /\
    jobs w' = jobs w /\ p_status w' = p_status w /\
    (is_interactive w = true ->
     exists rv, trace w' = trace w ++ ETcsetpgrp C.STDIN_FILENO (shell_pgrp w) rv ::
                  (if rv <? 0
                   then [EStderr "Failed to restore BigShell as foreground process group" []]
                   else []) /\
                (rv = 0 -> tty_fg w' = shell_pgrp w)) /\
    (is_interactive w = false -> w' = w).
Proof.
  unfold fg_restore. unfold_prims.
  destruct (is_interactive w) eqn:Hi; simpl.
  - destruct (faults w) as [| e l]; simpl.
    + eexists; split; [reflexivity |]. simpl. repeat split; try discriminate.
      intros _. exists 0. simpl. split; [reflexivity | reflexivity].
    + destruct (Z.eqb_spec e 0); simpl.
      * eexists; split; [reflexivity |]. simpl. repeat split; try discriminate.
        intros _. exists 0. simpl. split; [reflexivity | reflexivity].
      * eexists; split; [reflexivity |]. simpl. repeat split; try discriminate.
        intros _. exists (-1). simpl. split; [| discriminate].
        now rewrite <- app_assoc.
  - eexists; split; [reflexivity |]. repeat split; discriminate.
Qed.

Lemma fg_wait_loop_skip fuel pgrp j w l :
  waits w = WRunning :: l ->
  fg_wait_loop (S fuel) pgrp j w = fg_wait_loop (S fuel) pgrp j (set_waits l w).
Proof.
  intros H. simpl.
  unfold bind, sys_waitpid. rewrite H. simpl.
  destruct (next_wait false false l) as [[[| p st | e] rest] |]; reflexivity.
Qed.

Section FgLoop.
Variables (pgrp j : Z) (rest : list wait_answer).

Lemma fg_wait_loop_echild : forall pre fuel w jb0,
  (List.length pre < fuel)%nat ->
  waits w = pre ++ WError C.ECHILD :: rest ->
  forallb benign pre = true ->
  Jobs.find_jid j (jobs w) = Some jb0 ->
  exists jb w',
    Jobs.find_jid j (recorded j pre (jobs w)) = Some jb /\
    fg_wait_loop fuel pgrp j w = Ok 0 w' /\
    p_status w' = shell_status (jstatus jb) (p_status w) /\
    jobs w' = Jobs.forget_group pgrp (recorded j pre (jobs w)) /\
    is_interactive w' = is_interactive w /\ shell_pgrp w' = shell_pgrp w.
Proof.
  induction pre as [| a pre IH]; intros fuel w jb0 Hfuel Hw Hb Hj.
  - destruct fuel as [| n]; [simpl in Hfuel; lia |].
    simpl in *. exists jb0.
    unfold record_exit_status, shell_status. unfold_prims. rewrite Hw. simpl. rewrite Hj. simpl.
    repeat (case_goal; simpl); eexists; repeat split; try reflexivity;
      simpl; symmetry; now apply forget_group_absent.
  - simpl in Hb. apply andb_prop in Hb as [Ha Hb]. simpl in Hw.
    destruct fuel as [| n]; [simpl in Hfuel; lia |].
    destruct a as [| p st | e]; simpl in Ha.
    + rewrite (fg_wait_loop_skip _ _ _ _ _ Hw).
      destruct (IH (S n) (set_waits (pre ++ WError C.ECHILD :: rest) w) jb0)
        as (jb & w' & H1 & H2 & H3 & H4 & H5 & H6);
        [simpl in Hfuel; lia | reflexivity | exact Hb | exact Hj |].
      exists jb, w'. repeat split; assumption.
    + apply andb_prop in Ha as [Hp Hst]. apply negb_true_iff in Hst.
      destruct (IH n (set_jobs (Jobs.record_status j st (jobs w))
                        (emit (EWaitpid (- pgrp) 0 p)
                           (set_waits (pre ++ WError C.ECHILD :: rest) w)))
                  (Job (jid jb0) (pgid jb0) st))
        as (jb & w' & H1 & H2 & H3 & H4 & H5 & H6);
        [simpl in Hfuel; lia | reflexivity | exact Hb | |].
      { simpl. rewrite find_jid_record_status, Hj.
        apply List.find_some in Hj as [_ Hj]. now rewrite Hj. }
      exists jb, w'. repeat split; try assumption.
      assert (Hp' : (p <? 0) = false) by (apply Z.ltb_lt in Hp; apply Z.ltb_ge; lia).
      simpl. unfold_prims. rewrite Hw. simpl.
      repeat (rewrite ?Hp', ?Hp, ?Hj, ?Hst; simpl). exact H2.
    + apply Z.eqb_eq in Ha. subst e.
      destruct (IH n (emit (EWaitpid (- pgrp) 0 (-1))
                        (set_errno C.EINTR
                           (set_waits (pre ++ WError C.ECHILD :: rest) w))) jb0)
        as (jb & w' & H1 & H2 & H3 & H4 & H5 & H6);
        [simpl in Hfuel; lia | reflexivity | exact Hb | exact Hj |].
      exists jb, w'. repeat split; try assumption.
      simpl. unfold_prims. rewrite Hw. simpl. exact H2.
Qed.
End FgLoop.

Lemma fg_wait_loop_same_interactive fuel pgrp j :
  keeps (same is_interactive) (fg_wait_loop fuel pgrp j).
Proof.
  induction fuel as [| n IH]; simpl.
  - apply keeps_halt; typeclasses eauto.
  - unfold record_exit_status. repeat keeps_step.
Qed.

Lemma fg_wait_loop_same_shell_pgrp fuel pgrp j :
  keeps (same shell_pgrp) (fg_wait_loop fuel pgrp j).
Proof.
  induction fuel as [| n IH]; simpl.
  - apply keeps_halt; typeclasses eauto.
  - unfold record_exit_status. repeat keeps_step.
Qed.

Lemma fg_handoff_returns pgrp w : exists o w1, fg_handoff pgrp w = Ok o w1.
Proof.
  unfold fg_handoff. unfold_prims.
  repeat (case_goal; simpl); eauto.
Qed.

(** C5.  In the foreground wait, once the hand-off is done, let the
    blocking wait report "no more children" (ECHILD), possibly after
    children that ended and after interrupted calls.  Then the call
    returns 0, the exit status of the shell is the translation of the last
    status recorded for the job (the exit code of a normal exit, 128 plus
    the signal number of a signaled termination), and the job table has no
    entry left for the group. *)
Theorem fg_wait_no_more_children (pgrp j : Z) (w w1 : World)
    (pre rest : list wait_answer) :
  fg_handoff pgrp w = Ok (Some j) w1 ->
  waits w = pre ++ WError C.ECHILD :: rest ->
  forallb benign pre = true ->
  exists jb0 w',
    Jobs.find_jid j (jobs w) = Some jb0 /\
    wait_on_fg_pgid pgrp w = Ok 0 w' /\
    p_status w' = shell_status (last_recorded pre (jstatus jb0)) (p_status w) /\
    (forall c, 0 <= c <= 255 ->
       last_recorded pre (jstatus jb0) = WStatus.exited c -> p_status w' = c) /\
    (forall s, 1 <= s <= 126 ->
       last_recorded pre (jstatus jb0) = WStatus.signaled s -> p_status w' = 128 + s) /\
    jobs w' = Jobs.forget_group pgrp (recorded j pre (jobs w)) /\
    Jobs.find_pgid pgrp (jobs w') = None.
Proof.
  intros Hh Hw Hpre.
  destruct (fg_handoff_facts _ _ _ _ Hh)
    as (Hjobs & Hst & Hwaits & _ & _ & _ & (jb & Hfind & Hjid) & _).
  destruct (find_pgid_jid _ _ _ Hfind) as (jb0 & Hj0). rewrite Hjid in Hj0.
  destruct (find_jid_recorded j pre (jobs w) jb0 Hj0) as (jbl & Hl & Hls).
  destruct (fg_wait_loop_echild pgrp j rest pre (S (List.length (waits w1))) w1 jb0)
    as (jb' & w2 & H1 & H2 & H3 & H4 & _);
    [ rewrite Hwaits, Hw, length_app; simpl; lia
    | now rewrite Hwaits | exact Hpre | now rewrite Hjobs |].
  rewrite Hjobs in H1, H4. rewrite Hl in H1. injection H1 as <-.
  destruct (fg_restore_facts w2) as (w3 & Hr & Hrj & Hrs & _).
  exists jb0, w3.
  assert (Hp : p_status w3 = shell_status (last_recorded pre (jstatus jb0)) (p_status w))
    by (rewrite Hrs, H3, Hls, Hst; reflexivity).
  repeat split.
  - exact Hj0.
  - unfold wait_on_fg_pgid. rewrite (bind_ok _ _ _ _ _ Hh). rewrite bind_get.
    rewrite (bind_ok _ _ _ _ _ H2). now rewrite (bind_ok _ _ _ _ _ Hr).
  - exact Hp.
  - intros c Hc E. rewrite Hp, E. unfold shell_status.
    now rewrite WIFEXITED_exited, WEXITSTATUS_exited.
  - intros s Hs E. rewrite Hp, E. unfold shell_status.
    destruct (WTERMSIG_signaled s Hs) as (-> & -> & ->). reflexivity.
  - now rewrite Hrj.
  - rewrite Hrj, H4. apply find_pgid_forget_group.
Qed.

(** [ls | ls ;] whose two children end with codes 0 and 3. *)
Lemma fg_wait_no_more_children_witness :
  exists w',
    wait_on_fg_pgid 100
      (set_waits [WChanged 100 (WStatus.exited 0); WChanged 101 (WStatus.exited 3);
                  WError C.ECHILD]
         (set_jobs [Job 0 100 0] Sample.w0)) = Ok 0 w' /\
    p_status w' = 3 /\ jobs w' = [].
Proof.
  pose (w := set_waits [WChanged 100 (WStatus.exited 0); WChanged 101 (WStatus.exited 3);
                        WError C.ECHILD]
               (set_jobs [Job 0 100 0] Sample.w0)).
  destruct (fg_wait_no_more_children 100 0 w (world_of (fg_handoff 100 w))
              [WChanged 100 (WStatus.exited 0); WChanged 101 (WStatus.exited 3)] [])
    as (jb0 & w' & _ & Hrun & _ & Hexit & _ & Hjobs & _).
  - vm_compute. reflexivity.
  - reflexivity.
  - reflexivity.
  - exists w'. split; [exact Hrun |]. split.
    + apply (Hexit 3); [lia | reflexivity].
    + exact Hjobs.
Defined.

(** C4, as amended.  In an interactive shell the foreground wait first
    hands the terminal over; the failures before that point (a negative
    group id, an unknown job, a failed kill, a failed hand-off) return -1
    at once, without any call that restores the terminal and with the
    foreground group of the terminal as it was.  Past that point every
    path that returns, the error paths of the wait loop included, ends
    with the call tcsetpgrp(STDIN_FILENO, getpgid(0)) (followed only by its
    diagnostic when it fails); when that call succeeds the shell's group
    is the foreground group again. *)
Theorem fg_restore_after_handoff (pgrp : Z) (w : World) :
  is_interactive w = true ->
  exists o w1,
    fg_handoff pgrp w = Ok o w1 /\
    match o with
    | Some _ =>
        forall r w', wait_on_fg_pgid pgrp w = Ok r w' ->
          exists pre rv,
            trace w' =
              pre ++ ETcsetpgrp C.STDIN_FILENO (shell_pgrp w) rv ::
                (if rv <? 0
                 then [EStderr "Failed to restore BigShell as foreground process group" []]
                 else []) /\
            (rv = 0 -> tty_fg w' = shell_pgrp w)
    | None =>
        wait_on_fg_pgid pgrp w = Ok (-1) w1 /\
        tty_fg w1 = tty_fg w /\
        exists evs, trace w1 = trace w ++ evs /\ failed_tcsetpgrp_only evs = true
    end.
Proof.
  intros Hi. destruct (fg_handoff_returns pgrp w) as (o & w1 & Hh).
  exists o, w1. split; [exact Hh |].
  destruct (fg_handoff_facts _ _ _ _ Hh) as (_ & _ & _ & Hi1 & Hs1 & Ho).
  destruct o as [j |].
  - intros r w' Hrun. unfold wait_on_fg_pgid in Hrun.
    rewrite (bind_ok _ _ _ _ _ Hh), bind_get in Hrun.
    destruct (fg_wait_loop (S (List.length (waits w1))) pgrp j w1)
      as [retval w2 | s w2] eqn:Hloop.
    + rewrite (bind_ok _ _ _ _ _ Hloop) in Hrun.
      pose proof (keeps_ok _ _ _ _ _ (fg_wait_loop_same_interactive _ _ _) Hloop) as Hi2.
      pose proof (keeps_ok _ _ _ _ _ (fg_wait_loop_same_shell_pgrp _ _ _) Hloop) as Hs2.
      unfold same in Hi2, Hs2.
      destruct (fg_restore_facts w2) as (w3 & Hr & _ & _ & Hrest & _).
      rewrite (bind_ok _ _ _ _ _ Hr) in Hrun. injection Hrun as <- <-.
      destruct Hrest as (rv & Ht & Htty); [congruence |].
      exists (trace w2), rv. rewrite Ht, Hs2, Hs1. split; [reflexivity |].
      intros E. rewrite (Htty E). congruence.
    + rewrite (bind_stop _ _ _ _ _ Hloop) in Hrun. discriminate.
  - destruct Ho as (Htty & Hevs). repeat split; try assumption.
    unfold wait_on_fg_pgid. now rewrite (bind_ok _ _ _ _ _ Hh).
Qed.

(** The wait for [ls ;] in an interactive shell: the child ends, then
    ECHILD; the last event is the successful restoration. *)
Lemma fg_restore_after_handoff_witness :
  exists pre,
    trace (world_of (wait_on_fg_pgid 100
             (set_waits [WChanged 100 0; WError C.ECHILD]
                (set_jobs [Job 0 100 0] Sample.w0)))) =
    pre ++ [ETcsetpgrp C.STDIN_FILENO 1 0].
Proof.
  pose (w := set_waits [WChanged 100 0; WError C.ECHILD]
               (set_jobs [Job 0 100 0] Sample.w0)).
  destruct (fg_restore_after_handoff 100 w eq_refl) as (o & w1 & Hh & Ho).
  assert (E : fg_handoff 100 w = Ok (Some 0) (world_of (fg_handoff 100 w)))
    by (vm_compute; reflexivity).
  rewrite E in Hh. injection Hh as <- <-.
  destruct (Ho 0 (world_of (wait_on_fg_pgid 100 w))) as (pre & rv & Ht & _).
  - vm_compute. reflexivity.
  - exists pre. fold w. rewrite Ht.
    assert (Hrv : rv = 0).
    { assert (Hl : last (trace (world_of (wait_on_fg_pgid 100 w))) =
                   Some (ETcsetpgrp C.STDIN_FILENO 1 0)) by (vm_compute; reflexivity).
      rewrite Ht in Hl. destruct (rv <? 0) eqn:Hneg.
      - rewrite last_app in Hl. simpl in Hl. discriminate.
      - rewrite last_app in Hl. simpl in Hl. congruence. }
    subst rv. reflexivity.
Defined.

(** C4 as stated fails.  The terminal is with group 100 and that group
    has vanished: kill(-100, SIGCONT) fails with ESRCH, and the call
    returns -1 without any tcsetpgrp; the terminal is left with the
    defunct group. *)
Lemma fg_restore_counterexample :
  ~ (forall (pgrp : Z) (w : World) (r : Z) (w' : World),
       is_interactive w = true ->
       wait_on_fg_pgid pgrp w = Ok r w' ->
       (exists rv, In (ETcsetpgrp C.STDIN_FILENO (shell_pgrp w) rv) (added w w')) \/
       tty_fg w' = shell_pgrp w).
Proof.
  intros H.
  pose (w := set_tty_fg 100 (set_faults [C.ESRCH] (set_jobs [Job 0 100 0] Sample.w0))).
  destruct (H 100 w (-1) (world_of (wait_on_fg_pgid 100 w)) eq_refl)
    as [[rv Hin] | Htty].
  - vm_compute. reflexivity.
  - vm_compute in Hin. destruct Hin as [Hin | [Hin | []]]; discriminate.
  - vm_compute in Htty. discriminate.
Qed.

(** C3: the claim asks for a wait that does not block and that is for
    the group of the job; the code calls waitpid(0, &status, 0), a wait
    without WNOHANG for the children in the shell's OWN process group.
    The shell moves every child into a group of its own when it spawns it,
    so that it has no child in its own group and the call fails with
    ECHILD at once.  The job is then reported by the status stored in the
    table ("Done" for the status 0 of a job that was never waited for) and
    removed, after this one call: no process of its group was waited for,
    and the children of the group are still there. *)
Theorem wait_on_bg_jobs_unscoped (jb : job) (rest : list wait_answer) (w : World) :
  jobs w = [jb] ->
  waits w = WError C.ECHILD :: rest ->
  exists w',
    wait_on_bg_jobs w = Ok 0 w' /\
    added w w' =
      EWaitpid 0 0 (-1) ::
      (if WStatus.WIFEXITED (jstatus jb)
       then [EStderr "[%jd] Done\n" [jid jb]]
       else if WStatus.WIFSIGNALED (jstatus jb)
            then [EStderr "[%jd] Terminated\n" [jid jb]]
            else []) ++
      [EJobsRemove (pgid jb) 0] /\
    jobs w' = [] /\ procs w' = procs w /\ waits w' = rest.
Proof.
  intros Hj Hw.
  assert (L : forall fuel, exists w1,
    bg_wait_loop (S fuel) (pgid jb) (jid jb) w = Ok None w1 /\
    trace w1 = trace w ++
      EWaitpid 0 0 (-1) ::
      (if WStatus.WIFEXITED (jstatus jb)
       then [EStderr "[%jd] Done\n" [jid jb]]
       else if WStatus.WIFSIGNALED (jstatus jb)
            then [EStderr "[%jd] Terminated\n" [jid jb]]
            else []) ++
      [EJobsRemove (pgid jb) 0] /\
    jobs w1 = [] /\ procs w1 = procs w /\ waits w1 = rest).
  { intros fuel. simpl. unfold_prims. rewrite Hw. simpl. rewrite Hj. simpl.
    rewrite !Z.eqb_refl. simpl.
    destruct (WStatus.WIFEXITED (jstatus jb));
      [| destruct (WStatus.WIFSIGNALED (jstatus jb))];
      simpl; rewrite ?Hj; simpl; rewrite ?Z.eqb_refl; simpl;
      (eexists; split; [reflexivity |]); simpl; rewrite ?Hj; simpl;
      rewrite ?Z.eqb_refl; simpl; rewrite <- ?app_assoc; auto. }
  unfold wait_on_bg_jobs. rewrite bind_get, Hj.
  cbn [List.length bg_scan]. rewrite bind_get, Hj.
  change ([jb] !! 0%nat) with (Some jb). cbv iota. rewrite bind_get.
  destruct (L (List.length (waits w))) as (w1 & E & T & J & P & W).
  rewrite (bind_ok _ _ _ _ _ E). cbv iota. rewrite bind_get, J.
  exists w1. split; [reflexivity |]. split; [now apply added_app | auto].
Qed.

(** The job of group 100, whose process 100 is running: it is reported
    as done and forgotten after the one call of waitpid(0, &status, 0). *)
Lemma wait_on_bg_jobs_unscoped_witness :
  let w := set_procs [(100, 100)]
             (set_waits [WError C.ECHILD] (set_jobs [Job 0 100 0] Sample.w0)) in
  exists w',
    wait_on_bg_jobs w = Ok 0 w' /\
    added w w' = [EWaitpid 0 0 (-1); EStderr "[%jd] Done\n" [0]; EJobsRemove 100 0] /\
    jobs w' = [] /\ procs w' = [(100, 100)].
Proof.
  intros w.
  destruct (wait_on_bg_jobs_unscoped (Job 0 100 0) [] w eq_refl eq_refl)
    as (w' & E & T & J & P & _).
  exists w'. split; [exact E |]. split; [exact T |]. split; [exact J | exact P].
Defined.

Lemma bg_wait_loop_waits fuel pgrp j :
  keeps (emitting wait_on_all) (bg_wait_loop fuel pgrp j).
Proof.
  induction fuel as [| n IH]; simpl.
  - apply keeps_halt; typeclasses eauto.
  - repeat keeps_step.
Qed.

Lemma bg_scan_waits fuel i : keeps (emitting wait_on_all) (bg_scan fuel i).
Proof.
  revert i. induction fuel as [| n IH]; simpl; intros i.
  - apply keeps_halt; typeclasses eauto.
  - repeat keeps_step. apply bg_wait_loop_waits.
Qed.

(** Whatever the job table and the children: every wait of the
    background reap is waitpid(0, &status, 0), for no job's own group
    and without WNOHANG. *)
Lemma wait_on_bg_jobs_waits : keeps (emitting wait_on_all) wait_on_bg_jobs.
Proof.
  unfold wait_on_bg_jobs. repeat keeps_step. apply bg_scan_waits.
Qed.

(** ** runner.c: the command list *)

Lemma is_ctrl_eq c cmd : is_ctrl c cmd = true -> ctrl_op cmd = c.
Proof. unfold is_ctrl. apply Ascii.eqb_eq. Qed.

Section RunnerFacts.
Variable expand : World -> string -> string.
Variable get_builtin : command -> option builtin_fn.

Lemma run_commands_return pd cmd rest w rv w' :
  run_command expand get_builtin pd cmd w = Ok (inr rv) w' ->
  run_commands expand get_builtin pd (cmd :: rest) w = Ok rv w'.
Proof. intros H. simpl. now rewrite (bind_ok _ _ _ _ _ H). Qed.

(** C10.  Let a command with the control operator [;] be spawned (the
    parent gets a positive pid) and let the foreground wait for its group
    return a failure.  Then the commands that follow in the list are not
    run and the list returns at once: 0 when the exit status of the shell
    is not 127, and -1, after a warning and with the status set to 127,
    when it is 127. *)
Theorem fg_wait_failure_ends_list (pd : pipeline_data) (cmd : command)
    (rest : list command) (w : World) :
  let cmd' := expanded expand w cmd in
  is_ctrl ";" cmd' = true ->
  forall child pd2 w1 w2 r w3,
    spawn (is_some (get_builtin cmd')) true
      (PipelineData (-1) (pd_pgid pd) (pd_jid pd)) w = Ok (Some (child, pd2)) w1 ->
    0 < child ->
    close_pipe_ends (-1) (pipe_fd pd) w1 = Ok tt w2 ->
    wait_on_fg_pgid (pd_pgid pd2) w2 = Ok r w3 ->
    r < 0 ->
    run_commands expand get_builtin pd (cmd :: rest) w =
      if p_status w3 =? 127
      then Ok (-1) (set_status 127 (emit (EStderr "warn" []) w3))
      else Ok 0 w3.
Proof.
  intros cmd' Hfg child pd2 w1 w2 r w3 Hspawn Hchild Hclose Hwait Hr.
  assert (Hrun : run_command expand get_builtin pd cmd w =
                 if p_status w3 =? 127
                 then Ok (inr (-1)) (set_status 127 (emit (EStderr "warn" []) w3))
                 else Ok (inr 0) w3).
  { unfold run_command, expand_command_words. rewrite bind_get. fold cmd'.
    pose proof (is_ctrl_eq _ _ Hfg) as Hc.
    assert (Hpl : is_ctrl "|" cmd' = false) by (unfold is_ctrl; now rewrite Hc).
    assert (Hbg : is_ctrl "&" cmd' = false) by (unfold is_ctrl; now rewrite Hc).
    rewrite Hfg, Hpl, Hbg. simpl. rewrite !bind_ret. simpl.
    rewrite (bind_ok _ _ _ _ _ Hspawn).
    destruct (Z.eqb_spec child 0); [lia |].
    unfold parent_branch.
    assert (Hpos : (0 <? child) = true) by now apply Z.ltb_lt.
    rewrite Hpos. simpl. rewrite bind_ret.
    rewrite (bind_ok _ _ _ _ _ Hclose).
    rewrite bind_assoc, (bind_ok _ _ _ _ _ Hwait).
    assert (Hneg : (r <? 0) = true) by now apply Z.ltb_lt.
    rewrite Hneg. rewrite bind_assoc, bind_get.
    destruct (p_status w3 =? 127); reflexivity. }
  destruct (p_status w3 =? 127); now apply run_commands_return.
Qed.
End RunnerFacts.

(** [ls ; ls ;] when the group of the first [ls] has vanished before the
    wait: kill fails, the wait fails, the status is 0 and the list returns
    0 without running the second [ls]. *)
Lemma fg_wait_failure_ends_list_witness :
  exists w',
    Sample.run [Sample.ls ";"; Sample.ls ";"]
      (set_faults [0; 0; 0; C.ESRCH] (set_forks [100; 101] Sample.w0)) = Ok 0 w' /\
    forks w' = [101].
Proof.
  pose (w := set_faults [0; 0; 0; C.ESRCH] (set_forks [100; 101] Sample.w0)).
  pose (s := spawn false true (PipelineData (-1) 0 (-1)) w).
  pose (w1 := world_of s).
  pose (w3 := world_of (wait_on_fg_pgid 100 w1)).
  exists w3. split; [| vm_compute; reflexivity].
  apply (fg_wait_failure_ends_list Sample.no_expand Sample.builtins
           (PipelineData (-1) 0 (-1)) (Sample.ls ";") [Sample.ls ";"] w
           eq_refl 100 (PipelineData (-1) 100 0) w1 w1 (-1) w3).
  - vm_compute. reflexivity.
  - lia.
  - vm_compute. reflexivity.
  - vm_compute. reflexivity.
  - lia.
Defined.

(** ** What a computation returns, and how it stops *)

Lemma returns_bind {A B} (P : B -> Prop) (m : M A) (k : A -> M B) :
  (forall a, returns P (k a)) -> returns P (bind m k).
Proof.
  intros H w b w' E. unfold bind in E.
  destruct (m w) as [a w1 | s w1]; [| discriminate]. exact (H a w1 b w' E).
Qed.

Lemma returns_ret {A} (P : A -> Prop) (a : A) : P a -> returns P (ret a).
Proof. intros H w b w' [= <- <-]. exact H. Qed.

Lemma returns_halt {A} (P : A -> Prop) (s : stop) : returns P (@halt A s).
Proof. intros w b w' E. discriminate E. Qed.

Lemma returns_bind_with {A B} (Q : A -> Prop) (P : B -> Prop) (m : M A) (k : A -> M B) :
  returns Q m -> (forall a, Q a -> returns P (k a)) -> returns P (bind m k).
Proof.
  intros Hm H w b w' E. unfold bind in E.
  destruct (m w) as [a w1 | s w1] eqn:Em; [| discriminate].
  exact (H a (Hm w a w1 Em) w1 b w' E).
Qed.

Ltac returns_step :=
  match goal with
  | |- returns _ (bind _ _) => apply returns_bind; intros ?
  | |- returns _ (ret _) => apply returns_ret; simpl; auto
  | |- returns _ (halt _) => apply returns_halt
  | |- returns _ (if ?b then _ else _) => destruct b
  | |- returns _ (match ?x with _ => _ end) => destruct x
  end.


Lemma setpgid_race_emitting pid g : keeps (emitting any_event) (setpgid_race pid g).
Proof. unfold setpgid_race. repeat keeps_step. Qed.
#[export] Hint Resolve setpgid_race_emitting : keeps.

Lemma stops_bind {A B} (P : stop -> Prop) (m : M A) (k : A -> M B) :
  stops P m -> (forall a, stops P (k a)) -> stops P (bind m k).
Proof.
  intros Hm Hk w s w' E. unfold bind in E.
  destruct (m w) as [a w1 | s1 w1] eqn:Em.
  - exact (Hk a w1 s w' E).
  - injection E as <- <-. exact (Hm w s1 w1 Em).
Qed.

Lemma stops_ret {A} (P : stop -> Prop) (a : A) : stops P (ret a).
Proof. intros w s w' E. discriminate E. Qed.

Lemma stops_get {A} (P : stop -> Prop) (f : World -> A) : stops P (get f).
Proof. intros w s w' E. discriminate E. Qed.

Lemma stops_halt {A} (P : stop -> Prop) (s : stop) : P s -> stops P (@halt A s).
Proof. intros H w s' w' [= <- <-]. exact H. Qed.

(** A primitive stops in one way only, if at all. *)
Ltac prim_stops :=
  let w := fresh "w" in
  intros w ? ?; unfold_prims;
  repeat (simpl; case_goal); simpl;
  intros [=]; subst; unfold still_shell; auto.

Create HintDb stops.

Ltac stops_step :=
  match goal with
  | |- stops _ _ => solve [auto with stops nocore]
  | |- stops _ (bind _ _) => apply stops_bind; [| intros ?]
  | |- stops _ (ret _) => apply stops_ret
  | |- stops _ (get _) => apply stops_get
  | |- stops _ (halt _) => apply stops_halt; unfold still_shell; auto
  | |- stops _ (if ?b then _ else _) => destruct b
  | |- stops _ (match ?x with _ => _ end) => destruct x
  | |- stops _ _ => solve [prim_stops]
  end.

Lemma fg_wait_loop_shell fuel pgrp j : stops still_shell (fg_wait_loop fuel pgrp j).
Proof.
  induction fuel as [| n IH]; simpl.
  - apply stops_halt. now right.
  - unfold record_exit_status. repeat stops_step.
Qed.
#[export] Hint Resolve fg_wait_loop_shell : stops.

Lemma wait_on_fg_pgid_shell pgrp : stops still_shell (wait_on_fg_pgid pgrp).
Proof. unfold wait_on_fg_pgid, fg_handoff, fg_restore. repeat stops_step. Qed.
#[export] Hint Resolve wait_on_fg_pgid_shell : stops.



Lemma fg_wait_loop_no_run fuel pgrp j :
  keeps (emitting (never runs_command)) (fg_wait_loop fuel pgrp j).
Proof.
  induction fuel as [| n IH]; simpl.
  - apply keeps_halt; typeclasses eauto.
  - unfold record_exit_status. repeat keeps_step.
Qed.
#[export] Hint Resolve fg_wait_loop_no_run : keeps.

Lemma wait_on_fg_pgid_no_run pgrp :
  keeps (emitting (never runs_command)) (wait_on_fg_pgid pgrp).
Proof. unfold wait_on_fg_pgid, fg_handoff, fg_restore. repeat keeps_step. Qed.
#[export] Hint Resolve wait_on_fg_pgid_no_run : keeps.





Section ForkDecision.
Variable expand : World -> string -> string.
Variable get_builtin : command -> option builtin_fn.

End ForkDecision.



(** ** The two redirection paths *)

(** On the external path a failed redirection ends the sequence: the
    redirections that follow are not applied. *)
Lemma io_redirects_abort (r : io_redir) (rest : list io_redir) (w w1 : World) (st : Z) :
  io_redirect r w = Ok st w1 -> st < 0 ->
  io_redirects (r :: rest) w = Ok (-1) w1.
Proof.
  intros H Hst. simpl. rewrite (bind_ok _ _ _ _ _ H).
  assert (E : (st <? 0) = true) by now apply Z.ltb_lt.
  now rewrite E.
Qed.

(** C7: the claim holds on the external path and the virtual path breaks
    it.  For the builtin [cd <missing >out ;] with [missing] impossible
    to open: do_builtin_io_redirects goes on after the failure and opens
    (creates) [out], it returns -1, and run_command_list, which does not
    look at that value, calls the builtin and returns 0. *)
Theorem builtin_redirect_failure_goes_on :
  let cmd := Command ["cd"%string] []
               [IoRedir 0 OP_LESS "missing"; IoRedir 1 OP_GREAT "out"] ";" in
  let w := set_faults [C.ENOENT] Sample.w0 in
  (exists w1, do_builtin_io_redirects cmd [] w = Ok (-1, [BuiltinRedir 1 3]) w1) /\
  (exists w', Sample.run [cmd] w = Ok 0 w' /\
     added w w' = [EOpen "missing" C.O_RDONLY 511 (-1);
                   EOpen "out" (get_io_flags OP_GREAT) 511 3;
                   EBuiltin ["cd"%string] [BuiltinRedir 1 3] 0;
                   EClose 3 0]) /\
  (exists w1, do_io_redirects cmd w = Ok (-1) w1 /\
     added w w1 = [EOpen "missing" C.O_RDONLY 511 (-1)]).
Proof.
  split; [| split].
  - eexists. vm_compute. reflexivity.
  - eexists. split; vm_compute; reflexivity.
  - eexists. split; vm_compute; reflexivity.
Qed.

(** C8: the claim describes what closing an unmapped pseudo-descriptor
    does, and closing a mapped one breaks it.  After [1>f], the
    redirection [1>&-] closes the real descriptor and sets the PSEUDO
    descriptor of the record to -1: the list has no record for 1 any more,
    where the claim wants the record {1, closed}; a later [1>g] adds a
    second record. *)
Theorem close_of_mapped_pseudofd :
  let cmd := Command ["cd"%string] []
               [IoRedir 1 OP_GREAT "f"; IoRedir 1 OP_GREATAND "-"] ";" in
  let cmd2 := Command ["cd"%string] []
               [IoRedir 1 OP_GREAT "f"; IoRedir 1 OP_GREATAND "-";
                IoRedir 1 OP_GREAT "g"] ";" in
  (exists w1, do_builtin_io_redirects cmd [] Sample.w0 =
                Ok (0, [BuiltinRedir (-1) 3]) w1) /\
  find_rec 1 [BuiltinRedir (-1) 3] = None /\
  (exists w1, do_builtin_io_redirects cmd2 [] Sample.w0 =
                Ok (0, [BuiltinRedir 1 3; BuiltinRedir (-1) 3]) w1) /\
  (exists w1, do_builtin_io_redirects
                (Command ["cd"%string] [] [IoRedir 1 OP_GREATAND "-"] ";") []
                Sample.w0 = Ok (0, [BuiltinRedir 1 (-1)]) w1).
Proof.
  split; [| split; [| split]].
  - eexists. vm_compute. reflexivity.
  - reflexivity.
  - eexists. vm_compute. reflexivity.
  - eexists. vm_compute. reflexivity.
Qed.

(** ** Pipelines: one group, one job *)

#[export] Instance quiet_preorder : PreOrder quiet.
Proof.
  split.
  - intros w. repeat split; try tauto. exists []. split; [now rewrite app_nil_r | reflexivity].
  - intros a b c (P1 & F1 & Q1 & e1 & T1 & J1) (P2 & F2 & Q2 & e2 & T2 & J2).
    repeat split; try congruence; try tauto.
    exists (e1 ++ e2). split.
    + rewrite T2, T1. now rewrite app_assoc.
    + rewrite List.filter_app, J1, J2. reflexivity.
Qed.

Ltac prim_quiet :=
  let w := fresh "w" in
  intros w; unfold quiet; unfold_prims;
  repeat (simpl; case_goal); simpl;
  (split; [reflexivity | split; [reflexivity | split;
     [ intros; simpl in *; congruence
     | eexists; split; [trace_eq | reflexivity] ]]]).

Ltac quiet_step :=
  match goal with
  | |- keeps quiet _ => first [ keeps_step | solve [prim_quiet] ]
  end.

Lemma fg_handoff_quiet pgrp : keeps quiet (fg_handoff pgrp).
Proof. unfold fg_handoff. repeat quiet_step. Qed.

Lemma fg_wait_loop_quiet fuel pgrp j : keeps quiet (fg_wait_loop fuel pgrp j).
Proof.
  induction fuel as [| n IH]; simpl.
  - apply keeps_halt; typeclasses eauto.
  - unfold record_exit_status. repeat quiet_step.
Qed.

Lemma fg_restore_quiet : keeps quiet fg_restore.
Proof. unfold fg_restore. repeat quiet_step. Qed.

#[export] Hint Resolve fg_handoff_quiet fg_wait_loop_quiet fg_restore_quiet : keeps.

Lemma wait_on_fg_pgid_quiet pgrp : keeps quiet (wait_on_fg_pgid pgrp).
Proof. unfold wait_on_fg_pgid. repeat quiet_step. Qed.

Lemma close_pipe_ends_quiet d u : keeps quiet (close_pipe_ends d u).
Proof. unfold close_pipe_ends, when. repeat quiet_step. Qed.

#[export] Hint Resolve wait_on_fg_pgid_quiet close_pipe_ends_quiet : keeps.

Lemma parent_branch_quiet is_pl is_bg is_fg child u d pd :
  keeps quiet (parent_branch is_pl is_bg is_fg child u d pd).
Proof. unfold parent_branch, when. repeat quiet_step. Qed.

(** There is always a descriptor number that is not open. *)
Lemma fresh_fd_some (t : gmap Z ofd) : exists n, fresh_fd t = Some n /\ t !! n = None.
Proof.
  unfold fresh_fd.
  destruct (List.find _ _) as [n |] eqn:E.
  - exists n. split; [reflexivity |].
    apply List.find_some in E as [_ E]. now destruct (t !! n).
  - exfalso.
    set (l := map Z.of_nat (seq 0 (S (size t)))) in *.
    assert (Hsub : (list_to_set l : gset Z) ⊆ dom t).
    { intros x Hx. apply elem_of_list_to_set in Hx.
      apply list_elem_of_In in Hx.
      pose proof (List.find_none _ _ E x Hx) as Hn. simpl in Hn.
      apply elem_of_dom. destruct (t !! x); [eauto | discriminate]. }
    apply subseteq_size in Hsub.
    rewrite size_dom in Hsub.
    rewrite size_list_to_set in Hsub.
    + unfold l in Hsub. rewrite length_map, length_seq in Hsub. lia.
    + unfold l. apply NoDup_fmap_2; [apply _ | apply NoDup_seq].
Qed.

Lemma setup_pipe_ok is_pl w :
  faults w = [] ->
  exists ends w0, setup_pipe is_pl w = Ok (Some ends) w0 /\ quiet w w0 /\
                  (is_pl = false -> fst ends = -1).
Proof.
  intros Hf. unfold setup_pipe. destruct is_pl.
  - unfold sys_pipe, fault, bind. rewrite Hf. simpl.
    destruct (fresh_fd_some (fds w)) as (rd & -> & _).
    destruct (fresh_fd_some (<[rd:=OPipeRead (npipes w)]> (fds w))) as (wr & -> & _).
    simpl. eexists _, _. split; [reflexivity |]. split; [| discriminate].
    unfold quiet. simpl.
    split; [reflexivity | split; [reflexivity | split; [intros _; exact Hf |]]].
    eexists. split; [reflexivity | reflexivity].
  - eexists _, _. split; [reflexivity |]. split; [reflexivity | reflexivity].
Qed.

Lemma join_group_others p g (ps : list (Z * Z)) :
  p ∉ map fst ps -> join_group p g ps = ps.
Proof.
  unfold join_group. induction ps as [| [q h] ps IH]; simpl; intros Hn; [reflexivity |].
  apply not_elem_of_cons in Hn as [Hq Hn].
  destruct (Z.eqb_spec q p); [congruence |]. now rewrite IH.
Qed.

Lemma join_group_fresh p g h (ps : list (Z * Z)) :
  p ∉ map fst ps ->
  join_group p g (ps ++ [(p, h)]) = ps ++ [(p, if g =? 0 then p else g)].
Proof.
  intros Hn. unfold join_group. rewrite map_app. fold (join_group p g ps).
  rewrite join_group_others by exact Hn. simpl. now rewrite Z.eqb_refl.
Qed.

Lemma find_fresh p g (ps : list (Z * Z)) :
  p ∉ map fst ps ->
  List.find (fun q => fst q =? p) (ps ++ [(p, g)]) = Some (p, g).
Proof.
  induction ps as [| [q h] ps IH]; simpl; intros Hn.
  - now rewrite Z.eqb_refl.
  - apply not_elem_of_cons in Hn as [Hq Hn].
    destruct (Z.eqb_spec q p); [congruence | now apply IH].
Qed.

Lemma fresh_jid_nonneg js : 0 <= Jobs.fresh_jid js.
Proof.
  unfold Jobs.fresh_jid.
  destruct (List.find _ _) as [n |] eqn:E; simpl; [| lia].
  apply List.find_some in E as [Hin _].
  apply List.in_map_iff in Hin as (k & <- & _). lia.
Qed.

Arguments join_group : simpl never.

Ltac mred := cbv beta; cbn [negb andb orb pd_pgid pipe_fd pd_jid fst snd].

Lemma sys_fork_ok w p fs :
  forks w = p :: fs -> 0 < p ->
  sys_fork w = Ok p (emit (EFork p)
                       (set_procs (procs w ++ [(p, shell_pgrp w)]) (set_forks fs w))).
Proof.
  intros Hforks Hp. unfold sys_fork. rewrite Hforks.
  assert (Hp1 : (0 <? p) = true) by now apply Z.ltb_lt.
  now rewrite Hp1.
Qed.

Lemma setpgid_race_ok pid g w :
  faults w = [] ->
  setpgid_race pid g w =
    Ok true (emit (ESetpgid pid g 0) (set_procs (join_group pid g (procs w)) w)).
Proof.
  intros Hf. unfold setpgid_race, sys_setpgid, fault, bind. now rewrite Hf.
Qed.

Lemma jobs_add_ok g w :
  faults w = [] ->
  jobs_add g w =
    Ok (Jobs.fresh_jid (jobs w))
       (emit (EJobsAdd g (Jobs.fresh_jid (jobs w)))
          (set_jobs (jobs w ++ [Job (Jobs.fresh_jid (jobs w)) g 0]) w)).
Proof.
  intros Hf. unfold jobs_add, fault, bind. now rewrite Hf.
Qed.

Lemma spawn_ok ib fg pd w p fs :
  should_fork ib fg = true ->
  faults w = [] -> forks w = p :: fs -> 0 < p -> p ∉ map fst (procs w) ->
  let g := if pd_pgid pd =? 0 then p else pd_pgid pd in
  exists j w1 evs,
    spawn ib fg pd w = Ok (Some (p, PipelineData (pipe_fd pd) g j)) w1 /\
    procs w1 = procs w ++ [(p, g)] /\ forks w1 = fs /\ faults w1 = [] /\
    trace w1 = trace w ++ evs /\
    List.filter is_jobs_add evs = (if pd_pgid pd =? 0 then [EJobsAdd p j] else []) /\
    (pd_pgid pd = 0 -> 0 <= j).
Proof.
  intros Hsf Hf Hforks Hp Hfresh g.
  assert (Hp2 : (p <? 0) = false) by (apply Z.ltb_ge; lia).
  assert (Hp3 : (p =? 0) = false) by (apply Z.eqb_neq; lia).
  pose proof (fresh_jid_nonneg (jobs w)) as Hj.
  assert (Hj' : (Jobs.fresh_jid (jobs w) <? 0) = false) by (apply Z.ltb_ge; lia).
  destruct pd as [pf pg pj]. simpl in *.
  assert (E : spawn ib fg (PipelineData pf pg pj) w =
    (if negb (p =? 0) && (pg =? 0)
     then
       g0 <- sys_getpgid p ;;
       assert (p =? g0) ;;;
       j <- jobs_add p ;;
       if j <? 0 then ret None else ret (Some (p, PipelineData pf p j))
     else ret (Some (p, PipelineData pf pg pj)))
      (emit (ESetpgid p pg 0)
         (set_procs (procs w ++ [(p, g)])
            (emit (ESetpgid p pg 0)
               (set_procs (procs w ++ [(p, g)])
                  (emit (EFork p)
                     (set_procs (procs w ++ [(p, shell_pgrp w)]) (set_forks fs w)))))))).
  { unfold spawn. rewrite Hsf.
    rewrite (bind_ok _ _ _ _ _ (sys_fork_ok _ _ _ Hforks Hp)). mred.
    rewrite Hp2. mred.
    erewrite bind_ok; [| apply setpgid_race_ok; exact Hf]. mred.
    erewrite bind_ok; [| apply setpgid_race_ok; exact Hf]. mred.
    wred. rewrite !join_group_fresh by exact Hfresh. reflexivity. }
  rewrite E. clear E. rewrite Hp3. mred.
  subst g. destruct (Z.eqb_spec pg 0) as [H0 | H0]; mred.
  - unfold sys_getpgid. rewrite bind_get. rewrite Hp3. wred.
    rewrite find_fresh by exact Hfresh. mred.
    rewrite Z.eqb_refl. cbn [assert]. rewrite bind_ret.
    erewrite bind_ok; [| apply jobs_add_ok; exact Hf]. mred.
    wred. rewrite Hj'.
    eexists _, _, _. split; [reflexivity |]. wred.
    split; [reflexivity | split; [reflexivity | split; [exact Hf |]]].
    split; [rewrite <- !app_assoc; reflexivity |].
    split; [reflexivity | intros _; exact Hj].
  - exists pj. eexists _, _. split; [reflexivity |]. wred.
    split; [reflexivity | split; [reflexivity | split; [exact Hf |]]].
    split; [rewrite <- !app_assoc; reflexivity |].
    split; [reflexivity | intros; contradiction].
Qed.

Lemma close_pipe_ends_returns d u w : exists w1, close_pipe_ends d u w = Ok tt w1.
Proof.
  unfold close_pipe_ends, when. unfold_prims.
  repeat (case_goal; simpl); eauto.
Qed.

Lemma parent_branch_bg is_pl is_bg child u d pd w :
  is_bg || is_pl = true -> 0 < child -> (is_pl = false -> pipe_fd pd = -1) ->
  exists w',
    parent_branch is_pl is_bg false child u d pd w =
      Ok (inl (if is_pl then pd else PipelineData (pipe_fd pd) 0 (-1))) w'.
Proof.
  intros Hb Hc Hp. unfold parent_branch.
  assert (Hc' : (0 <? child) = true) by now apply Z.ltb_lt.
  rewrite Hc'. cbn [assert]. rewrite bind_ret.
  destruct (close_pipe_ends_returns d u w) as (w1 & H1).
  rewrite (bind_ok _ _ _ _ _ H1). mred.
  rewrite Hb. cbn [assert]. unfold when, stderr, modify, bind, ret.
  destruct is_pl; cbn [negb].
  - destruct is_bg; eexists; reflexivity.
  - rewrite (Hp eq_refl). simpl. destruct is_bg; eexists; reflexivity.
Qed.

Section Pipeline.
Variable expand : World -> string -> string.
Variable get_builtin : command -> option builtin_fn.

Lemma run_command_spawns pd cmd w p fs :
  is_ctrl "|" cmd || is_ctrl "&" cmd || is_ctrl ";" cmd = true ->
  (is_ctrl ";" cmd = true -> get_builtin (expanded expand w cmd) = None) ->
  faults w = [] -> forks w = p :: fs -> 0 < p -> p ∉ map fst (procs w) ->
  let g := if pd_pgid pd =? 0 then p else pd_pgid pd in
  let r := run_command expand get_builtin pd cmd w in
  procs (world_of r) = procs w ++ [(p, g)] /\
  forks (world_of r) = fs /\
  faults (world_of r) = [] /\
  (exists j evs,
     trace (world_of r) = trace w ++ evs /\
     List.filter is_jobs_add evs =
       (if pd_pgid pd =? 0 then [EJobsAdd p j] else []) /\
     (pd_pgid pd = 0 -> 0 <= j)) /\
  (is_ctrl "|" cmd = true ->
   exists rd j, r = Ok (inl (PipelineData rd g j)) (world_of r)).
Proof.
  intros Hctrl Hext Hf Hforks Hp Hfresh g r. subst r.
  unfold run_command, expand_command_words. rewrite bind_get.
  change (is_ctrl "|" (expanded expand w cmd)) with (is_ctrl "|" cmd).
  change (is_ctrl "&" (expanded expand w cmd)) with (is_ctrl "&" cmd).
  change (is_ctrl ";" (expanded expand w cmd)) with (is_ctrl ";" cmd).
  rewrite Hctrl. cbn [assert]. rewrite bind_ret.
  destruct (setup_pipe_ok (is_ctrl "|" cmd) w Hf)
    as ([rd wr] & w0 & Hs & (Hprocs0 & Hforks0 & Hfaults0 & e0 & Ht0 & Hj0) & Hrd).
  rewrite (bind_ok _ _ _ _ _ Hs). mred.
  assert (Hsf : should_fork (is_some (get_builtin (expanded expand w cmd)))
                  (is_ctrl ";" cmd) = true).
  { unfold should_fork. destruct (is_ctrl ";" cmd) eqn:E.
    - now rewrite (Hext eq_refl).
    - now rewrite orb_true_r. }
  destruct (spawn_ok _ _ (PipelineData rd (pd_pgid pd) (pd_jid pd)) w0 p fs Hsf)
    as (j & w1 & e1 & Hsp & Hprocs1 & Hforks1 & Hfaults1 & Ht1 & Hj1 & Hjn);
    [ now apply Hfaults0 | congruence | exact Hp | now rewrite Hprocs0 |].
  cbn [pd_pgid pipe_fd] in *. fold g in Hsp, Hprocs1.
  rewrite (bind_ok _ _ _ _ _ Hsp). mred.
  assert (Hp3 : (p =? 0) = false) by (apply Z.eqb_neq; lia).
  rewrite Hp3.
  match goal with
  | |- context [world_of (parent_branch ?a ?b ?c ?d ?e ?f ?h w1)] =>
      pose proof (parent_branch_quiet a b c d e f h w1)
        as (Hprocs2 & Hforks2 & Hfaults2 & e2 & Ht2 & Hj2)
  end.
  split; [congruence |]. split; [congruence |]. split; [now apply Hfaults2 |].
  split.
  - exists j, (e0 ++ e1 ++ e2). split.
    + rewrite Ht2, Ht1, Ht0. now rewrite <- !app_assoc.
    + rewrite !List.filter_app, Hj0, Hj1, Hj2, app_nil_r. split; [reflexivity | exact Hjn].
  - intros Hpl. exists rd, j.
    assert (Hfg : is_ctrl ";" cmd = false).
    { apply is_ctrl_eq in Hpl. unfold is_ctrl. now rewrite Hpl. }
    rewrite Hfg, Hpl.
    destruct (parent_branch_bg true (is_ctrl "&" cmd) p (pipe_fd pd) wr
                (PipelineData rd g j) w1) as (w2 & H2);
      [ now rewrite orb_true_r | exact Hp | discriminate |].
    rewrite H2. reflexivity.
Qed.
End Pipeline.

Lemma world_of_bind_pure {A B} (m : M A) (k : A -> M B) w :
  (forall a w1, world_of (k a w1) = w1) ->
  world_of (bind m k w) = world_of (m w).
Proof. intros H. unfold bind. destruct (m w); [apply H | reflexivity]. Qed.

Lemma members_app g ps qs : members g (ps ++ qs) = members g ps ++ members g qs.
Proof. unfold members. now rewrite List.filter_app, map_app. Qed.

Lemma members_same g (pids : list Z) : members g (map (fun q => (q, g)) pids) = pids.
Proof.
  unfold members. induction pids as [| q pids IH]; simpl; [reflexivity |].
  rewrite Z.eqb_refl. simpl. now rewrite IH.
Qed.

Lemma members_none g (ps : list (Z * Z)) :
  (forall p h, (p, h) ∈ ps -> h <> g) -> members g ps = [].
Proof.
  unfold members. induction ps as [| [p h] ps IH]; simpl; intros H; [reflexivity |].
  destruct (Z.eqb_spec h g) as [E | E].
  - exfalso. apply (H p h); [apply elem_of_cons; now left | exact E].
  - apply IH. intros q k Hin. apply (H q k). apply elem_of_cons. now right.
Qed.

Section PipelineGroup.
Variable expand : World -> string -> string.
Variable get_builtin : command -> option builtin_fn.

Lemma pipeline_spawns : forall stages last pids more pd w,
  Forall (fun c => is_ctrl "|" c = true) stages ->
  is_ctrl "&" last = true \/ is_ctrl ";" last = true ->
  forks_always expand get_builtin last ->
  List.length pids = S (List.length stages) ->
  faults w = [] ->
  forks w = pids ++ more ->
  Forall (fun p => 0 < p) pids ->
  NoDup pids ->
  (forall p, p ∈ pids -> p ∉ map fst (procs w)) ->
  let g := if pd_pgid pd =? 0 then hd 0 pids else pd_pgid pd in
  let w' := world_of (run_commands expand get_builtin pd (stages ++ [last]) w) in
  procs w' = procs w ++ map (fun q => (q, g)) pids /\
  exists j evs,
    trace w' = trace w ++ evs /\
    List.filter is_jobs_add evs =
      (if pd_pgid pd =? 0 then [EJobsAdd (hd 0 pids) j] else []) /\
    (pd_pgid pd = 0 -> 0 <= j).
Proof.
  induction stages as [| c stages IH];
    intros last pids more pd w Hst Hlast Hfa Hlen Hf Hforks Hpos Hnd Hfresh.
  - destruct pids as [| p [| ? ?]]; simpl in Hlen; try lia.
    simpl app. cbn [hd].
    apply Forall_cons in Hpos as [Hp _].
    destruct (run_command_spawns expand get_builtin pd last w p more)
      as (H1 & _ & _ & (j & evs & H4 & H5 & H6) & _).
    + destruct Hlast as [-> | ->]; [now rewrite orb_true_r | now rewrite !orb_true_r].
    + intros Hfg. destruct Hfa as [Hfa | Hfa]; [congruence | apply Hfa].
    + exact Hf.
    + exact Hforks.
    + exact Hp.
    + apply Hfresh. apply elem_of_cons. now left.
    + cbv zeta. cbn [run_commands].
      rewrite world_of_bind_pure by (intros [? | ?] ?; reflexivity).
      split; [exact H1 |]. exists j, evs. auto.
  - destruct pids as [| p pids]; [simpl in Hlen; lia |].
    apply Forall_cons in Hst as [Hc Hst].
    apply Forall_cons in Hpos as [Hp Hpos].
    apply NoDup_cons in Hnd as [Hpn Hnd].
    simpl in Hlen. injection Hlen as Hlen.
    cbn [hd].
    destruct (run_command_spawns expand get_builtin pd c w p (pids ++ more))
      as (H1 & H2 & H3 & (j & evs & H4 & H5 & H6) & H7).
    + now rewrite Hc.
    + intros Hfg. apply is_ctrl_eq in Hc. apply is_ctrl_eq in Hfg. congruence.
    + exact Hf.
    + exact Hforks.
    + exact Hp.
    + apply Hfresh. apply elem_of_cons. now left.
    + destruct (H7 Hc) as (rd & j1 & Hr).
      set (g := if pd_pgid pd =? 0 then p else pd_pgid pd) in *.
      set (w1 := world_of (run_command expand get_builtin pd c w)) in *.
      assert (Hg : g <> 0) by (subst g; destruct (Z.eqb_spec (pd_pgid pd) 0); lia).
      destruct (IH last pids more (PipelineData rd g j1) w1 Hst Hlast Hfa Hlen H3 H2 Hpos Hnd)
        as (I1 & j2 & evs2 & I2 & I3 & _).
      { intros q Hq. rewrite H1, map_app. simpl.
        intros Hin. apply elem_of_app in Hin as [Hin | Hin].
        - apply (Hfresh q); [apply elem_of_cons; now right | exact Hin].
        - apply list_elem_of_singleton in Hin. subst q. contradiction. }
      cbn [pd_pgid] in I1, I3.
      assert (Hg0 : (g =? 0) = false) by now apply Z.eqb_neq.
      rewrite Hg0 in I1, I3.
      cbv zeta.
      change ((c :: stages) ++ [last]) with (c :: (stages ++ [last])).
      cbn [run_commands]. rewrite (bind_ok _ _ _ _ _ Hr). mred.
      split.
      * rewrite I1, H1. simpl. now rewrite <- app_assoc.
      * exists j, (evs ++ evs2). split; [| split].
        -- rewrite I2, H4. now rewrite <- app_assoc.
        -- rewrite List.filter_app, H5, I3. now rewrite app_nil_r.
        -- exact H6.
Qed.
End PipelineGroup.

Lemma never_filter f (evs : list event) :
  Forall (never f) evs -> List.filter f evs = [].
Proof.
  induction 1 as [| e evs He _ IH]; [reflexivity |].
  simpl. unfold never in He. now rewrite He.
Qed.

Lemma fg_wait_loop_group fuel pgrp j :
  keeps (emitting (never is_group_event)) (fg_wait_loop fuel pgrp j).
Proof.
  induction fuel as [| n IH]; simpl.
  - apply keeps_halt; typeclasses eauto.
  - unfold record_exit_status. repeat keeps_step.
Qed.
#[export] Hint Resolve fg_wait_loop_group : keeps.

Lemma wait_on_fg_pgid_group pgrp :
  keeps (emitting (never is_group_event)) (wait_on_fg_pgid pgrp).
Proof. unfold wait_on_fg_pgid, fg_handoff, fg_restore. repeat keeps_step. Qed.
#[export] Hint Resolve wait_on_fg_pgid_group : keeps.

Lemma parent_branch_group is_pl is_bg is_fg child u d pd :
  keeps (emitting (never is_group_event)) (parent_branch is_pl is_bg is_fg child u d pd).
Proof. unfold parent_branch, close_pipe_ends, when. repeat keeps_step. Qed.

Lemma setup_pipe_group is_pl : keeps (emitting (never is_group_event)) (setup_pipe is_pl).
Proof. unfold setup_pipe. repeat keeps_step. Qed.

Lemma spawn_events_group p g j :
  List.filter is_group_event (spawn_events p g j) = spawn_events p g j.
Proof. unfold spawn_events. now destruct (g =? 0). Qed.

Lemma spawn_events_joined p g j : g <> 0 ->
  spawn_events p g j = [EFork p; ESetpgid p g 0; ESetpgid p g 0].
Proof. intros H. unfold spawn_events. apply Z.eqb_neq in H. now rewrite H. Qed.

(** The events of a spawn when no call fails. *)
Lemma spawn_trace ib fg pd w p fs :
  should_fork ib fg = true ->
  faults w = [] -> forks w = p :: fs -> 0 < p -> p ∉ map fst (procs w) ->
  exists j w1 pd2,
    spawn ib fg pd w = Ok (Some (p, pd2)) w1 /\
    trace w1 = trace w ++ spawn_events p (pd_pgid pd) j /\
    (pd_pgid pd = 0 -> 0 <= j).
Proof.
  intros Hsf Hf Hforks Hp Hfresh.
  assert (Hp2 : (p <? 0) = false) by (apply Z.ltb_ge; lia).
  assert (Hp3 : (p =? 0) = false) by (apply Z.eqb_neq; lia).
  pose proof (fresh_jid_nonneg (jobs w)) as Hj.
  assert (Hj' : (Jobs.fresh_jid (jobs w) <? 0) = false) by (apply Z.ltb_ge; lia).
  destruct pd as [pf pg pj]. simpl in *.
  set (g := if pg =? 0 then p else pg).
  assert (E : spawn ib fg (PipelineData pf pg pj) w =
    (if negb (p =? 0) && (pg =? 0)
     then
       g0 <- sys_getpgid p ;;
       assert (p =? g0) ;;;
       j <- jobs_add p ;;
       if j <? 0 then ret None else ret (Some (p, PipelineData pf p j))
     else ret (Some (p, PipelineData pf pg pj)))
      (emit (ESetpgid p pg 0)
         (set_procs (procs w ++ [(p, g)])
            (emit (ESetpgid p pg 0)
               (set_procs (procs w ++ [(p, g)])
                  (emit (EFork p)
                     (set_procs (procs w ++ [(p, shell_pgrp w)]) (set_forks fs w)))))))).
  { unfold spawn. rewrite Hsf.
    rewrite (bind_ok _ _ _ _ _ (sys_fork_ok _ _ _ Hforks Hp)). mred.
    rewrite Hp2. mred.
    erewrite bind_ok; [| apply setpgid_race_ok; exact Hf]. mred.
    erewrite bind_ok; [| apply setpgid_race_ok; exact Hf]. mred.
    wred. rewrite !join_group_fresh by exact Hfresh. reflexivity. }
  rewrite E. clear E. rewrite Hp3. mred. unfold spawn_events.
  subst g. destruct (Z.eqb_spec pg 0) as [H0 | H0]; mred.
  - unfold sys_getpgid. rewrite bind_get. rewrite Hp3. wred.
    rewrite find_fresh by exact Hfresh. mred.
    rewrite Z.eqb_refl. cbn [assert]. rewrite bind_ret.
    erewrite bind_ok; [| apply jobs_add_ok; exact Hf]. mred.
    wred. rewrite Hj'.
    eexists _, _, _. split; [reflexivity |]. wred.
    split; [rewrite <- !app_assoc; reflexivity | intros _; exact Hj].
  - exists pj. eexists _, _. split; [reflexivity |]. wred.
    split; [rewrite <- !app_assoc; reflexivity | intros; contradiction].
Qed.

Lemma jobs_add_among_group (l : list event) :
  List.filter is_jobs_add (List.filter is_group_event l) = List.filter is_jobs_add l.
Proof.
  induction l as [| e l IH]; [reflexivity |].
  destruct e; simpl; rewrite ?IH; reflexivity.
Qed.

Section PipelineOrder.
Variable expand : World -> string -> string.
Variable get_builtin : command -> option builtin_fn.

Lemma run_command_group pd cmd w p fs :
  is_ctrl "|" cmd || is_ctrl "&" cmd || is_ctrl ";" cmd = true ->
  (is_ctrl ";" cmd = true -> get_builtin (expanded expand w cmd) = None) ->
  faults w = [] -> forks w = p :: fs -> 0 < p -> p ∉ map fst (procs w) ->
  exists j pre post,
    trace (world_of (run_command expand get_builtin pd cmd w)) =
      trace w ++ pre ++ spawn_events p (pd_pgid pd) j ++ post /\
    List.filter is_group_event pre = [] /\
    List.filter is_group_event post = [] /\
    (pd_pgid pd = 0 -> 0 <= j).
Proof.
  intros Hctrl Hext Hf Hforks Hp Hfresh.
  unfold run_command, expand_command_words. rewrite bind_get.
  change (is_ctrl "|" (expanded expand w cmd)) with (is_ctrl "|" cmd).
  change (is_ctrl "&" (expanded expand w cmd)) with (is_ctrl "&" cmd).
  change (is_ctrl ";" (expanded expand w cmd)) with (is_ctrl ";" cmd).
  rewrite Hctrl. cbn [assert]. rewrite bind_ret.
  destruct (setup_pipe_ok (is_ctrl "|" cmd) w Hf)
    as ([rd wr] & w0 & Hs & (Hprocs0 & Hforks0 & Hfaults0 & _) & _).
  destruct (keeps_ok _ _ _ _ _ (setup_pipe_group _) Hs) as (pre & Tpre & Fpre).
  rewrite (bind_ok _ _ _ _ _ Hs). mred.
  assert (Hsf : should_fork (is_some (get_builtin (expanded expand w cmd)))
                  (is_ctrl ";" cmd) = true).
  { unfold should_fork. destruct (is_ctrl ";" cmd) eqn:E.
    - now rewrite (Hext eq_refl).
    - now rewrite orb_true_r. }
  destruct (spawn_trace _ _ (PipelineData rd (pd_pgid pd) (pd_jid pd)) w0 p fs Hsf)
    as (j & w1 & pd2 & Hsp & T1 & Hj);
    [ now apply Hfaults0 | congruence | exact Hp | now rewrite Hprocs0 |].
  cbn [pd_pgid] in *.
  rewrite (bind_ok _ _ _ _ _ Hsp). mred.
  assert (Hp3 : (p =? 0) = false) by (apply Z.eqb_neq; lia).
  rewrite Hp3.
  match goal with
  | |- context [world_of (parent_branch ?a ?b ?c ?d ?e ?f ?h w1)] =>
      destruct (parent_branch_group a b c d e f h w1) as (post & Tpost & Fpost)
  end.
  exists j, pre, post. split; [| split; [| split]].
  - rewrite Tpost, T1, Tpre. now rewrite <- !app_assoc.
  - now apply never_filter.
  - now apply never_filter.
  - exact Hj.
Qed.

Lemma pipeline_group : forall stages last pids more pd w,
  Forall (fun c => is_ctrl "|" c = true) stages ->
  is_ctrl "&" last = true \/ is_ctrl ";" last = true ->
  forks_always expand get_builtin last ->
  List.length pids = S (List.length stages) ->
  faults w = [] ->
  forks w = pids ++ more ->
  Forall (fun p => 0 < p) pids ->
  NoDup pids ->
  (forall p, p ∈ pids -> p ∉ map fst (procs w)) ->
  let g := if pd_pgid pd =? 0 then hd 0 pids else pd_pgid pd in
  let w' := world_of (run_commands expand get_builtin pd (stages ++ [last]) w) in
  exists j pre post,
    trace w' = trace w ++ pre ++ spawn_events (hd 0 pids) (pd_pgid pd) j ++ post /\
    List.filter is_group_event pre = [] /\
    List.filter is_group_event post = flat_map (fun q => spawn_events q g 0) (tl pids) /\
    (pd_pgid pd = 0 -> 0 <= j).
Proof.
  induction stages as [| c stages IH];
    intros last pids more pd w Hst Hlast Hfa Hlen Hf Hforks Hpos Hnd Hfresh.
  - destruct pids as [| p [| ? ?]]; simpl in Hlen; try lia.
    simpl app. cbn [hd tl flat_map].
    apply Forall_cons in Hpos as [Hp _].
    destruct (run_command_group pd last w p more)
      as (j & pre & post & T & Fpre & Fpost & Hj).
    + destruct Hlast as [-> | ->]; [now rewrite orb_true_r | now rewrite !orb_true_r].
    + intros Hfg. destruct Hfa as [Hfa | Hfa]; [congruence | apply Hfa].
    + exact Hf.
    + exact Hforks.
    + exact Hp.
    + apply Hfresh. apply elem_of_cons. now left.
    + cbv zeta. cbn [run_commands].
      rewrite world_of_bind_pure by (intros [? | ?] ?; reflexivity).
      exists j, pre, post. auto.
  - destruct pids as [| p pids]; [simpl in Hlen; lia |].
    apply Forall_cons in Hst as [Hc Hst].
    apply Forall_cons in Hpos as [Hp Hpos].
    apply NoDup_cons in Hnd as [Hpn Hnd].
    simpl in Hlen. injection Hlen as Hlen.
    cbn [hd tl].
    assert (Hctrl : is_ctrl "|" c || is_ctrl "&" c || is_ctrl ";" c = true)
      by now rewrite Hc.
    assert (Hext : is_ctrl ";" c = true -> get_builtin (expanded expand w c) = None).
    { intros Hfg. apply is_ctrl_eq in Hc. apply is_ctrl_eq in Hfg. congruence. }
    assert (Hin : p ∉ map fst (procs w))
      by (apply Hfresh; apply elem_of_cons; now left).
    destruct (run_command_spawns expand get_builtin pd c w p (pids ++ more)
                Hctrl Hext Hf Hforks Hp Hin)
      as (H1 & H2 & H3 & _ & H7).
    destruct (run_command_group pd c w p (pids ++ more) Hctrl Hext Hf Hforks Hp Hin)
      as (j & pre & post & T & Fpre & Fpost & Hj).
    destruct (H7 Hc) as (rd & j1 & Hr).
    set (g := if pd_pgid pd =? 0 then p else pd_pgid pd) in *.
    set (w1 := world_of (run_command expand get_builtin pd c w)) in *.
    assert (Hg : g <> 0) by (subst g; destruct (Z.eqb_spec (pd_pgid pd) 0); lia).
    destruct (IH last pids more (PipelineData rd g j1) w1 Hst Hlast Hfa Hlen H3 H2 Hpos Hnd)
      as (j2 & pre2 & post2 & T2 & Fpre2 & Fpost2 & _).
    { intros q Hq. rewrite H1, map_app. simpl.
      intros Hin'. apply elem_of_app in Hin' as [Hin' | Hin'].
      - apply (Hfresh q); [apply elem_of_cons; now right | exact Hin'].
      - apply list_elem_of_singleton in Hin'. subst q. contradiction. }
    cbn [pd_pgid] in T2, Fpost2.
    assert (Hg0 : (g =? 0) = false) by now apply Z.eqb_neq.
    rewrite Hg0 in Fpost2.
    cbv zeta.
    change ((c :: stages) ++ [last]) with (c :: (stages ++ [last])).
    cbn [run_commands]. rewrite (bind_ok _ _ _ _ _ Hr). mred.
    exists j, pre, (post ++ pre2 ++ spawn_events (hd 0 pids) g j2 ++ post2).
    split; [| split; [exact Fpre | split; [| exact Hj]]].
    + rewrite T2, T. now rewrite <- !app_assoc.
    + rewrite !List.filter_app, Fpost, Fpre2, Fpost2, spawn_events_group.
      destruct pids as [| q pids]; [simpl in Hlen; lia |].
      cbn [hd tl flat_map app]. now rewrite (spawn_events_joined q g j2 Hg),
        (spawn_events_joined q g 0 Hg).
Qed.
End PipelineOrder.

Section PipelineClaim.
Variable expand : World -> string -> string.
Variable get_builtin : command -> option builtin_fn.

(** C2, as amended.  Take a pipeline (stages ending in [|], then a last
    command ending in [&] or [;]) all of whose N commands are forked,
    that is whose last command is not a builtin ending in [;]; let it
    start with Pipeline State group id 0, let fork() hand out N fresh
    positive pids to the shell, and let no call fail.  Then, whether or
    not the shell returns from the foreground wait, the N children are
    exactly the members of one process group, whose id is the pid of the
    first child.  In the trace of the shell the first call of fork() is
    followed at once by its two calls of setpgid for that child and then
    by the registration of the child's group with the job table, which
    gives a job id that is not negative; before these four events there
    is no fork, setpgid or registration, and after them there are only,
    for each later child in turn, fork() and the two calls of setpgid that
    put it into the group of the first: the registration is the only
    one. *)
Theorem pipeline_one_group (stages : list command) (last : command)
    (pids more : list Z) (pd : pipeline_data) (w : World) :
  Forall (fun c => is_ctrl "|" c = true) stages ->
  is_ctrl "&" last = true \/ is_ctrl ";" last = true ->
  forks_always expand get_builtin last ->
  pd_pgid pd = 0 ->
  faults w = [] ->
  forks w = pids ++ more ->
  List.length pids = S (List.length stages) ->
  Forall (fun p => 0 < p) pids ->
  NoDup pids ->
  (forall p g, (p, g) ∈ procs w -> (p ∉ pids) /\ g <> hd 0 pids) ->
  let first := hd 0 pids in
  let w' := world_of (run_commands expand get_builtin pd (stages ++ [last]) w) in
  procs w' = procs w ++ map (fun q => (q, first)) pids /\
  members first (procs w') = pids /\
  exists j pre post, 0 <= j /\
    added w w' =
      pre ++ [EFork first; ESetpgid first 0 0; ESetpgid first 0 0; EJobsAdd first j]
          ++ post /\
    List.filter is_group_event pre = [] /\
    List.filter is_group_event post =
      flat_map (fun q => [EFork q; ESetpgid q first 0; ESetpgid q first 0]) (tl pids) /\
    List.filter is_jobs_add (added w w') = [EJobsAdd first j].
Proof.
  intros Hst Hlast Hfa Hpd Hf Hforks Hlen Hpos Hnd Hfresh first w'.
  assert (Hfresh' : forall p, p ∈ pids -> p ∉ map fst (procs w)).
  { intros p Hp Hin. apply list_elem_of_In, List.in_map_iff in Hin as ([q h] & E & Hin).
    simpl in E. subst q. apply list_elem_of_In in Hin.
    destruct (Hfresh p h Hin) as [Hq _]. now apply Hq. }
  destruct (pipeline_spawns expand get_builtin stages last pids more pd w
              Hst Hlast Hfa Hlen Hf Hforks Hpos Hnd Hfresh')
    as (Hprocs & _).
  destruct (pipeline_group expand get_builtin stages last pids more pd w
              Hst Hlast Hfa Hlen Hf Hforks Hpos Hnd Hfresh')
    as (j & pre & post & T & Fpre & Fpost & Hj).
  rewrite Hpd in Hprocs, T, Fpost. simpl in Hprocs, Fpost.
  fold first in Hprocs, T, Fpost. fold w' in Hprocs, T.
  assert (Hfirst : first <> 0).
  { subst first. destruct pids as [| p pids]; [simpl in Hlen; lia |].
    apply Forall_cons in Hpos as [Hp _]. simpl. lia. }
  assert (Hpost : List.filter is_group_event post =
    flat_map (fun q => [EFork q; ESetpgid q first 0; ESetpgid q first 0]) (tl pids)).
  { rewrite Fpost. clear -Hfirst. induction (tl pids) as [| q l IH]; [reflexivity |].
    simpl. rewrite IH. unfold spawn_events.
    apply Z.eqb_neq in Hfirst. now rewrite Hfirst. }
  split; [exact Hprocs |]. split.
  - rewrite Hprocs, members_app, members_same.
    rewrite members_none; [reflexivity |].
    intros p h Hin. now destruct (Hfresh p h Hin).
  - exists j, pre, post. split; [now apply Hj |].
    assert (Ha : added w w' =
      pre ++ [EFork first; ESetpgid first 0 0; ESetpgid first 0 0; EJobsAdd first j]
          ++ post) by (apply added_app; exact T).
    split; [exact Ha |]. split; [exact Fpre |]. split; [exact Hpost |].
    rewrite Ha, !List.filter_app.
    rewrite <- (jobs_add_among_group pre), Fpre.
    rewrite <- (jobs_add_among_group post), Hpost.
    simpl. clear. induction (tl pids) as [| q l IH]; [reflexivity |].
    simpl. exact IH.
Qed.
End PipelineClaim.

(** [ls | ls | ls &] with the children 100, 101 and 102. *)
Lemma pipeline_one_group_witness :
  let w := set_forks [100; 101; 102] Sample.w0 in
  let w' := world_of (Sample.run [Sample.ls "|"; Sample.ls "|"; Sample.ls "&"] w) in
  members 100 (procs w') = [100; 101; 102] /\
  exists j pre post, 0 <= j /\
    added w w' =
      pre ++ [EFork 100; ESetpgid 100 0 0; ESetpgid 100 0 0; EJobsAdd 100 j] ++ post /\
    List.filter is_group_event pre = [] /\
    List.filter is_group_event post =
      [EFork 101; ESetpgid 101 100 0; ESetpgid 101 100 0;
       EFork 102; ESetpgid 102 100 0; ESetpgid 102 100 0] /\
    List.filter is_jobs_add (added w w') = [EJobsAdd 100 j].
Proof.
  intros w w'.
  refine (proj2 (pipeline_one_group Sample.no_expand Sample.builtins
            [Sample.ls "|"; Sample.ls "|"] (Sample.ls "&") [100; 101; 102] []
            (PipelineData (-1) 0 (-1)) w _ _ _ _ _ _ _ _ _ _)).
  - repeat constructor.
  - left. reflexivity.
  - right. intros ?. reflexivity.
  - reflexivity.
  - reflexivity.
  - reflexivity.
  - reflexivity.
  - repeat constructor; lia.
  - apply (bool_decide_unpack _). vm_compute. exact I.
  - intros p g H. simpl in H. apply elem_of_nil in H. contradiction.
Defined.

(** C2 as stated fails.  In [ls | cd ;] the last stage is a builtin that
    ends in [;] and runs in-process: the pipeline has two stages and its
    group has one process. *)
Lemma pipeline_one_group_counterexample :
  ~ (forall (stages : list command) (last : command) (pids more : list Z)
            (pd : pipeline_data) (w : World),
       Forall (fun c => is_ctrl "|" c = true) stages ->
       is_ctrl "&" last = true \/ is_ctrl ";" last = true ->
       pd_pgid pd = 0 ->
       faults w = [] ->
       forks w = pids ++ more ->
       List.length pids = S (List.length stages) ->
       Forall (fun p => 0 < p) pids ->
       NoDup pids ->
       (forall p g, (p, g) ∈ procs w -> (p ∉ pids) /\ g <> hd 0 pids) ->
       let w' := world_of (run_commands Sample.no_expand Sample.builtins pd
                             (stages ++ [last]) w) in
       members (hd 0 pids) (procs w') = pids).
Proof.
  intros H.
  specialize (H [Sample.ls "|"] (Sample.cd ";") [100; 101] []
                (PipelineData (-1) 0 (-1)) (set_forks [100; 101] Sample.w0)).
  assert (E : members 100
                (procs (world_of (run_commands Sample.no_expand Sample.builtins
                   (PipelineData (-1) 0 (-1)) ([Sample.ls "|"] ++ [Sample.cd ";"])
                   (set_forks [100; 101] Sample.w0)))) = [100])
    by (vm_compute; reflexivity).
  cbv zeta in H. cbn [hd] in H. rewrite E in H.
  assert (F : [100] = [100; 101]); [| discriminate F].
  apply H.
  - repeat constructor.
  - right. reflexivity.
  - reflexivity.
  - reflexivity.
  - reflexivity.
  - reflexivity.
  - repeat constructor; lia.
  - apply (bool_decide_unpack _). vm_compute. exact I.
  - intros p g Hin. simpl in Hin. apply elem_of_nil in Hin. contradiction.
Qed.

(** The in-process builtin that ends a pipeline leaves by [continue],
    past the reset of the pipeline state: in [ls | cd ; ls ;] the second
    [ls] starts a pipeline of its own, yet it joins the group of the first
    and no job is registered for it. *)
Example stale_group_after_inprocess_builtin :
  let w := set_waits [WChanged 101 0; WError C.ECHILD]
             (set_forks [100; 101] Sample.w0) in
  let w' := world_of (Sample.run [Sample.ls "|"; Sample.cd ";"; Sample.ls ";"] w) in
  procs w' = [(100, 100); (101, 100)] /\
  List.filter is_jobs_add (added w w') = [EJobsAdd 100 0].
Proof. split; vm_compute; reflexivity. Qed.

(** ** Virtual redirections leave the standard descriptors alone *)



























(** ** At most one record for a pseudo-descriptor *)

Lemma find_rec_none_mapped n l : find_rec n l = None -> n ∉ mapped l.
Proof.
  unfold mapped. induction l as [| a l IH]; simpl; intros H.
  - apply not_elem_of_nil.
  - destruct (Z.eqb_spec (pseudofd a) n) as [E | E]; [discriminate |].
    destruct (0 <=? pseudofd a).
    + apply not_elem_of_cons. split; [congruence | now apply IH].
    + now apply IH.
Qed.

Lemma unmap_rec_mapped n l :
  (forall x, x ∈ mapped (unmap_rec n l) -> x ∈ mapped l) /\
  (NoDup (mapped l) -> NoDup (mapped (unmap_rec n l))).
Proof.
  unfold mapped. induction l as [| a l [IH1 IH2]]; simpl; [auto |].
  destruct (pseudofd a =? n); simpl.
  - split.
    + intros x Hx. destruct (0 <=? pseudofd a); [apply elem_of_cons; now right | exact Hx].
    + intros H. destruct (0 <=? pseudofd a); [now apply NoDup_cons in H as [_ H] | exact H].
  - destruct (0 <=? pseudofd a).
    + split.
      * intros x Hx. apply elem_of_cons in Hx as [-> | Hx];
          apply elem_of_cons; [now left | right; now apply IH1].
      * intros H. apply NoDup_cons in H as [Ha H].
        apply NoDup_cons. split; [| now apply IH2].
        intros Hin. apply Ha. now apply IH1.
    + split; assumption.
Qed.

(** What a turn of the loop can do to the list: nothing, unmap the
    record of the pseudo-descriptor, or add a record for a
    pseudo-descriptor that had none. *)
Lemma builtin_io_redirect_shape r l w l' w' :
  builtin_io_redirect r l w = Ok (Some l') w' ->
  l' = l \/ l' = unmap_rec (io_number r) l \/
  (exists fd, l' = BuiltinRedir (io_number r) fd :: l /\
              find_rec (io_number r) l = None).
Proof.
  unfold builtin_io_redirect, builtin_open_redirect, push_rec, move_fd.
  unfold_prims. intros H.
  repeat (case_inner H; simpl in H); inversion H; subst; clear H; eauto.
Qed.

Lemma builtin_io_redirect_one_record r l w l' w' :
  0 <= io_number r -> NoDup (mapped l) ->
  builtin_io_redirect r l w = Ok (Some l') w' -> NoDup (mapped l').
Proof.
  intros Hn Hnd H.
  apply builtin_io_redirect_shape in H as [-> | [-> | (fd & -> & Hf)]].
  - exact Hnd.
  - now apply unmap_rec_mapped.
  - unfold mapped in *. simpl.
    assert (E : (0 <=? io_number r) = true) by now apply Z.leb_le.
    rewrite E. apply NoDup_cons. split; [| exact Hnd].
    now apply find_rec_none_mapped.
Qed.

(** The invariant of the virtual redirection list: while the
    redirections of a builtin are applied, no pseudo-descriptor has two
    records. *)
Lemma builtin_io_redirects_one_record rs : forall status l w st l' w',
  Forall (fun r => 0 <= io_number r) rs -> NoDup (mapped l) ->
  builtin_io_redirects rs status l w = Ok (st, l') w' -> NoDup (mapped l').
Proof.
  induction rs as [| r rs IH]; intros status l w st l' w' Hrs Hnd H; simpl in H.
  - injection H as _ <- _. exact Hnd.
  - apply Forall_cons in Hrs as [Hr Hrs].
    unfold bind in H.
    destruct (builtin_io_redirect r l w) as [[l1 |] w1 | s w1] eqn:E; [| | discriminate].
    + eapply IH; [exact Hrs | | exact H].
      eapply builtin_io_redirect_one_record; eassumption.
    + eapply IH; [exact Hrs | exact Hnd | exact H].
Qed.

(** * Further properties of the code *)

(** ** signal.c: the dispositions of the shell *)

Lemma sys_sigaction_ok sig new w :
  faults w = [] ->
  sys_sigaction sig new w =
    Ok (0, disposition_of w sig)
       (emit (ESigaction sig 0)
          (match new with
           | Some d => set_sigdisp (<[sig:=d]> (sigdisp w)) w
           | None => w
           end)).
Proof.
  intros F. unfold sys_sigaction, bind, fault, get, modify, ret. rewrite F. reflexivity.
Qed.

Lemma signal_init_ok (w : World) :
  faults w = [] ->
  exists w',
    signal_init w = Ok 0 w' /\
    sigdisp w' = ignore_all init_signals (sigdisp w) /\
    old_sigtstp w' = disposition_of w C.SIGTSTP /\
    old_sigttou w' = disposition_of w C.SIGTTOU /\
    old_sigint w' = disposition_of w C.SIGINT /\
    faults w' = [] /\
    trace w' = trace w ++ map (fun s => ESigaction s 0) init_signals.
Proof.
  intros F. unfold signal_init.
  unfold bind at 1. rewrite sys_sigaction_ok by exact F.
  cbv beta iota. change (0 <? 0) with false. cbv iota.
  unfold bind at 1. unfold modify at 1.
  unfold bind at 1. rewrite sys_sigaction_ok by exact F.
  cbv beta iota. change (0 <? 0) with false. cbv iota.
  unfold bind at 1. unfold modify at 1.
  unfold bind at 1. rewrite sys_sigaction_ok by exact F.
  cbv beta iota. change (0 <? 0) with false. cbv iota.
  unfold bind, modify, ret.
  eexists. split; [reflexivity |]. wred.
  unfold disposition_of. wred.
  rewrite !lookup_insert_ne by (unfold C.SIGTSTP, C.SIGTTOU, C.SIGINT; lia).
  repeat split; try reflexivity; try exact F.
  now rewrite <- !app_assoc.
Qed.

Lemma signal_restore_ok (w : World) :
  faults w = [] ->
  exists w',
    signal_restore w = Ok 0 w' /\
    sigdisp w' = <[C.SIGINT:=old_sigint w]>
                   (<[C.SIGTTOU:=old_sigttou w]>
                      (<[C.SIGTSTP:=old_sigtstp w]> (sigdisp w))) /\
    trace w' = trace w ++ map (fun s => ESigaction s 0) init_signals.
Proof.
  intros F. unfold signal_restore.
  rewrite bind_get. unfold bind at 1. rewrite sys_sigaction_ok by exact F.
  cbv beta iota. change (0 <? 0) with false. cbv iota.
  rewrite bind_get. unfold bind at 1. rewrite sys_sigaction_ok by exact F.
  cbv beta iota. change (0 <? 0) with false. cbv iota.
  rewrite bind_get. unfold bind at 1. rewrite sys_sigaction_ok by exact F.
  cbv beta iota. change (0 <? 0) with false. cbv iota.
  unfold ret. eexists. split; [reflexivity |]. wred.
  split; [reflexivity |]. now rewrite <- !app_assoc.
Qed.

(** X1.  signal_init when the three calls of sigaction succeed: SIGTSTP,
    SIGTTOU and SIGINT are ignored from then on, the disposition that
    each of them had is saved for signal_restore, and no other signal is
    touched. *)
Theorem signal_init_ignores (w : World) :
  faults w = [] ->
  exists w',
    signal_init w = Ok 0 w' /\
    sigdisp w' = ignore_all init_signals (sigdisp w) /\
    old_sigtstp w' = disposition_of w C.SIGTSTP /\
    old_sigttou w' = disposition_of w C.SIGTTOU /\
    old_sigint w' = disposition_of w C.SIGINT /\
    (forall sig, sig ∉ init_signals -> disposition_of w' sig = disposition_of w sig) /\
    added w w' = map (fun s => ESigaction s 0) init_signals.
Proof.
  intros F.
  destruct (signal_init_ok w F) as (w' & E & S & O1 & O2 & O3 & _ & T).
  exists w'. repeat (split; [assumption |]). split.
  - intros sig Hsig. unfold disposition_of at 1. rewrite S.
    unfold ignore_all, init_signals in *. simpl.
    rewrite !not_elem_of_cons in Hsig. destruct Hsig as (N1 & N2 & N3 & _).
    now rewrite !lookup_insert_ne by congruence.
  - now apply added_app.
Qed.

Lemma signal_init_ignores_witness :
  exists w',
    signal_init Sample.w0 = Ok 0 w' /\
    sigdisp w' !! C.SIGINT = Some SIG_IGN /\
    old_sigint w' = SIG_DFL.
Proof.
  destruct (signal_init_ignores Sample.w0 eq_refl) as (w' & E & S & _ & _ & O3 & _).
  exists w'. split; [exact E |]. split; [| exact O3].
  rewrite S. reflexivity.
Defined.

(** X2.  signal_init, then signal_restore (as the child of an external
    command calls it before execvp), when no call fails: every signal has
    the disposition again that it had when the shell started. *)
Theorem signal_init_restore (w : World) :
  faults w = [] ->
  exists w1 w2,
    signal_init w = Ok 0 w1 /\ signal_restore w1 = Ok 0 w2 /\
    forall sig, disposition_of w2 sig = disposition_of w sig.
Proof.
  intros F.
  destruct (signal_init_ok w F) as (w1 & E1 & S1 & O1 & O2 & O3 & F1 & _).
  destruct (signal_restore_ok w1 F1) as (w2 & E2 & S2 & _).
  exists w1, w2. split; [exact E1 |]. split; [exact E2 |].
  intros sig. unfold disposition_of at 1. rewrite S2, S1, O1, O2, O3.
  unfold ignore_all, init_signals. simpl.
  destruct (decide (sig = C.SIGINT)) as [-> | N3].
  { now rewrite lookup_insert_eq. }
  rewrite lookup_insert_ne by congruence.
  destruct (decide (sig = C.SIGTTOU)) as [-> | N2].
  { now rewrite lookup_insert_eq. }
  rewrite lookup_insert_ne by congruence.
  destruct (decide (sig = C.SIGTSTP)) as [-> | N1].
  { now rewrite lookup_insert_eq. }
  rewrite lookup_insert_ne by congruence.
  unfold disposition_of.
  now rewrite !lookup_insert_ne by congruence.
Qed.

Lemma signal_init_restore_witness :
  let w := set_sigdisp (<[C.SIGINT:=Handler "trap"]> ∅) Sample.w0 in
  exists w1 w2,
    signal_init w = Ok 0 w1 /\ signal_restore w1 = Ok 0 w2 /\
    disposition_of w1 C.SIGINT = SIG_IGN /\
    disposition_of w2 C.SIGINT = Handler "trap".
Proof.
  intros w.
  destruct (signal_init_restore w eq_refl) as (w1 & w2 & E1 & E2 & H).
  exists w1, w2. split; [exact E1 |]. split; [exact E2 |]. split.
  - assert (E : signal_init w = Ok 0 w1) by exact E1.
    vm_compute in E. injection E as <-. reflexivity.
  - rewrite H. reflexivity.
Defined.

Lemma sys_sigaction_fails sig new w e fs :
  faults w = e :: fs -> e <> 0 ->
  sys_sigaction sig new w =
    Ok (-1, SIG_DFL) (emit (ESigaction sig (-1)) (set_errno e (set_faults fs w))).
Proof.
  intros F Ne. unfold sys_sigaction, bind, fault, get, modify, ret. rewrite F.
  destruct (Z.eqb_spec e 0); [contradiction | reflexivity].
Qed.

Lemma sys_sigaction_next sig new w fs :
  faults w = 0 :: fs ->
  sys_sigaction sig new w =
    Ok (0, disposition_of w sig)
       (emit (ESigaction sig 0)
          (match new with
           | Some d => set_sigdisp (<[sig:=d]> (sigdisp (set_faults fs w))) (set_faults fs w)
           | None => set_faults fs w
           end)).
Proof.
  intros F. unfold sys_sigaction, bind, fault, get, modify, ret. rewrite F.
  destruct new; reflexivity.
Qed.

(** X3.  The first call of sigaction that fails ends signal_init with
    -1 and that call's error: the signals before it (in the order
    SIGTSTP, SIGTTOU, SIGINT) stay ignored, the later ones are left as
    they were; nothing is rolled back. *)
Theorem signal_init_fails (w : World) (k : nat) (e : Z) (fs : list Z) :
  (k < 3)%nat -> e <> 0 ->
  faults w = repeat 0 k ++ e :: fs ->
  exists w',
    signal_init w = Ok (-1) w' /\
    errno w' = e /\
    sigdisp w' = ignore_all (take k init_signals) (sigdisp w) /\
    faults w' = fs.
Proof.
  intros Hk Ne F.
  destruct k as [| [| [| k]]]; [| | | lia]; simpl in F; unfold signal_init.
  - unfold bind at 1. rewrite (sys_sigaction_fails _ _ _ _ _ F Ne).
    cbv beta iota. change (-1 <? 0) with true. cbv iota.
    eexists. split; [reflexivity |]. wred. auto.
  - unfold bind at 1. rewrite (sys_sigaction_next _ _ _ _ F).
    cbv beta iota. change (0 <? 0) with false. cbv iota.
    unfold bind at 1. unfold modify at 1.
    unfold bind at 1. erewrite sys_sigaction_fails; [| wred; reflexivity | exact Ne].
    cbv beta iota. change (-1 <? 0) with true. cbv iota.
    eexists. split; [reflexivity |]. wred. auto.
  - unfold bind at 1. rewrite (sys_sigaction_next _ _ _ _ F).
    cbv beta iota. change (0 <? 0) with false. cbv iota.
    unfold bind at 1. unfold modify at 1.
    unfold bind at 1. erewrite sys_sigaction_next; [| wred; reflexivity].
    cbv beta iota. change (0 <? 0) with false. cbv iota.
    unfold bind at 1. unfold modify at 1.
    unfold bind at 1. erewrite sys_sigaction_fails; [| wred; reflexivity | exact Ne].
    cbv beta iota. change (-1 <? 0) with true. cbv iota.
    eexists. split; [reflexivity |]. wred. auto.
Qed.

Lemma signal_init_fails_witness :
  exists w',
    signal_init (set_faults [0; C.EINVAL] Sample.w0) = Ok (-1) w' /\
    sigdisp w' = <[C.SIGTSTP:=SIG_IGN]> ∅.
Proof.
  destruct (signal_init_fails (set_faults [0; C.EINVAL] Sample.w0) 1 C.EINVAL [])
    as (w' & E & _ & S & _); [lia | discriminate | reflexivity |].
  exists w'. split; [exact E | exact S].
Defined.

(** X4.  signal_ignore and signal_enable_interrupt make one call of
    sigaction for the signal and save nothing for signal_restore.  When
    the call succeeds they return 0, the signal has the new disposition
    and errno is as it was; when it fails they return -1 with errno
    EINVAL, whatever the error of the call was, and no disposition has
    changed. *)
Theorem signal_set_one (sig : Z) (w : World) :
  let e := hd 0 (faults w) in
  let rv := if e =? 0 then 0 else -1 in
  (exists w',
     signal_ignore sig w = Ok rv w' /\
     added w w' = [ESigaction sig rv] /\
     saved_sigs w' = saved_sigs w /\
     sigdisp w' = (if e =? 0 then <[sig:=SIG_IGN]> (sigdisp w) else sigdisp w) /\
     errno w' = (if e =? 0 then errno w else C.EINVAL)) /\
  (exists w',
     signal_enable_interrupt sig w = Ok rv w' /\
     added w w' = [ESigaction sig rv] /\
     saved_sigs w' = saved_sigs w /\
     sigdisp w' = (if e =? 0 then <[sig:=interrupt_action]> (sigdisp w) else sigdisp w) /\
     errno w' = (if e =? 0 then errno w else C.EINVAL)).
Proof.
  cbv zeta. split.
  - unfold signal_ignore, sys_sigaction, bind, fault, get, modify, ret.
    destruct (faults w) as [| e fs]; simpl;
      [| destruct (Z.eqb_spec e 0); simpl ];
      (eexists; split; [reflexivity |]); wred;
      (split; [apply added_app; reflexivity |]); auto.
  - unfold signal_enable_interrupt, sys_sigaction, bind, fault, get, modify, ret.
    destruct (faults w) as [| e fs]; simpl;
      [| destruct (Z.eqb_spec e 0); simpl ];
      (eexists; split; [reflexivity |]); wred;
      (split; [apply added_app; reflexivity |]); auto.
Qed.

(** SIGINT ignored in a fresh shell; the same call failing with EPERM. *)
Lemma signal_set_one_witness :
  (exists w', signal_ignore C.SIGINT Sample.w0 = Ok 0 w' /\
              sigdisp w' = <[C.SIGINT:=SIG_IGN]> ∅) /\
  (exists w', signal_ignore C.SIGINT (set_faults [C.EPERM] Sample.w0) = Ok (-1) w' /\
              errno w' = C.EINVAL /\ sigdisp w' = ∅).
Proof.
  split.
  - destruct (signal_set_one C.SIGINT Sample.w0) as [(w' & E & _ & _ & S & _) _].
    exists w'. split; [exact E | exact S].
  - destruct (signal_set_one C.SIGINT (set_faults [C.EPERM] Sample.w0))
      as [(w' & E & _ & _ & S & N) _].
    exists w'. split; [exact E |]. split; [exact N | exact S].
Defined.

(** ** runner.c: move_fd and the redirections of an external command *)

Lemma move_fd_same (fd : Z) (w : World) : move_fd fd fd w = Ok fd w.
Proof. unfold move_fd. now rewrite Z.eqb_refl. Qed.

Lemma move_fd_onto (src dst : Z) (f : ofd) (w : World) :
  src <> dst -> fds w !! src = Some f -> 0 <= dst -> hd 0 (faults w) = 0 ->
  exists w', move_fd src dst w = Ok dst w' /\
             fds w' = delete src (<[dst:=f]> (fds w)) /\
             faults w' = tl (faults w) /\
             trace w' = trace w ++ [EDup2 src dst dst; EClose src 0].
Proof.
  intros Hne Hs Hd Hf. unfold move_fd.
  destruct (Z.eqb_spec src dst) as [| _]; [contradiction |].
  destruct (sys_dup2_cases src dst w) as (rv & w1 & E & T & Hc).
  rewrite (bind_ok _ _ _ _ _ E).
  destruct Hc as [(-> & _ & _ & F1 & _ & f' & Hs' & Hfds)
                 | (-> & _ & [([Hn | Hn] & _) | (_ & _ & Hf' & _)])];
    [| congruence | lia | contradiction].
  rewrite Hs in Hs'. injection Hs' as <-.
  destruct (Z.ltb_spec dst 0); [lia |].
  unfold sys_close, bind. rewrite Hfds.
  rewrite lookup_insert_ne by congruence. rewrite Hs.
  change (0 <? 0) with false. cbv iota.
  eexists. split; [reflexivity |]. wred.
  rewrite T. rewrite <- app_assoc. auto.
Qed.

(** move_fd when its call of dup2 fails: -1, the source is not closed. *)
Lemma move_fd_fails (src dst : Z) (w : World) :
  src <> dst ->
  fds w !! src = None \/ dst < 0 \/ hd 0 (faults w) <> 0 ->
  exists w', move_fd src dst w = Ok (-1) w' /\ fds w' = fds w /\
             trace w' = trace w ++ [EDup2 src dst (-1)] /\
             errno w' = (if (0 <=? dst) && is_some (fds w !! src)
                         then hd 0 (faults w) else C.EBADF).
Proof.
  intros Hne Hbad. unfold move_fd.
  destruct (Z.eqb_spec src dst) as [| _]; [contradiction |].
  destruct (sys_dup2_cases src dst w) as (rv & w1 & E & T & Hc).
  rewrite (bind_ok _ _ _ _ _ E).
  destruct Hc as [(-> & Hd & Hf & _ & _ & f' & Hs' & _)
                 | (-> & Hfds & [(Hn & He & _) | ([f Hs] & Hd & _ & He & _)])].
  - destruct Hbad as [Hn | [Hn | Hn]]; [congruence | lia | contradiction].
  - change (-1 <? 0) with true. cbv iota.
    exists w1. split; [reflexivity |]. split; [exact Hfds |]. split; [exact T |].
    rewrite He. destruct Hn as [Hn | Hn].
    + rewrite Hn. now rewrite andb_false_r.
    + destruct (Z.leb_spec 0 dst); [lia | reflexivity].
  - change (-1 <? 0) with true. cbv iota.
    exists w1. split; [reflexivity |]. split; [exact Hfds |]. split; [exact T |].
    rewrite He, Hs. destruct (Z.leb_spec 0 dst); [reflexivity | lia].
Qed.

(** X5.  move_fd(src, dst): nothing at all when the two are the same
    number (open or not).  Otherwise it calls dup2(src, dst): when that
    call succeeds [dst] takes over the file of [src] and [src] is closed;
    when it fails (because [src] is not open or [dst] is negative, with
    EBADF, or with the error that the system gives, as for a [dst] beyond
    the limit on descriptors) the result is -1, the table is left as it
    was, in particular [src] is not closed, and errno is that of
    dup2. *)
Theorem move_fd_moves (src dst : Z) (w : World) :
  (src = dst -> move_fd src dst w = Ok dst w) /\
  (src <> dst ->
   exists rv w',
     move_fd src dst w = Ok rv w' /\
     match fds w !! src with
     | Some f =>
         if (0 <=? dst) && (hd 0 (faults w) =? 0) then
           rv = dst /\ fds w' = delete src (<[dst:=f]> (fds w)) /\
           added w w' = [EDup2 src dst dst; EClose src 0]
         else
           rv = -1 /\ fds w' = fds w /\ added w w' = [EDup2 src dst (-1)] /\
           errno w' = (if 0 <=? dst then hd 0 (faults w) else C.EBADF)
     | None =>
         rv = -1 /\ fds w' = fds w /\ added w w' = [EDup2 src dst (-1)] /\
         errno w' = C.EBADF
     end).
Proof.
  split.
  - intros ->. apply move_fd_same.
  - intros Hne.
    destruct (fds w !! src) as [f |] eqn:Hs.
    + destruct (Z.leb_spec 0 dst) as [Hd | Hd]; cbn [andb].
      * destruct (Z.eqb_spec (hd 0 (faults w)) 0) as [Hf | Hf].
        -- destruct (move_fd_onto src dst f w Hne Hs Hd Hf) as (w' & E & T & _ & Tr).
           exists dst, w'. split; [exact E |]. split; [reflexivity |].
           split; [exact T | now apply added_app].
        -- destruct (move_fd_fails src dst w Hne) as (w' & E & T & Tr & Er); [auto |].
           exists (-1), w'. split; [exact E |]. split; [reflexivity |].
           split; [exact T |]. split; [now apply added_app |].
           rewrite Er, Hs. destruct (Z.leb_spec 0 dst); [reflexivity | lia].
      * destruct (move_fd_fails src dst w Hne) as (w' & E & T & Tr & Er); [auto |].
        exists (-1), w'. split; [exact E |]. split; [reflexivity |].
        split; [exact T |]. split; [now apply added_app |].
        rewrite Er. destruct (Z.leb_spec 0 dst); [lia | reflexivity].
    + destruct (move_fd_fails src dst w Hne) as (w' & E & T & Tr & Er); [auto |].
      exists (-1), w'. split; [exact E |]. split; [reflexivity |].
      split; [exact T |]. split; [now apply added_app |].
      rewrite Er, Hs. now rewrite andb_false_r.
Qed.

(** A pipe end moved onto the standard input; the same call when dup2
    fails, as the system makes it fail for a target beyond the limit on
    descriptors. *)
Lemma move_fd_moves_witness :
  let w := set_fds (<[3:=OPipeRead 0]> Sample.std_fds) Sample.w0 in
  (exists w', move_fd 3 0 w = Ok 0 w' /\ fds w' !! 0 = Some (OPipeRead 0) /\
              fds w' !! 3 = None) /\
  (exists w', move_fd 3 5000 (set_faults [C.EBADF] w) = Ok (-1) w' /\
              fds w' !! 3 = Some (OPipeRead 0) /\ errno w' = C.EBADF).
Proof.
  intros w. split.
  - destruct (move_fd_moves 3 0 w) as [_ H].
    destruct H as (rv & w' & E & H); [discriminate |].
    assert (Hs : fds w !! 3 = Some (OPipeRead 0)) by reflexivity.
    rewrite Hs in H. cbn in H. destruct H as (-> & T & _).
    exists w'. split; [exact E |]. rewrite T. split; reflexivity.
  - destruct (move_fd_moves 3 5000 (set_faults [C.EBADF] w)) as [_ H].
    destruct H as (rv & w' & E & H); [discriminate |].
    assert (Hs : fds (set_faults [C.EBADF] w) !! 3 = Some (OPipeRead 0)) by reflexivity.
    rewrite Hs in H. cbn in H. destruct H as (-> & T & _ & Er).
    exists w'. split; [exact E |]. rewrite T. split; [reflexivity | exact Er].
Defined.

Lemma sys_open_ok name flags mode w :
  hd 0 (faults w) = 0 ->
  exists n w',
    sys_open name flags mode w = Ok n w' /\ 0 <= n /\ fds w !! n = None /\
    fds w' = <[n:=OFile name flags]> (fds w) /\
    trace w' = trace w ++ [EOpen name flags mode n] /\
    faults w' = tl (faults w) /\
    fresh_fd (fds w) = Some n.
Proof.
  intros F. destruct (fresh_fd_some (fds w)) as (n & Hn & Hfree).
  assert (Hpos : 0 <= n).
  { unfold fresh_fd in Hn. apply List.find_some in Hn as [Hin _].
    apply List.in_map_iff in Hin as (k & <- & _). lia. }
  exists n.
  unfold sys_open, bind, fault.
  destruct (faults w) as [| e fs] eqn:E; simpl in F.
  - simpl. rewrite Hn. eexists. split; [reflexivity |]. wred. rewrite E.
    repeat split; auto.
  - subst e. simpl. wred. rewrite Hn. eexists. split; [reflexivity |]. wred.
    repeat split; auto.
Qed.

Lemma sys_open_fails name flags mode w :
  hd 0 (faults w) <> 0 ->
  sys_open name flags mode w =
    Ok (-1) (emit (EOpen name flags mode (-1))
               (set_errno (hd 0 (faults w)) (set_faults (tl (faults w)) w))).
Proof.
  intros F. unfold sys_open, bind, fault.
  destruct (faults w) as [| e fs]; simpl in *; [congruence |].
  destruct (Z.eqb_spec e 0); [contradiction | reflexivity].
Qed.

(** X6.  A redirection that opens a file, [n< f], [n> f], [n>> f],
    [n<> f] or [n>| f], on the external path, for [n] not negative.  When
    open() succeeds and gives [n] itself, or gives another descriptor and
    the dup2 of move_fd succeeds: descriptor [n] refers to the file and
    nothing else has changed in the table (the descriptor that open()
    returned is not left behind).  When open() succeeds and that dup2
    fails: the turn fails and the file stays open at the descriptor that
    open() returned.  When open() fails: the turn fails and the table is
    untouched. *)
Theorem open_redirect_installs (r : io_redir) (w : World) :
  is_dup_op (io_op r) = false ->
  let file := OFile (filename r) (get_io_flags (io_op r)) in
  (hd 0 (faults w) = 0 -> 0 <= io_number r ->
   exists k, fresh_fd (fds w) = Some k /\
     (k = io_number r \/ hd 0 (tl (faults w)) = 0 ->
      exists w', io_redirect r w = Ok 0 w' /\
        fds w' = <[io_number r:=file]> (fds w)) /\
     (k <> io_number r -> hd 0 (tl (faults w)) <> 0 ->
      exists w', io_redirect r w = Ok (-1) w' /\
        fds w' = <[k:=file]> (fds w) /\
        errno w' = hd 0 (tl (faults w)))) /\
  (hd 0 (faults w) <> 0 ->
   exists w', io_redirect r w = Ok (-1) w' /\ fds w' = fds w /\
     errno w' = hd 0 (faults w) /\
     added w w' = [EOpen (filename r) (get_io_flags (io_op r)) 511 (-1)]).
Proof.
  intros Hop file. unfold io_redirect. rewrite Hop. unfold open_redirect. split.
  - intros F Hn.
    destruct (sys_open_ok (filename r) (get_io_flags (io_op r)) 511 w F)
      as (k & w1 & E1 & Hk & Hfree & T1 & _ & F1 & Hfresh).
    exists k. split; [exact Hfresh |].
    rewrite (bind_ok _ _ _ _ _ E1).
    destruct (Z.ltb_spec k 0); [lia |].
    split.
    + intros Hok. destruct (Z.eq_dec k (io_number r)) as [Heq | Hneq].
      * assert (Hsame : move_fd k (io_number r) w1 = Ok (io_number r) w1)
          by (rewrite <- Heq; apply move_fd_same).
        rewrite (bind_ok _ _ _ _ _ Hsame).
        destruct (Z.ltb_spec (io_number r) 0); [lia |].
        eexists. split; [reflexivity |]. now rewrite T1, Heq.
      * destruct Hok as [Heq | Hok]; [contradiction |].
        destruct (move_fd_onto k (io_number r) file w1 Hneq) as (w2 & E2 & T2 & _);
          [rewrite T1; apply lookup_insert_eq | exact Hn | now rewrite F1 |].
        rewrite T1 in T2.
        rewrite (bind_ok _ _ _ _ _ E2).
        destruct (Z.ltb_spec (io_number r) 0); [lia |].
        eexists. split; [reflexivity |]. rewrite T2.
        rewrite delete_insert_ne by congruence.
        rewrite delete_insert_eq.
        now rewrite delete_id by exact Hfree.
    + intros Hneq Hbad.
      destruct (move_fd_fails k (io_number r) w1 Hneq) as (w2 & E2 & T2 & _ & Er);
        [right; right; now rewrite F1 |].
      rewrite (bind_ok _ _ _ _ _ E2).
      change (-1 <? 0) with true. cbv iota.
      eexists. split; [reflexivity |]. rewrite T2, T1. split; [reflexivity |].
      rewrite Er, T1, lookup_insert_eq, F1.
      destruct (Z.leb_spec 0 (io_number r)); [reflexivity | lia].
  - intros F. unfold bind at 1. rewrite sys_open_fails by exact F.
    change (-1 <? 0) with true. cbv iota.
    eexists. split; [reflexivity |]. wred.
    repeat split; try reflexivity.
    apply added_app. now wred.
Qed.

(** [1>>log] in a fresh shell; the same when the system refuses the
    dup2 of move_fd: the file stays open at descriptor 3. *)
Lemma open_redirect_installs_witness :
  (exists w',
     io_redirect (IoRedir 1 OP_DGREAT "log") Sample.w0 = Ok 0 w' /\
     fds w' = <[1:=OFile "log" (get_io_flags OP_DGREAT)]> Sample.std_fds) /\
  (exists w',
     io_redirect (IoRedir 5000 OP_DGREAT "log") (set_faults [0; C.EBADF] Sample.w0)
       = Ok (-1) w' /\
     fds w' = <[3:=OFile "log" (get_io_flags OP_DGREAT)]> Sample.std_fds).
Proof.
  split.
  - destruct (open_redirect_installs (IoRedir 1 OP_DGREAT "log") Sample.w0 eq_refl)
      as [H _].
    destruct (H eq_refl ltac:(simpl; lia)) as (k & _ & Hok & _).
    destruct Hok as (w' & E & T); [now right |].
    exists w'. split; [exact E | exact T].
  - destruct (open_redirect_installs (IoRedir 5000 OP_DGREAT "log")
                (set_faults [0; C.EBADF] Sample.w0) eq_refl) as [H _].
    destruct (H eq_refl ltac:(simpl; lia)) as (k & Hk & _ & Hbad).
    assert (E3 : k = 3) by (vm_compute in Hk; congruence). subst k.
    destruct Hbad as (w' & E & T & _); [discriminate | discriminate |].
    exists w'. split; [exact E | exact T].
Defined.

(** X7.  do_io_redirects applies the redirections of a command from
    left to right, and the first one that fails ends the sequence with
    -1: none of the later ones is applied. *)
Theorem io_redirects_in_order (a b : list io_redir) (w : World) :
  io_redirects (a ++ b) w =
    match io_redirects a w with
    | Ok st w1 => if st <? 0 then Ok (-1) w1 else io_redirects b w1
    | Stop s w1 => Stop s w1
    end.
Proof.
  revert w. induction a as [| r a IH]; intros w; simpl.
  - reflexivity.
  - unfold bind. destruct (io_redirect r w) as [st w1 | s w1]; [| reflexivity].
    destruct (st <? 0); [reflexivity | apply IH].
Qed.

Lemma convert_numeral (s : string) :
  s <> ""%string -> all_digits s = true ->
  Strtol.convert s = Some (numeral_value 0 s, ""%string).
Proof.
  intros Hne Hd.
  destruct s as [| c r]; [contradiction |].
  simpl in Hd. apply andb_prop in Hd as [Hc Hr].
  destruct (Strtol.digit c) as [d |] eqn:Ed; [| discriminate].
  destruct (digit_not_space_or_sign c d Ed) as (Hsp & Hm & Hp).
  unfold Strtol.convert. simpl Strtol.skip_space. rewrite Hsp.
  assert (Hsign :
    match String c r with
    | String "-"%char r0 => (true, r0)
    | String "+"%char r0 => (false, r0)
    | _ => (false, String c r)
    end = (false, String c r)).
  { destruct c as [[] [] [] [] [] [] [] []]; try reflexivity; congruence. }
  rewrite Hsign.
  assert (Hdig : Strtol.digits None (String c r) =
                 (Some (numeral_value 0 (String c r)), ""%string)).
  { simpl. rewrite Ed. simpl. now apply digits_numeral. }
  now rewrite Hdig.
Qed.

Lemma strtol_numeral (s : string) :
  s <> ""%string -> all_digits s = true ->
  Strtol.strtol s = (Strtol.clamp (numeral_value 0 s), ""%string).
Proof.
  intros Hne Hd. unfold Strtol.strtol. now rewrite (convert_numeral s Hne Hd).
Qed.

(** X8.  The operand of [n>&word] or [n<&word] on the external path
    when the word is an unsigned decimal numeral: up to INT_MAX it is a
    descriptor number and the redirection is dup2(value, n); above
    INT_MAX the word is taken as a file name and the file is opened, and
    beyond LONG_MAX, where strtol saturates, with ERANGE left in errno
    by strtol. *)
Theorem dup_operand_numeral (r : io_redir) (w : World) :
  is_dup_op (io_op r) = true ->
  filename r <> ""%string -> all_digits (filename r) = true ->
  let v := numeral_value 0 (filename r) in
  io_redirect r w =
    if v <=? C.INT_MAX
    then bind (sys_dup2 v (io_number r))
              (fun d => if d <? 0 then ret (-1) else ret 0) w
    else if v <=? C.LONG_MAX
         then open_redirect r w
         else open_redirect r (set_errno C.ERANGE w).
Proof.
  intros Hop Hne Hd v.
  pose proof (numeral_value_nonneg (filename r) 0 ltac:(lia)) as Hnn. fold v in Hnn.
  assert (Hdash : String.eqb (filename r) "-" = false).
  { destruct (String.eqb_spec (filename r) "-") as [E |]; [| reflexivity].
    rewrite E in Hd. discriminate. }
  unfold io_redirect. rewrite Hop, Hdash. rewrite bind_modify.
  assert (Her : strtol_errno (filename r) w =
                if v <=? C.LONG_MAX then w else set_errno C.ERANGE w).
  { unfold strtol_errno, Strtol.erange. rewrite (convert_numeral _ Hne Hd). fold v.
    unfold Strtol.clamp, C.LONG_MAX, C.LONG_MIN.
    destruct (Z.leb_spec v 9223372036854775807).
    - rewrite Z.min_r, Z.max_r by lia. now rewrite Z.eqb_refl.
    - rewrite Z.min_l, Z.max_r by lia.
      destruct (Z.eqb_spec 9223372036854775807 v); [lia | reflexivity]. }
  assert (Hfd : fd_operand (filename r) = if v <=? C.INT_MAX then Some v else None).
  { unfold fd_operand. rewrite (strtol_numeral _ Hne Hd). fold v.
    destruct (String.eqb_spec (filename r) ""); [contradiction |]. simpl.
    unfold Strtol.clamp, C.LONG_MAX, C.LONG_MIN, C.INT_MAX.
    destruct (Z.leb_spec v 2147483647).
    - rewrite Z.min_r, Z.max_r by lia.
      destruct (Z.leb_spec v 2147483647); [reflexivity | lia].
    - destruct (Z.leb_spec (Z.max (-9223372036854775808) (Z.min 9223372036854775807 v))
                  2147483647); [lia | reflexivity]. }
  rewrite Hfd, Her.
  destruct (Z.leb_spec v C.INT_MAX) as [Hi | Hi].
  - destruct (Z.leb_spec v C.LONG_MAX); [| unfold C.INT_MAX, C.LONG_MAX in *; lia].
    rewrite to_int_id by (unfold C.INT_MIN; lia). reflexivity.
  - destruct (Z.leb_spec v C.LONG_MAX); reflexivity.
Qed.

(** [1>&2147483648] opens a file of that name; so does
    [1>&9223372036854775808], with ERANGE in errno. *)
Lemma dup_operand_numeral_witness :
  io_redirect (IoRedir 1 OP_GREATAND "2147483648") Sample.w0 =
    open_redirect (IoRedir 1 OP_GREATAND "2147483648") Sample.w0 /\
  io_redirect (IoRedir 1 OP_GREATAND "9223372036854775808") Sample.w0 =
    open_redirect (IoRedir 1 OP_GREATAND "9223372036854775808")
      (set_errno C.ERANGE Sample.w0).
Proof.
  split.
  - exact (dup_operand_numeral (IoRedir 1 OP_GREATAND "2147483648") Sample.w0
             eq_refl ltac:(discriminate) eq_refl).
  - exact (dup_operand_numeral (IoRedir 1 OP_GREATAND "9223372036854775808") Sample.w0
             eq_refl ltac:(discriminate) eq_refl).
Defined.

(** ** runner.c: the assignments of a command *)

Lemma vars_set_ok n v w :
  faults w = [] ->
  vars_set n v w = Ok 0 (set_vars (<[n:=(v, exported (vars w) n)]> (vars w)) w).
Proof.
  intros F. unfold vars_set, bind, fault, modify, ret. rewrite F. reflexivity.
Qed.

Lemma vars_export_ok n w :
  faults w = [] ->
  vars_export n w =
    Ok 0 (set_vars (<[n:=(match vars w !! n with Some (v, _) => v | None => ""%string end,
                          true)]> (vars w)) w).
Proof.
  intros F. unfold vars_export, bind, fault, modify, ret. rewrite F. reflexivity.
Qed.

Lemma variable_assignments_ok x : forall l w,
  faults w = [] ->
  exists w',
    variable_assignments l x w = Ok 0 w' /\ faults w' = [] /\
    (forall n, n ∉ map a_name l -> vars w' !! n = vars w !! n) /\
    (forall pre a post, l = pre ++ a :: post ->
       Forall (fun b => a_name b <> a_name a) post ->
       vars w' !! a_name a = Some (a_value a, x || exported (vars w) (a_name a))).
Proof.
  induction l as [| a0 l IH]; intros w F.
  - exists w. simpl. split; [reflexivity |]. split; [exact F |].
    split; [reflexivity |]. intros [| ? ?] ? ? E; discriminate.
  - set (m1 := <[a_name a0:=(a_value a0, x || exported (vars w) (a_name a0))]> (vars w)).
    assert (Hstep : exists w1,
      variable_assignments (a0 :: l) x w = variable_assignments l x w1 /\
      faults w1 = [] /\ vars w1 = m1).
    { simpl. unfold bind at 1. rewrite vars_set_ok by exact F.
      change (negb (0 =? 0)) with false. cbv iota.
      destruct x.
      - unfold bind at 1. rewrite vars_export_ok by exact F. wred.
        change (negb (0 =? 0)) with false. cbv iota.
        eexists. split; [reflexivity |]. wred. split; [exact F |].
        rewrite lookup_insert_eq. unfold m1. simpl.
        now rewrite insert_insert_eq.
      - eexists. split; [reflexivity |]. wred. split; [exact F |]. reflexivity. }
    destruct Hstep as (w1 & E1 & F1 & V1).
    destruct (IH w1 F1) as (w' & E' & F' & Hout & Hin).
    exists w'. rewrite E1. split; [exact E' |]. split; [exact F' |]. split.
    + intros n Hn. simpl in Hn. apply not_elem_of_cons in Hn as [Hne Hn].
      rewrite (Hout n Hn), V1. unfold m1. now rewrite lookup_insert_ne by congruence.
    + intros pre a post El Hpost. destruct pre as [| b pre]; simpl in El.
      * injection El as Ea El. subst a0 l.
        rewrite Hout, V1; [unfold m1; now rewrite lookup_insert_eq |].
        intros Hm. apply list_elem_of_In, List.in_map_iff in Hm as (b & Eb & Hb).
        rewrite List.Forall_forall in Hpost. exact (Hpost b Hb Eb).
      * injection El as Eb El. subst a0.
        rewrite (Hin pre a post El Hpost). do 2 f_equal.
        rewrite V1. unfold exported, m1.
        destruct (decide (a_name b = a_name a)) as [En | Nn].
        -- rewrite En, lookup_insert_eq. fold (exported (vars w) (a_name a)).
           now destruct x, (exported (vars w) (a_name a)).
        -- now rewrite lookup_insert_ne by exact Nn.
Qed.

(** X9.  do_variable_assignment, when no call fails: every variable
    has the value of its last assignment; it is exported when
    [export_all] is set (external commands) and keeps its export mark
    otherwise (builtins); the other variables are left alone. *)
Theorem do_variable_assignment_sets (cmd : command) (export_all : bool) (w : World) :
  faults w = [] ->
  exists w',
    do_variable_assignment cmd export_all w = Ok 0 w' /\
    (forall pre a post, assignments cmd = pre ++ a :: post ->
       Forall (fun b => a_name b <> a_name a) post ->
       vars w' !! a_name a =
         Some (a_value a, export_all || exported (vars w) (a_name a))) /\
    (forall n, n ∉ map a_name (assignments cmd) -> vars w' !! n = vars w !! n).
Proof.
  intros F. unfold do_variable_assignment.
  destruct (variable_assignments_ok export_all (assignments cmd) w F)
    as (w' & E & _ & Hout & Hin).
  exists w'. auto.
Qed.

Lemma do_variable_assignment_sets_witness :
  exists w',
    do_variable_assignment
      (Command ["env"%string] [Assignment "A" "1"; Assignment "B" "2"; Assignment "A" "3"]
         [] ";") true Sample.w0 = Ok 0 w' /\
    vars w' !! "A"%string = Some ("3"%string, true) /\
    vars w' !! "B"%string = Some ("2"%string, true).
Proof.
  destruct (do_variable_assignment_sets
              (Command ["env"%string]
                 [Assignment "A" "1"; Assignment "B" "2"; Assignment "A" "3"] [] ";")
              true Sample.w0 eq_refl) as (w' & E & Hin & _).
  exists w'. split; [exact E |]. split.
  - apply (Hin [Assignment "A" "1"; Assignment "B" "2"] (Assignment "A" "3") []);
      [reflexivity | constructor].
  - apply (Hin [Assignment "A" "1"] (Assignment "B" "2") [Assignment "A" "3"]);
      [reflexivity |]. repeat constructor. discriminate.
Defined.

(** X10.  do_variable_assignment makes the assignments in order, and
    the first call of vars_set or vars_export that fails ends them with
    -1: the earlier ones stay, the later ones are not made. *)
Theorem variable_assignments_in_order (a b : list assignment) (x : bool) (w : World) :
  variable_assignments (a ++ b) x w =
    match variable_assignments a x w with
    | Ok st w1 => if st <? 0 then Ok (-1) w1 else variable_assignments b x w1
    | Stop s w1 => Stop s w1
    end.
Proof.
  revert w. induction a as [| c a IH]; intros w; simpl.
  - reflexivity.
  - unfold bind at 1 3.
    destruct (vars_set (a_name c) (a_value c) w) as [s w1 | s w1]; [| reflexivity].
    destruct (negb (s =? 0)); [reflexivity |].
    destruct x; [| apply IH].
    unfold bind.
    destruct (vars_export (a_name c) w1) as [e w2 | e w2]; [| reflexivity].
    destruct (negb (e =? 0)); [reflexivity | apply IH].
Qed.

(** ** runner.c: the child of an external command *)

Lemma move_fd_returns src dst w : exists rv w', move_fd src dst w = Ok rv w'.
Proof.
  unfold move_fd. unfold_prims. repeat (case_goal; simpl); eauto.
Qed.

Lemma io_redirect_returns r w : exists st w', io_redirect r w = Ok st w'.
Proof.
  unfold io_redirect, open_redirect, move_fd. unfold_prims.
  repeat (case_goal; simpl); eauto.
Qed.

Lemma io_redirects_returns rs : forall w, exists st w', io_redirects rs w = Ok st w'.
Proof.
  induction rs as [| r rs IH]; intros w; simpl; [eauto |].
  destruct (io_redirect_returns r w) as (st & w1 & E).
  rewrite (bind_ok _ _ _ _ _ E). destruct (st <? 0); [eauto | apply IH].
Qed.

Lemma move_fd_saved src dst : keeps (same saved_sigs) (move_fd src dst).
Proof. unfold move_fd. repeat keeps_step. Qed.

Lemma io_redirect_saved r : keeps (same saved_sigs) (io_redirect r).
Proof. unfold io_redirect, open_redirect, move_fd. repeat keeps_step. Qed.

#[export] Hint Resolve move_fd_saved io_redirect_saved : keeps.

Lemma io_redirects_saved rs : keeps (same saved_sigs) (io_redirects rs).
Proof. induction rs; simpl; repeat keeps_step. Qed.

Lemma variable_assignments_saved x l : keeps (same saved_sigs) (variable_assignments l x).
Proof. induction l; simpl; repeat keeps_step. Qed.

Lemma vars_set_cases n v w :
  exists s w', vars_set n v w = Ok s w' /\
    (s = 0 /\ vars w' = <[n:=(v, exported (vars w) n)]> (vars w) \/
     s = -1 /\ vars w' = vars w).
Proof.
  unfold vars_set, bind, fault, modify, ret.
  destruct (faults w) as [| e fs]; simpl.
  - eexists _, _. split; [reflexivity |]. left. auto.
  - destruct (e =? 0); simpl; eexists _, _; (split; [reflexivity |]); auto.
Qed.

Lemma vars_export_cases n w :
  exists s w', vars_export n w = Ok s w' /\
    (s = 0 /\ exported (vars w') n = true /\
       (forall k, k <> n -> vars w' !! k = vars w !! k) \/
     s = -1 /\ vars w' = vars w).
Proof.
  unfold vars_export, bind, fault, modify, ret.
  assert (H : forall (x : string * bool) m, exported (<[n:=(x.1, true)]> m) n = true).
  { intros x m. unfold exported. now rewrite lookup_insert_eq. }
  destruct (faults w) as [| e fs]; simpl.
  - eexists _, _. split; [reflexivity |]. left. wred.
    split; [reflexivity |]. split.
    + unfold exported. now rewrite lookup_insert_eq.
    + intros k Hk. now rewrite lookup_insert_ne by congruence.
  - destruct (e =? 0); simpl; eexists _, _; (split; [reflexivity |]); auto.
    left. wred. split; [reflexivity |]. split.
    + unfold exported. now rewrite lookup_insert_eq.
    + intros k Hk. now rewrite lookup_insert_ne by congruence.
Qed.

Lemma variable_assignments_exported : forall l w,
  exists st w', variable_assignments l true w = Ok st w' /\
    (forall n, exported (vars w) n = true -> exported (vars w') n = true) /\
    (st = 0 /\ (forall a, a ∈ l -> exported (vars w') (a_name a) = true) \/ st = -1).
Proof.
  induction l as [| a l IH]; intros w; simpl.
  - exists 0, w. split; [reflexivity |]. split; [auto |]. left. split; [reflexivity |].
    intros a Ha. inversion Ha.
  - destruct (vars_set_cases (a_name a) (a_value a) w) as (s & w1 & E1 & [[-> V1] | [-> V1]]).
    + rewrite (bind_ok _ _ _ _ _ E1). change (negb (0 =? 0)) with false. cbv iota.
      assert (K1 : forall n, exported (vars w) n = true -> exported (vars w1) n = true).
      { intros n Hn. rewrite V1. unfold exported in *.
        destruct (decide (n = a_name a)) as [-> | Hne].
        - rewrite lookup_insert_eq. exact Hn.
        - now rewrite lookup_insert_ne by congruence. }
      destruct (vars_export_cases (a_name a) w1) as (x & w2 & E2 & [(-> & X2 & O2) | [-> V2]]).
      * rewrite (bind_ok _ _ _ _ _ E2). change (negb (0 =? 0)) with false. cbv iota.
        assert (K2 : forall n, exported (vars w1) n = true -> exported (vars w2) n = true).
        { intros n Hn. destruct (decide (n = a_name a)) as [-> | Hne]; [exact X2 |].
          unfold exported in *. now rewrite O2 by exact Hne. }
        destruct (IH w2) as (st & w' & E' & K' & Hst).
        exists st, w'. split; [exact E' |]. split; [auto |].
        destruct Hst as [[-> Hall] | ->]; [left | now right].
        split; [reflexivity |]. intros b Hb.
        apply elem_of_cons in Hb as [-> | Hb]; [apply K', X2 | apply Hall, Hb].
      * rewrite (bind_ok _ _ _ _ _ E2). change (negb (-1 =? 0)) with true. cbv iota.
        exists (-1), w2. split; [reflexivity |]. split; [| now right].
        intros n Hn. rewrite V2. auto.
    + rewrite (bind_ok _ _ _ _ _ E1). change (negb (-1 =? 0)) with true. cbv iota.
      exists (-1), w1. split; [reflexivity |]. split; [| now right].
      intros n Hn. now rewrite V1.
Qed.

Lemma sys_sigaction_cases sig d w :
  exists x w', sys_sigaction sig (Some d) w = Ok x w' /\ vars w' = vars w /\
    saved_sigs w' = saved_sigs w /\
    (x.1 = 0 /\ sigdisp w' = <[sig:=d]> (sigdisp w) \/
     x.1 = -1 /\ sigdisp w' = sigdisp w).
Proof.
  unfold sys_sigaction, bind, fault, get, modify, ret.
  destruct (faults w) as [| e fs]; simpl.
  - eexists _, _. split; [reflexivity |]. wred. auto.
  - destruct (e =? 0); simpl; eexists _, _; (split; [reflexivity |]); wred; auto.
Qed.

Lemma signal_restore_cases w :
  exists r w', signal_restore w = Ok r w' /\ vars w' = vars w /\
    (r = 0 /\
     sigdisp w' = <[C.SIGINT:=old_sigint w]>
                    (<[C.SIGTTOU:=old_sigttou w]>
                       (<[C.SIGTSTP:=old_sigtstp w]> (sigdisp w))) \/
     r = -1).
Proof.
  unfold signal_restore. rewrite bind_get.
  destruct (sys_sigaction_cases C.SIGTSTP (old_sigtstp w) w)
    as ([r1 o1] & w1 & E1 & V1 & S1 & H1).
  rewrite (bind_ok _ _ _ _ _ E1). simpl in H1.
  destruct H1 as [[-> D1] | [-> D1]].
  2:{ exists (-1), w1. split; [reflexivity |]. auto. }
  change (0 <? 0) with false. cbv iota. rewrite bind_get.
  destruct (sys_sigaction_cases C.SIGTTOU (old_sigttou w1) w1)
    as ([r2 o2] & w2 & E2 & V2 & S2 & H2).
  rewrite (bind_ok _ _ _ _ _ E2). simpl in H2.
  destruct H2 as [[-> D2] | [-> D2]].
  2:{ exists (-1), w2. split; [reflexivity |]. split; [congruence | auto]. }
  change (0 <? 0) with false. cbv iota. rewrite bind_get.
  destruct (sys_sigaction_cases C.SIGINT (old_sigint w2) w2)
    as ([r3 o3] & w3 & E3 & V3 & S3 & H3).
  rewrite (bind_ok _ _ _ _ _ E3). simpl in H3.
  destruct H3 as [[-> D3] | [-> D3]].
  2:{ exists (-1), w3. split; [reflexivity |]. split; [congruence | auto]. }
  change (0 <? 0) with false. cbv iota.
  exists 0, w3. split; [reflexivity |]. split; [congruence |]. left.
  split; [reflexivity |].
  unfold saved_sigs in S1, S2. injection S1 as A1 B1 C1. injection S2 as A2 B2 C2.
  rewrite D3, D2, D1. congruence.
Qed.

Lemma sys_execvp_cases argv w :
  (exists w', sys_execvp argv w = Stop (Execed argv) w' /\
     vars w' = vars w /\ sigdisp w' = sigdisp w) \/
  (exists w', sys_execvp argv w = Ok (-1) w').
Proof.
  unfold sys_execvp, bind, fault, modify, ret, halt.
  destruct (faults w) as [| e fs]; simpl; [left; eauto |].
  destruct (e =? 0); simpl; [left | right]; eauto.
Qed.

(** What hooking one end of a pipe to a standard descriptor comes to. *)
Lemma hook_pipe_cases (fd std : Z) (w : World) :
  let m : M unit :=
    if fd >=? 0 then
      bind (move_fd fd std) (fun m => if m <? 0 then err 1 else ret tt)
    else ret tt in
  (exists w1, m w = Ok tt w1 /\ saved_sigs w1 = saved_sigs w) \/
  (exists w1, m w = Stop (Exited 1) w1).
Proof.
  cbv zeta. destruct (fd >=? 0).
  - destruct (move_fd_returns fd std w) as (rv & w1 & E).
    rewrite (bind_ok _ _ _ _ _ E).
    pose proof (keeps_ok _ _ _ _ _ (move_fd_saved fd std) E) as S.
    destruct (rv <? 0).
    + right. unfold err, stderr, bind, modify, halt. eauto.
    + left. exists w1. split; [reflexivity | exact S].
  - left. exists w. split; reflexivity.
Qed.

Lemma run_external_cases {A} (cmd : command) (up down : Z) (w : World) :
  exists w',
    (@run_external A cmd up down w = Stop (Execed (words cmd)) w' /\
     sigdisp w' !! C.SIGTSTP = Some (old_sigtstp w) /\
     sigdisp w' !! C.SIGTTOU = Some (old_sigttou w) /\
     sigdisp w' !! C.SIGINT = Some (old_sigint w) /\
     (forall a, a ∈ assignments cmd -> exported (vars w') (a_name a) = true)) \/
    @run_external A cmd up down w = Stop (Exited 1) w' \/
    @run_external A cmd up down w = Stop (Exited 127) w'.
Proof.
  unfold run_external.
  destruct (hook_pipe_cases up C.STDIN_FILENO w) as [(w1 & E1 & S1) | (w1 & E1)];
    cbv zeta in E1;
    [rewrite (bind_ok _ _ _ _ _ E1) | rewrite (bind_stop _ _ _ _ _ E1); eauto].
  destruct (hook_pipe_cases down C.STDOUT_FILENO w1) as [(w2 & E2 & S2) | (w2 & E2)];
    cbv zeta in E2;
    [rewrite (bind_ok _ _ _ _ _ E2) | rewrite (bind_stop _ _ _ _ _ E2); eauto].
  unfold do_io_redirects, do_variable_assignment.
  destruct (io_redirects_returns (io_redirs cmd) w2) as (r & w3 & E3).
  rewrite (bind_ok _ _ _ _ _ E3).
  pose proof (keeps_ok _ _ _ _ _ (io_redirects_saved _) E3) as S3.
  destruct (r <? 0).
  { unfold err, stderr, bind, modify, halt. eauto. }
  destruct (variable_assignments_exported (assignments cmd) w3)
    as (a & w4 & E4 & _ & Hst).
  rewrite (bind_ok _ _ _ _ _ E4).
  pose proof (keeps_ok _ _ _ _ _ (variable_assignments_saved _ _) E4) as S4.
  destruct Hst as [[-> Hexp] | ->].
  2:{ change (-1 <? 0) with true. cbv iota.
      unfold err, stderr, bind, modify, halt. eauto. }
  change (0 <? 0) with false. cbv iota.
  destruct (signal_restore_cases w4) as (s & w5 & E5 & V5 & Hs).
  rewrite (bind_ok _ _ _ _ _ E5).
  destruct Hs as [[-> D5] | ->].
  2:{ change (-1 <? 0) with true. cbv iota.
      unfold err, stderr, bind, modify, halt. eauto. }
  change (0 <? 0) with false. cbv iota.
  destruct (sys_execvp_cases (words cmd) w5) as [(w6 & E6 & V6 & D6) | (w6 & E6)].
  - rewrite (bind_stop _ _ _ _ _ E6). exists w6. left.
    split; [reflexivity |].
    assert (Es : saved_sigs w4 = saved_sigs w).
    { unfold same in *. congruence. }
    unfold saved_sigs in Es. injection Es as Ea Eb Ec.
    rewrite D6, D5, Ea, Eb, Ec.
    split; [| split; [| split]].
    + rewrite !lookup_insert_ne by discriminate. apply lookup_insert_eq.
    + rewrite lookup_insert_ne by discriminate. apply lookup_insert_eq.
    + apply lookup_insert_eq.
    + intros b Hb. rewrite V6, V5. now apply Hexp.
  - rewrite (bind_ok _ _ _ _ _ E6).
    unfold err, stderr, bind, modify, halt. eauto.
Qed.

(** *** The ways in which the child ends *)

Lemma io_redirect_no_exec r : keeps (emitting (never is_execvp)) (io_redirect r).
Proof. unfold io_redirect, open_redirect, move_fd. repeat keeps_step. Qed.

Lemma io_redirects_no_exec rs : keeps (emitting (never is_execvp)) (io_redirects rs).
Proof.
  induction rs; simpl; repeat keeps_step. apply io_redirect_no_exec.
Qed.

Lemma variable_assignments_no_exec x l :
  keeps (emitting (never is_execvp)) (variable_assignments l x).
Proof. induction l; simpl; repeat keeps_step. Qed.

Lemma signal_restore_no_exec : keeps (emitting (never is_execvp)) signal_restore.
Proof. unfold signal_restore. repeat keeps_step. Qed.

Lemma hook_pipe_trace (fd std : Z) (w : World) :
  let m : M unit :=
    if fd >=? 0 then
      bind (move_fd fd std) (fun m => if m <? 0 then err 1 else ret tt)
    else ret tt in
  exists w1, emitting (never is_execvp) w w1 /\
    (m w = Ok tt w1 \/ m w = Stop (Exited 1) (emit (EStderr "err" [1]) w1)).
Proof.
  cbv zeta. destruct (fd >=? 0).
  - destruct (move_fd_returns fd std w) as (rv & w1 & E).
    rewrite (bind_ok _ _ _ _ _ E).
    assert (K : keeps (emitting (never is_execvp)) (move_fd fd std))
      by (unfold move_fd; repeat keeps_step).
    exists w1. split; [exact (keeps_ok _ _ _ _ _ K E) |].
    destruct (rv <? 0); [right | left]; reflexivity.
  - exists w. split; [reflexivity | now left].
Qed.

Lemma sys_execvp_trace argv w :
  (exists w', sys_execvp argv w = Stop (Execed argv) w' /\ trace w' = trace w) \/
  (exists w', sys_execvp argv w = Ok (-1) w' /\
     trace w' = trace w ++ [EExecvp argv (-1)] /\ errno w' <> 0).
Proof.
  unfold sys_execvp, bind, fault, modify, ret, halt.
  destruct (faults w) as [| e fs]; simpl; [left; eauto |].
  destruct (Z.eqb_spec e 0); simpl; [left | right]; eauto.
Qed.

Section External.
Context {A : Type}.

(** X11.  The child that runs an external command never comes back
    into the loop over the commands, and the way it ends tells how far it
    got.  It becomes the program: execvp was called once, with the words
    of the command.  It exits with status 127: the set-up went through,
    execvp was called with the words of the command and failed (that
    call and the diagnostic of [err] are the last two events, and errno
    is the error of execvp).  It exits with status 1: a step of the
    set-up failed (the hook-up of a pipe, a redirection, an assignment or
    the restoration of the signals) and execvp was never called. *)
Theorem run_external_never_returns (cmd : command) (up down : Z) (w : World) :
  exists s w' pre,
    @run_external A cmd up down w = Stop s w' /\
    List.filter is_execvp pre = [] /\
    match s with
    | Execed argv => argv = words cmd /\ added w w' = pre
    | Exited code =>
        code = 127 /\ errno w' <> 0 /\
        added w w' = pre ++ [EExecvp (words cmd) (-1); EStderr "err" [127]] \/
        code = 1 /\ added w w' = pre ++ [EStderr "err" [1]]
    | _ => False
    end.
Proof.
  unfold run_external.
  assert (Fail1 : forall w1 : World, emitting (never is_execvp) w w1 ->
    exists s w' pre,
      @Stop A (Exited 1) (emit (EStderr "err" [1]) w1) = Stop s w' /\
      List.filter is_execvp pre = [] /\
      match s with
      | Execed argv => argv = words cmd /\ added w w' = pre
      | Exited code =>
          code = 127 /\ errno w' <> 0 /\
          added w w' = pre ++ [EExecvp (words cmd) (-1); EStderr "err" [127]] \/
          code = 1 /\ added w w' = pre ++ [EStderr "err" [1]]
      | _ => False
      end).
  { intros w1 (pre & T & N). exists (Exited 1), (emit (EStderr "err" [1]) w1), pre.
    split; [reflexivity |]. split; [now apply never_filter |].
    right. split; [reflexivity |]. apply added_app. wred. rewrite T.
    now rewrite <- app_assoc. }
  destruct (hook_pipe_trace up C.STDIN_FILENO w) as (w1 & K1 & [E1 | E1]);
    cbv zeta in E1;
    [rewrite (bind_ok _ _ _ _ _ E1) | rewrite (bind_stop _ _ _ _ _ E1); now apply Fail1].
  destruct (hook_pipe_trace down C.STDOUT_FILENO w1) as (w2 & K2 & [E2 | E2]);
    cbv zeta in E2;
    [ rewrite (bind_ok _ _ _ _ _ E2)
    | rewrite (bind_stop _ _ _ _ _ E2); apply Fail1; now transitivity w1 ].
  assert (K02 : emitting (never is_execvp) w w2) by now transitivity w1.
  unfold do_io_redirects, do_variable_assignment.
  destruct (io_redirects_returns (io_redirs cmd) w2) as (r & w3 & E3).
  rewrite (bind_ok _ _ _ _ _ E3).
  assert (K03 : emitting (never is_execvp) w w3).
  { transitivity w2; [exact K02 |]. exact (keeps_ok _ _ _ _ _ (io_redirects_no_exec _) E3). }
  destruct (r <? 0); [now apply Fail1 |].
  destruct (variable_assignments_exported (assignments cmd) w3) as (a & w4 & E4 & _ & Hst).
  rewrite (bind_ok _ _ _ _ _ E4).
  assert (K04 : emitting (never is_execvp) w w4).
  { transitivity w3; [exact K03 |].
    exact (keeps_ok _ _ _ _ _ (variable_assignments_no_exec _ _) E4). }
  destruct Hst as [[-> _] | ->]; [| now apply Fail1].
  change (0 <? 0) with false. cbv iota.
  destruct (signal_restore_cases w4) as (s & w5 & E5 & _ & Hs).
  rewrite (bind_ok _ _ _ _ _ E5).
  assert (K05 : emitting (never is_execvp) w w5).
  { transitivity w4; [exact K04 |].
    exact (keeps_ok _ _ _ _ _ signal_restore_no_exec E5). }
  destruct Hs as [[-> _] | ->]; [| now apply Fail1].
  change (0 <? 0) with false. cbv iota.
  destruct K05 as (pre & T5 & N5).
  destruct (sys_execvp_trace (words cmd) w5) as [(w6 & E6 & T6) | (w6 & E6 & T6 & Er)].
  - rewrite (bind_stop _ _ _ _ _ E6). exists (Execed (words cmd)), w6, pre.
    split; [reflexivity |]. split; [now apply never_filter |].
    split; [reflexivity |]. apply added_app. now rewrite T6.
  - rewrite (bind_ok _ _ _ _ _ E6).
    exists (Exited 127), (emit (EStderr "err" [127]) w6), pre.
    split; [reflexivity |]. split; [now apply never_filter |].
    left. split; [reflexivity |]. split; [exact Er |].
    apply added_app. wred. rewrite T6, T5. now rewrite <- !app_assoc.
Qed.

(** X12.  Whenever the child reaches the program, the signals that the shell
    ignores have the dispositions saved by signal_init again, and every
    variable assigned on the command line is exported. *)
Theorem run_external_at_exec (cmd : command) (up down : Z) (w w' : World)
    (argv : list string) :
  @run_external A cmd up down w = Stop (Execed argv) w' ->
  argv = words cmd /\
  sigdisp w' !! C.SIGTSTP = Some (old_sigtstp w) /\
  sigdisp w' !! C.SIGTTOU = Some (old_sigttou w) /\
  sigdisp w' !! C.SIGINT = Some (old_sigint w) /\
  (forall a, a ∈ assignments cmd -> exported (vars w') (a_name a) = true).
Proof.
  intros H.
  destruct (@run_external_cases A cmd up down w) as (w1 & [(E & F) | [E | E]]);
    rewrite E in H; [| discriminate | discriminate].
  injection H as <- <-. split; [reflexivity | exact F].
Qed.

End External.

Lemma run_external_at_exec_witness :
  exists w',
    @run_external unit (Command ["ls"%string] [Assignment "LANG" "C"] [] ";") (-1) (-1)
      (set_old_sigs SIG_DFL SIG_IGN SIG_DFL Sample.w0) = Stop (Execed ["ls"%string]) w' /\
    sigdisp w' !! C.SIGINT = Some SIG_IGN /\
    exported (vars w') "LANG" = true.
Proof.
  eexists. split; [vm_compute; reflexivity |].
  match goal with
  | |- context [sigdisp ?w] =>
      destruct (@run_external_at_exec unit
                  (Command ["ls"%string] [Assignment "LANG" "C"] [] ";") (-1) (-1)
                  (set_old_sigs SIG_DFL SIG_IGN SIG_DFL Sample.w0) w ["ls"%string])
        as (_ & _ & _ & Hi & Hx)
  end.
  - vm_compute. reflexivity.
  - split; [exact Hi |]. apply (Hx (Assignment "LANG" "C")). apply elem_of_cons; now left.
Defined.

(** [ls ;] when execvp fails with ENOENT: exit 127; [ls <missing ;]
    when the file cannot be opened: exit 1, and execvp is not called. *)
Lemma run_external_never_returns_witness :
  (exists w',
     @run_external unit (Command ["ls"%string] [] [] ";") (-1) (-1)
       (set_faults [0; 0; 0; C.ENOENT] Sample.w0) = Stop (Exited 127) w' /\
     errno w' <> 0) /\
  (exists w',
     @run_external unit
       (Command ["ls"%string] [] [IoRedir 0 OP_LESS "missing"] ";") (-1) (-1)
       (set_faults [C.ENOENT] Sample.w0) = Stop (Exited 1) w').
Proof.
  split.
  - destruct (@run_external_never_returns unit (Command ["ls"%string] [] [] ";")
                (-1) (-1) (set_faults [0; 0; 0; C.ENOENT] Sample.w0))
      as (s & w' & pre & E & _ & H).
    assert (Hs : s = Exited 127).
    { vm_compute in E. now injection E as <- _. }
    subst s. exists w'. split; [exact E |].
    destruct H as [(_ & Er & _) | (C1 & _)]; [exact Er | discriminate C1].
  - destruct (@run_external_never_returns unit
                (Command ["ls"%string] [] [IoRedir 0 OP_LESS "missing"] ";")
                (-1) (-1) (set_faults [C.ENOENT] Sample.w0))
      as (s & w' & pre & E & _ & _).
    assert (Hs : s = Exited 1).
    { vm_compute in E. now injection E as <- _. }
    subst s. exists w'. exact E.
Defined.

(** ** wait.c: the foreground wait *)

Lemma emitting_never f w w' :
  emitting (never f) w w' -> List.filter f (added w w') = [].
Proof.
  intros (evs & T & P). rewrite (added_app _ _ _ T). clear T.
  induction P as [| e evs He _ IH]; simpl; [reflexivity |].
  unfold never in He. now rewrite He.
Qed.

#[export] Instance in_group_preorder P sh : PreOrder (in_group P sh).
Proof.
  split.
  - intros w H. split; [exact H | reflexivity].
  - intros a b c Hab Hbc H. destruct (Hab H) as [Hb Eab].
    destruct (Hbc Hb) as [Hc Ebc]. split; [exact Hc | now transitivity b].
Qed.

Lemma keeps_in_group {A} P sh (m : M A) :
  keeps (same shell_pgrp) m -> keeps (emitting P) m -> keeps (in_group P sh) m.
Proof.
  intros Hs He w H. split; [| apply He]. rewrite <- H. apply Hs.
Qed.

Lemma fg_handoff_scoped pgrp sh : keeps (emitting (fg_scoped pgrp sh)) (fg_handoff pgrp).
Proof. unfold fg_handoff. repeat keeps_step. Qed.

Lemma fg_handoff_same_shell_pgrp pgrp : keeps (same shell_pgrp) (fg_handoff pgrp).
Proof. unfold fg_handoff. repeat keeps_step. Qed.

Lemma fg_wait_loop_scoped fuel pgrp j sh :
  keeps (emitting (fg_scoped pgrp sh)) (fg_wait_loop fuel pgrp j).
Proof.
  induction fuel as [| n IH]; simpl.
  - apply keeps_halt; typeclasses eauto.
  - unfold record_exit_status. repeat keeps_step.
Qed.

Lemma fg_restore_scoped pgrp sh : keeps (in_group (fg_scoped pgrp sh) sh) fg_restore.
Proof.
  intros w H. unfold fg_restore. unfold_prims. unfold in_group, emitting.
  destruct (is_interactive w); simpl.
  - destruct (faults w) as [| e fs]; simpl;
      [| destruct (e =? 0); simpl ]; (split; [exact H |]);
      (eexists; split; [trace_eq |]); simpl;
      repeat match goal with
             | |- Forall _ (_ :: _) => constructor
             | |- Forall _ [] => constructor
             end; simpl; auto.
  - split; [exact H |]. exists []. split; [now rewrite app_nil_r | constructor].
Qed.

(** X13.  Whatever happens in it, the foreground wait for a group only
    continues and awaits that group (a blocking waitpid on -pgid),
    moves the terminal between that group and the shell's own, removes
    that group's job and prints messages: it touches no other process,
    no descriptor and no other job. *)
Theorem wait_on_fg_pgid_scoped (pgrp : Z) (w : World) :
  exists evs,
    trace (world_of (wait_on_fg_pgid pgrp w)) = trace w ++ evs /\
    Forall (fg_scoped pgrp (shell_pgrp w)) evs.
Proof.
  assert (K : keeps (in_group (fg_scoped pgrp (shell_pgrp w)) (shell_pgrp w)) (wait_on_fg_pgid pgrp)).
  { unfold wait_on_fg_pgid.
    apply keeps_bind; [typeclasses eauto | |].
    - apply keeps_in_group;
        [apply fg_handoff_same_shell_pgrp | apply fg_handoff_scoped].
    - intros [j |]; [| apply keeps_ret; typeclasses eauto].
      apply keeps_bind; [typeclasses eauto | apply keeps_get; typeclasses eauto |].
      intros fuel.
      apply keeps_bind; [typeclasses eauto | |].
      + apply keeps_in_group;
          [apply fg_wait_loop_same_shell_pgrp | apply fg_wait_loop_scoped].
      + intros rv. apply keeps_bind; [typeclasses eauto | apply fg_restore_scoped |].
        intros _. apply keeps_ret; typeclasses eauto. }
  exact (proj2 (K w eq_refl)).
Qed.

(** *** A child that stops *)

Lemma find_pgid_record_status j st js g :
  Jobs.find_pgid g (Jobs.record_status j st js) =
    match Jobs.find_pgid g js with
    | Some jb => Some (if jid jb =? j then Job (jid jb) (pgid jb) st else jb)
    | None => None
    end.
Proof.
  unfold Jobs.find_pgid, Jobs.record_status.
  induction js as [| a js IH]; simpl; [reflexivity |].
  destruct (jid a =? j) eqn:E1; simpl; destruct (pgid a =? g) eqn:E2; simpl;
    rewrite ?E1; auto.
Qed.

Lemma find_pgid_recorded j g pre : forall js jb,
  Jobs.find_pgid g js = Some jb ->
  exists jb', Jobs.find_pgid g (recorded j pre js) = Some jb' /\
    jid jb' = jid jb /\
    (jid jb = j -> jstatus jb' = last_recorded pre (jstatus jb)).
Proof.
  induction pre as [| a pre IH]; intros js jb H; simpl.
  - exists jb. auto.
  - destruct a as [| p st | e]; try (apply IH; exact H).
    destruct (IH (Jobs.record_status j st js)
                (if jid jb =? j then Job (jid jb) (pgid jb) st else jb))
      as (jb' & F & I & S).
    { now rewrite find_pgid_record_status, H. }
    exists jb'. split; [exact F |].
    destruct (Z.eqb_spec (jid jb) j) as [E | N]; simpl in *.
    + split; [exact I |]. intros _. now apply S.
    + split; [exact I |]. intros E. contradiction.
Qed.

Lemma next_wait_untraced nohang : forall ws p st rest,
  next_wait nohang false ws = Some (WChanged p st, rest) ->
  WStatus.WIFSTOPPED st = false.
Proof.
  induction ws as [| a ws IH]; intros p st rest H; simpl in H.
  - destruct nohang; discriminate H.
  - destruct a as [| q sq | e]; simpl in H.
    + destruct nohang; [discriminate H | now apply IH in H].
    + destruct (WStatus.WIFSTOPPED sq) eqn:Hs; simpl in H.
      * destruct nohang; [discriminate H | now apply IH in H].
      * now injection H as _ <- _.
    + discriminate H.
Qed.

(** A call of waitpid without WUNTRACED never hands out the status of a
    stopped child. *)
Lemma sys_waitpid_untraced pid options :
  Z.testbit options 1 = false ->
  returns (fun x => WStatus.WIFSTOPPED (snd x) = false) (sys_waitpid pid options).
Proof.
  intros Hu w [res st] w' E. unfold sys_waitpid in E. rewrite Hu in E.
  destruct (next_wait (Z.testbit options 0) false (waits w)) as [[a rest] |] eqn:N;
    [| discriminate E].
  destruct a as [| q sq | e]; injection E as <- <- _; try reflexivity.
  simpl. now apply next_wait_untraced in N.
Qed.

Lemma keeps_bind_returns {A B} (R : relation World) `{!PreOrder R}
    (Q : A -> Prop) (m : M A) (k : A -> M B) :
  returns Q m -> keeps R m -> (forall a, Q a -> keeps R (k a)) -> keeps R (bind m k).
Proof.
  intros Hq Hm Hk w. unfold bind.
  destruct (m w) as [a w1 | s w1] eqn:E.
  - transitivity w1.
    + exact (keeps_ok _ _ _ _ _ Hm E).
    + apply Hk. exact (Hq w a w1 E).
  - exact (keeps_stop _ _ _ _ _ Hm E).
Qed.

Lemma fg_wait_loop_no_report fuel pgrp j :
  keeps (emitting (never is_stopped_report)) (fg_wait_loop fuel pgrp j).
Proof.
  induction fuel as [| n IH]; simpl.
  - apply keeps_halt; typeclasses eauto.
  - apply (keeps_bind_returns _ (fun x => WStatus.WIFSTOPPED (snd x) = false));
      [now apply sys_waitpid_untraced | repeat keeps_step |].
    intros [res st] Hs. simpl in Hs. rewrite Hs.
    unfold record_exit_status. repeat keeps_step.
Qed.

Lemma bg_wait_loop_no_report fuel pgrp j :
  keeps (emitting (never is_stopped_report)) (bg_wait_loop fuel pgrp j).
Proof.
  induction fuel as [| n IH]; simpl.
  - apply keeps_halt; typeclasses eauto.
  - apply (keeps_bind_returns _ (fun x => WStatus.WIFSTOPPED (snd x) = false));
      [now apply sys_waitpid_untraced | repeat keeps_step |].
    intros [res st] Hs. simpl in Hs. rewrite Hs.
    repeat keeps_step.
Qed.

Lemma bg_scan_no_report fuel : forall i,
  keeps (emitting (never is_stopped_report)) (bg_scan fuel i).
Proof.
  induction fuel as [| n IH]; intros i; simpl.
  - apply keeps_halt; typeclasses eauto.
  - repeat keeps_step. apply bg_wait_loop_no_report.
Qed.

Section FgStopped.
Variables (pgrp j p st : Z).
Hypothesis Hst : WStatus.WIFSTOPPED st = true.

(** The loop of the foreground wait when the last thing that happens is
    that a child stops: the call of waitpid does not return. *)
Lemma fg_wait_loop_stopped : forall pre fuel w jb0,
  (List.length pre < fuel)%nat ->
  waits w = pre ++ [WChanged p st] ->
  forallb benign pre = true ->
  Jobs.find_jid j (jobs w) = Some jb0 ->
  exists w', fg_wait_loop fuel pgrp j w = Stop Blocked w' /\
             last (trace w') = Some (EWaitBlocked (- pgrp) 0).
Proof.
  induction pre as [| a pre IH]; intros fuel w jb0 Hfuel Hw Hb Hj.
  - destruct fuel as [| n]; [simpl in Hfuel; lia |].
    simpl in *. unfold_prims. rewrite Hw. simpl. rewrite Hst. simpl.
    eexists. split; [reflexivity |]. wred. apply last_snoc.
  - simpl in Hb. apply andb_prop in Hb as [Ha Hb]. simpl in Hw.
    destruct fuel as [| n]; [simpl in Hfuel; lia |].
    destruct a as [| q sq | e]; simpl in Ha.
    + rewrite (fg_wait_loop_skip _ _ _ _ _ Hw).
      apply (IH (S n) (set_waits (pre ++ [WChanged p st]) w) jb0);
        [simpl in Hfuel; lia | reflexivity | exact Hb | exact Hj].
    + apply andb_prop in Ha as [Hq Hsq]. apply negb_true_iff in Hsq.
      destruct (IH n (set_jobs (Jobs.record_status j sq (jobs w))
                        (emit (EWaitpid (- pgrp) 0 q)
                           (set_waits (pre ++ [WChanged p st]) w)))
                  (Job (jid jb0) (pgid jb0) sq))
        as (w' & H1 & H2);
        [simpl in Hfuel; lia | reflexivity | exact Hb | |].
      { simpl. rewrite find_jid_record_status, Hj.
        apply List.find_some in Hj as [_ Hj]. now rewrite Hj. }
      exists w'. split; [| exact H2].
      assert (Hq' : (q <? 0) = false) by (apply Z.ltb_lt in Hq; apply Z.ltb_ge; lia).
      simpl. unfold_prims. rewrite Hw. simpl.
      repeat (rewrite ?Hq', ?Hq, ?Hj, ?Hsq; simpl). exact H1.
    + apply Z.eqb_eq in Ha. subst e.
      destruct (IH n (emit (EWaitpid (- pgrp) 0 (-1))
                        (set_errno C.EINTR
                           (set_waits (pre ++ [WChanged p st]) w))) jb0)
        as (w' & H1 & H2);
        [simpl in Hfuel; lia | reflexivity | exact Hb | exact Hj |].
      exists w'. split; [| exact H2].
      simpl. unfold_prims. rewrite Hw. simpl. exact H1.
Qed.
End FgStopped.

Lemma fg_handoff_ok pgrp w jb :
  faults w = [] -> 0 <= pgrp ->
  Jobs.find_pgid pgrp (jobs w) = Some jb -> 0 <= jid jb ->
  exists w1 evs,
    fg_handoff pgrp w = Ok (Some (jid jb)) w1 /\
    jobs w1 = jobs w /\ p_status w1 = p_status w /\ waits w1 = waits w /\
    faults w1 = [] /\ is_interactive w1 = is_interactive w /\
    shell_pgrp w1 = shell_pgrp w /\ trace w1 = trace w ++ evs.
Proof.
  intros F Hg Hj Hjid. unfold fg_handoff.
  destruct (Z.ltb_spec pgrp 0); [lia |].
  unfold jobs_get_jid. rewrite bind_get, Hj.
  destruct (Z.ltb_spec (jid jb) 0); [lia |].
  unfold sys_kill, sys_tcsetpgrp, bind, fault, get, modify, ret. rewrite F. simpl.
  destruct (is_interactive w) eqn:Hi; simpl; rewrite ?F; simpl;
    eexists _, _; (split; [reflexivity |]); wred;
    repeat split; try reflexivity; try assumption; trace_eq.
Qed.

Lemma fg_restore_ok w :
  faults w = [] ->
  exists w', fg_restore w = Ok tt w' /\
    jobs w' = jobs w /\ p_status w' = p_status w /\ waits w' = waits w /\
    (is_interactive w = true -> tty_fg w' = shell_pgrp w) /\
    exists evs, trace w' = trace w ++ evs.
Proof.
  intros F. unfold fg_restore, sys_getpgid, sys_tcsetpgrp, bind, fault, get, modify, ret.
  destruct (is_interactive w); simpl; rewrite ?F; simpl.
  - eexists. split; [reflexivity |]. wred. repeat split; try reflexivity.
    now exists [ETcsetpgrp C.STDIN_FILENO (shell_pgrp w) 0].
  - exists w. repeat split; try reflexivity; try discriminate.
    exists []. now rewrite app_nil_r.
Qed.

(** X14.  Both waits call waitpid without WUNTRACED, so that a child
    that stops is never reported to them: the branch that prints
    "[jid] Stopped" is never taken, neither in the foreground wait nor in
    the background reap, whatever the children do.  When the last thing
    that happens to a foreground job is that one of its processes stops
    (Ctrl-Z), the shell is left in its blocking call of waitpid. *)
Theorem stopped_never_reported (w : World) :
  (forall pgrp,
     List.filter is_stopped_report (added w (world_of (wait_on_fg_pgid pgrp w))) = []) /\
  List.filter is_stopped_report (added w (world_of (wait_on_bg_jobs w))) = [] /\
  (forall pgrp jb p st pre,
     faults w = [] -> 0 <= pgrp ->
     Jobs.find_pgid pgrp (jobs w) = Some jb -> 0 <= jid jb ->
     waits w = pre ++ [WChanged p st] ->
     forallb benign pre = true ->
     WStatus.WIFSTOPPED st = true ->
     exists w', wait_on_fg_pgid pgrp w = Stop Blocked w' /\
                last (trace w') = Some (EWaitBlocked (- pgrp) 0)).
Proof.
  split; [| split].
  - intros pgrp. apply emitting_never.
    assert (K : keeps (emitting (never is_stopped_report)) (wait_on_fg_pgid pgrp)).
    { unfold wait_on_fg_pgid, fg_handoff, fg_restore. repeat keeps_step.
      apply fg_wait_loop_no_report. }
    apply K.
  - apply emitting_never.
    assert (K : keeps (emitting (never is_stopped_report)) wait_on_bg_jobs).
    { unfold wait_on_bg_jobs. repeat keeps_step. apply bg_scan_no_report. }
    apply K.
  - intros pgrp jb p st pre F Hg Hj Hjid Hw Hb Hst.
    destruct (fg_handoff_ok pgrp w jb F Hg Hj Hjid)
      as (w1 & ev1 & E1 & J1 & S1 & W1 & F1 & I1 & G1 & T1).
    destruct (find_pgid_jid _ _ _ Hj) as (jb0 & Hjid0).
    destruct (fg_wait_loop_stopped pgrp (jid jb) p st Hst pre
                (S (List.length (waits w1))) w1 jb0) as (w2 & E2 & L2).
    { rewrite W1, Hw, length_app. simpl. lia. }
    { now rewrite W1. }
    { exact Hb. }
    { now rewrite J1. }
    exists w2. split; [| exact L2].
    unfold wait_on_fg_pgid. rewrite (bind_ok _ _ _ _ _ E1), bind_get.
    now rewrite (bind_stop _ _ _ _ _ E2).
Qed.

(** [sleep 100 ;] stopped with Ctrl-Z: the shell stays in waitpid. *)
Lemma stopped_never_reported_witness :
  exists w',
    wait_on_fg_pgid 100
      (set_waits [WChanged 100 (WStatus.stopped 20)]
         (set_jobs [Job 0 100 0] Sample.w0)) = Stop Blocked w' /\
    last (trace w') = Some (EWaitBlocked (-100) 0).
Proof.
  destruct (stopped_never_reported
              (set_waits [WChanged 100 (WStatus.stopped 20)]
                 (set_jobs [Job 0 100 0] Sample.w0))) as (_ & _ & H).
  apply (H 100 (Job 0 100 0) 100 (WStatus.stopped 20) []);
    try reflexivity; lia.
Defined.

(** *** A shell that is not interactive *)

Lemma fg_wait_loop_no_tty fuel pgrp j :
  keeps (emitting (never is_tcsetpgrp)) (fg_wait_loop fuel pgrp j).
Proof.
  induction fuel as [| n IH]; simpl.
  - apply keeps_halt; typeclasses eauto.
  - unfold record_exit_status. repeat keeps_step.
Qed.

Lemma fg_wait_loop_same_tty fuel pgrp j :
  keeps (same tty_fg) (fg_wait_loop fuel pgrp j).
Proof.
  induction fuel as [| n IH]; simpl.
  - apply keeps_halt; typeclasses eauto.
  - unfold record_exit_status. repeat keeps_step.
Qed.

Lemma fg_handoff_batch pgrp w :
  is_interactive w = false ->
  exists o w1, fg_handoff pgrp w = Ok o w1 /\
    is_interactive w1 = false /\ tty_fg w1 = tty_fg w /\
    emitting (never is_tcsetpgrp) w w1.
Proof.
  intros Hi. unfold fg_handoff, emitting. unfold_prims.
  repeat (simpl; rewrite ?Hi; case_goal); simpl; rewrite ?Hi;
    eexists _, _; (split; [reflexivity |]);
    (split; [exact Hi |]); (split; [reflexivity |]);
    (eexists; split; [trace_eq |]); simpl;
    repeat match goal with
           | |- Forall _ (_ :: _) => constructor
           | |- Forall _ [] => constructor
           end; reflexivity.
Qed.

(** X15.  A shell that is not interactive never moves the terminal: the
    foreground wait makes no call of tcsetpgrp, neither to hand the
    terminal to the job nor to take it back. *)
Theorem fg_wait_batch (pgrp : Z) (w : World) :
  is_interactive w = false ->
  let w' := world_of (wait_on_fg_pgid pgrp w) in
  tty_fg w' = tty_fg w /\
  List.filter is_tcsetpgrp (added w w') = [].
Proof.
  intros Hi. cbv zeta.
  assert (H : tty_fg (world_of (wait_on_fg_pgid pgrp w)) = tty_fg w /\
              emitting (never is_tcsetpgrp) w (world_of (wait_on_fg_pgid pgrp w))).
  { destruct (fg_handoff_batch pgrp w Hi) as (o & w1 & E1 & I1 & Y1 & T1).
    unfold wait_on_fg_pgid. rewrite (bind_ok _ _ _ _ _ E1).
    destruct o as [j |]; [| simpl; auto].
    rewrite bind_get.
    set (fuel := S (List.length (waits w1))).
    pose proof (fg_wait_loop_no_tty fuel pgrp j w1) as T2.
    pose proof (fg_wait_loop_same_tty fuel pgrp j w1) as Y2.
    pose proof (fg_wait_loop_same_interactive fuel pgrp j w1) as I2.
    unfold same in Y2, I2.
    destruct (fg_wait_loop fuel pgrp j w1) as [rv w2 | s w2] eqn:E2; simpl in *.
    - rewrite (bind_ok _ _ _ _ _ E2).
      destruct (fg_restore_facts w2) as (w3 & E3 & _ & _ & _ & Hsame).
      rewrite (Hsame ltac:(congruence)) in E3.
      rewrite (bind_ok _ _ _ _ _ E3). simpl.
      split; [congruence | now transitivity w1].
    - rewrite (bind_stop _ _ _ _ _ E2). simpl.
      split; [congruence | now transitivity w1]. }
  destruct H as [Y P]. split; [exact Y | now apply emitting_never].
Qed.

Lemma fg_wait_batch_witness :
  let w := set_waits [WChanged 100 0; WError C.ECHILD] (set_jobs [Job 0 100 0] batch_w0) in
  tty_fg (world_of (wait_on_fg_pgid 100 w)) = 1 /\
  List.filter is_tcsetpgrp (added w (world_of (wait_on_fg_pgid 100 w))) = [].
Proof.
  exact (fg_wait_batch 100
           (set_waits [WChanged 100 0; WError C.ECHILD] (set_jobs [Job 0 100 0] batch_w0))
           eq_refl).
Defined.

(** *** A group or a job that is not in the table *)

(** X16.  A negative group, a group without a job, a job id that is not
    in the table: the foreground wait returns -1 and has done nothing (no
    signal sent, no message, the terminal left alone).  For a job id that
    is in the table, wait_on_fg_job is the foreground wait for the group
    of that job. *)
Theorem fg_wait_lookup (w : World) :
  (forall pgrp, pgrp < 0 \/ Jobs.find_pgid pgrp (jobs w) = None ->
     wait_on_fg_pgid pgrp w = Ok (-1) w) /\
  (forall j, Jobs.find_jid j (jobs w) = None -> wait_on_fg_job j w = Ok (-1) w) /\
  (forall j jb, Jobs.find_jid j (jobs w) = Some jb -> 0 <= pgid jb ->
     wait_on_fg_job j w = wait_on_fg_pgid (pgid jb) w).
Proof.
  split; [| split].
  3:{ intros j jb H Hg. unfold wait_on_fg_job, jobs_get_pgid. rewrite bind_get, H.
      destruct (Z.ltb_spec (pgid jb) 0); [lia | reflexivity]. }
  - intros pgrp H. unfold wait_on_fg_pgid, fg_handoff.
    destruct (Z.ltb_spec pgrp 0); [reflexivity |].
    destruct H as [H | H]; [lia |].
    unfold jobs_get_jid. rewrite bind_assoc, bind_get, H. reflexivity.
  - intros j H. unfold wait_on_fg_job, jobs_get_pgid. now rewrite bind_get, H.
Qed.

(** ** wait.c: the background reap when no child is left *)

Lemma filter_all {A} (f : A -> bool) (l : list A) :
  Forall (fun x => f x = true) l -> List.filter f l = l.
Proof.
  induction 1 as [| x l Hx _ IH]; simpl; [reflexivity |]. now rewrite Hx, IH.
Qed.

Lemma forget_group_one kept a rem :
  NoDup (map pgid (kept ++ a :: rem)) ->
  Jobs.forget_group (pgid a) (kept ++ a :: rem) = kept ++ rem.
Proof.
  intros H. unfold Jobs.forget_group.
  rewrite map_app in H. simpl in H.
  apply NoDup_app in H as (_ & Hdis & H2).
  apply NoDup_cons in H2 as [Hnot _].
  rewrite List.filter_app. simpl. rewrite Z.eqb_refl. simpl.
  rewrite !filter_all; [reflexivity | |].
  - apply List.Forall_forall. intros x Hx.
    apply negb_true_iff, Z.eqb_neq. intros E. apply Hnot.
    rewrite <- E. apply list_elem_of_In, List.in_map, Hx.
  - apply List.Forall_forall. intros x Hx.
    apply negb_true_iff, Z.eqb_neq. intros E.
    apply (Hdis (pgid a)); [| apply elem_of_cons; now left].
    rewrite <- E. apply list_elem_of_In, List.in_map, Hx.
Qed.

Lemma find_jid_member a js :
  a ∈ js -> exists b, Jobs.find_jid (jid a) js = Some b.
Proof.
  intros H. unfold Jobs.find_jid.
  destruct (List.find (fun j => jid j =? jid a) js) as [b |] eqn:E; [eauto |].
  apply list_elem_of_In in H.
  pose proof (List.find_none _ _ E a H) as N. simpl in N.
  rewrite Z.eqb_refl in N. discriminate.
Qed.

(** One job of the scan when waitpid answers ECHILD: the job is
    reported and removed, and the inner loop is left. *)
Lemma bg_wait_loop_echild fuel a ws w :
  waits w = WError C.ECHILD :: ws ->
  a ∈ jobs w ->
  exists w',
    bg_wait_loop (S fuel) (pgid a) (jid a) w = Ok None w' /\
    jobs w' = Jobs.forget_group (pgid a) (jobs w) /\
    waits w' = ws.
Proof.
  intros Hw Ha.
  destruct (find_jid_member a (jobs w) Ha) as (b & Hb).
  assert (Hg : exists c, Jobs.find_pgid (pgid a) (jobs w) = Some c).
  { unfold Jobs.find_pgid.
    destruct (List.find (fun j => pgid j =? pgid a) (jobs w)) as [c |] eqn:E; [eauto |].
    apply list_elem_of_In in Ha.
    pose proof (List.find_none _ _ E a Ha) as N. simpl in N.
    rewrite Z.eqb_refl in N. discriminate. }
  destruct Hg as (c & Hc).
  simpl. unfold_prims. rewrite Hw. simpl. rewrite Hb. simpl.
  destruct (WStatus.WIFEXITED (jstatus b)); simpl; rewrite ?Hc;
    [| destruct (WStatus.WIFSIGNALED (jstatus b)); simpl; rewrite ?Hc ];
    eexists; split; reflexivity || (split; reflexivity).
Qed.

Lemma bg_scan_echild : forall fuel kept rem w,
  jobs w = kept ++ rem ->
  (List.length rem < fuel)%nat ->
  NoDup (map pgid (kept ++ rem)) ->
  Forall (fun a => a = WError C.ECHILD) (waits w) ->
  (List.length rem <= List.length (waits w))%nat ->
  exists w', bg_scan fuel (List.length kept) w = Ok 0 w' /\
             jobs w' = kept ++ every_second rem.
Proof.
  induction fuel as [| fuel IH]; intros kept rem w Hj Hf Hnd Hall Hlen; [lia |].
  simpl. rewrite bind_get, Hj.
  destruct rem as [| a rem'].
  - rewrite app_nil_r, lookup_ge_None_2 by (rewrite length_app; simpl; lia) || lia.
    exists w. split; [reflexivity |]. now rewrite Hj.
  - rewrite list_lookup_middle by reflexivity. rewrite bind_get.
    destruct (waits w) as [| x ws] eqn:Hw; [simpl in Hlen; lia |].
    apply Forall_cons in Hall as [-> Hall].
    destruct (bg_wait_loop_echild (List.length (WError C.ECHILD :: ws)) a ws w Hw)
      as (w1 & E1 & J1 & W1).
    { rewrite Hj. apply elem_of_app. right. apply elem_of_cons. now left. }
    rewrite (bind_ok _ _ _ _ _ E1).
    rewrite Hj, forget_group_one in J1 by exact Hnd.
    assert (Hnd1 : NoDup (map pgid (kept ++ rem'))).
    { rewrite map_app in *. simpl in Hnd.
      apply NoDup_app in Hnd as (H1 & H2 & H3). apply NoDup_cons in H3 as [_ H3].
      apply NoDup_app. split; [exact H1 |]. split; [| exact H3].
      intros x Hx Hx'. apply (H2 x Hx). apply elem_of_cons. now right. }
    destruct rem' as [| b rem''].
    + destruct fuel as [| fuel]; [simpl in Hf; lia |].
      simpl. rewrite bind_get, J1, app_nil_r.
      rewrite lookup_ge_None_2 by lia.
      exists w1. split; [reflexivity |]. now rewrite J1, app_nil_r.
    + destruct (IH (kept ++ [b]) rem'' w1) as (w' & E' & J').
      * now rewrite J1, <- app_assoc.
      * simpl in Hf. lia.
      * now rewrite <- app_assoc.
      * now rewrite W1.
      * rewrite W1. simpl in Hlen. lia.
      * exists w'. rewrite length_app, Nat.add_1_r in E'.
        split; [exact E' |]. rewrite J', <- app_assoc. reflexivity.
Qed.

(** X17.  The background reap when no child is left, every waitpid answering
    ECHILD: the jobs at the positions 0, 2, 4, ... of the table are
    removed and those at 1, 3, 5, ... stay, since the index moves on
    over the table that the removal has shortened. *)
Theorem wait_on_bg_jobs_every_second (w : World) :
  NoDup (map pgid (jobs w)) ->
  Forall (fun a => a = WError C.ECHILD) (waits w) ->
  (List.length (jobs w) <= List.length (waits w))%nat ->
  exists w', wait_on_bg_jobs w = Ok 0 w' /\ jobs w' = every_second (jobs w).
Proof.
  intros Hnd Hall Hlen. unfold wait_on_bg_jobs. rewrite bind_get.
  exact (bg_scan_echild (S (List.length (jobs w))) [] (jobs w) w eq_refl
           ltac:(lia) Hnd Hall Hlen).
Qed.

Lemma wait_on_bg_jobs_every_second_witness :
  exists w',
    wait_on_bg_jobs
      (set_waits [WError C.ECHILD; WError C.ECHILD; WError C.ECHILD]
         (set_jobs [Job 0 100 0; Job 1 200 0; Job 2 300 0] Sample.w0)) = Ok 0 w' /\
    jobs w' = [Job 1 200 0].
Proof.
  apply (wait_on_bg_jobs_every_second
           (set_waits [WError C.ECHILD; WError C.ECHILD; WError C.ECHILD]
              (set_jobs [Job 0 100 0; Job 1 200 0; Job 2 300 0] Sample.w0))).
  - simpl. repeat (apply NoDup_cons_2; [rewrite ?elem_of_cons, ?elem_of_nil; lia |]).
    apply NoDup_nil_2.
  - repeat constructor.
  - simpl. lia.
Defined.

(** ** runner.c: a forked command, seen from the parent *)

(** The id given to a new job is not in use. *)
Lemma fresh_jid_fresh js b : b ∈ js -> jid b <> Jobs.fresh_jid js.
Proof.
  intros Hb. unfold Jobs.fresh_jid.
  destruct (List.find _ _) as [n |] eqn:E; simpl.
  - apply List.find_some in E as [_ E]. apply negb_true_iff in E.
    intros Heq.
    assert (Hex : existsb (fun j => jid j =? n) js = true).
    { apply List.existsb_exists. exists b. split; [now apply list_elem_of_In |].
      now apply Z.eqb_eq. }
    congruence.
  - exfalso.
    set (l := map Z.of_nat (seq 0 (S (List.length js)))) in *.
    assert (Hsub : (list_to_set l : gset Z) ⊆ list_to_set (map jid js)).
    { intros x Hx. apply elem_of_list_to_set in Hx.
      apply list_elem_of_In in Hx.
      pose proof (List.find_none _ _ E x Hx) as Hn. simpl in Hn.
      apply negb_false_iff, List.existsb_exists in Hn as (c & Hc & Hjc).
      apply elem_of_list_to_set, list_elem_of_In, List.in_map_iff.
      exists c. split; [now apply Z.eqb_eq | exact Hc]. }
    apply subseteq_size in Hsub.
    rewrite size_list_to_set in Hsub.
    + assert (Hle : forall xs : list Z,
                (size (list_to_set xs : gset Z) <= List.length xs)%nat).
      { induction xs as [| x xs IHx].
        { rewrite list_to_set_nil, size_empty. simpl. lia. }
        rewrite list_to_set_cons, size_union_alt, size_singleton. cbn [List.length].
        pose proof (subseteq_size (list_to_set xs ∖ {[x]}) (list_to_set xs : gset Z)
                      (subseteq_difference_l _ _ _ (reflexivity _))).
        lia. }
      specialize (Hle (map jid js)).
      unfold l in Hsub. rewrite !length_map, length_seq in *. lia.
    + unfold l. apply NoDup_fmap_2; [apply _ | apply NoDup_seq].
Qed.

Lemma record_status_fresh j st js p s :
  (forall b, b ∈ js -> jid b <> j) ->
  Jobs.record_status j st (js ++ [Job j p s]) = js ++ [Job j p st].
Proof.
  intros H. unfold Jobs.record_status. rewrite map_app. simpl. rewrite Z.eqb_refl.
  f_equal. induction js as [| a js IH]; simpl; [reflexivity |].
  destruct (Z.eqb_spec (jid a) j) as [E | _].
  - exfalso. apply (H a); [apply elem_of_cons; now left | exact E].
  - f_equal. apply IH. intros b Hb. apply H. apply elem_of_cons. now right.
Qed.

Lemma recorded_fresh j p pre : forall js s,
  (forall b, b ∈ js -> jid b <> j) ->
  recorded j pre (js ++ [Job j p s]) = js ++ [Job j p (last_recorded pre s)].
Proof.
  induction pre as [| a pre IH]; intros js s H; simpl; [reflexivity |].
  destruct a as [| q st | e]; try (apply IH; exact H).
  rewrite record_status_fresh by exact H. now apply IH.
Qed.

Lemma find_pgid_none g js b : Jobs.find_pgid g js = None -> b ∈ js -> pgid b <> g.
Proof.
  intros H Hb E. apply list_elem_of_In in Hb.
  pose proof (List.find_none _ _ H b Hb) as N. simpl in N.
  rewrite E, Z.eqb_refl in N. discriminate.
Qed.

Lemma forget_group_new g js j s :
  Jobs.find_pgid g js = None -> Jobs.forget_group g (js ++ [Job j g s]) = js.
Proof.
  intros H. unfold Jobs.forget_group. rewrite List.filter_app. simpl.
  rewrite Z.eqb_refl. simpl. rewrite app_nil_r.
  fold (Jobs.forget_group g js). now apply forget_group_absent.
Qed.

Lemma find_pgid_new g js j s :
  Jobs.find_pgid g js = None -> Jobs.find_pgid g (js ++ [Job j g s]) = Some (Job j g s).
Proof.
  intros H. unfold Jobs.find_pgid in *.
  induction js as [| a js IH]; simpl in *.
  - now rewrite Z.eqb_refl.
  - destruct (pgid a =? g); [discriminate | now apply IH].
Qed.

Lemma find_jid_new js p s :
  Jobs.find_jid (Jobs.fresh_jid js) (js ++ [Job (Jobs.fresh_jid js) p s]) =
    Some (Job (Jobs.fresh_jid js) p s).
Proof.
  pose proof (fresh_jid_fresh js) as H. unfold Jobs.find_jid.
  generalize dependent (Jobs.fresh_jid js). intros j H.
  induction js as [| a js IH]; simpl.
  - now rewrite Z.eqb_refl.
  - destruct (Z.eqb_spec (jid a) j) as [E | _].
    + exfalso. apply (H a); [apply elem_of_cons; now left | exact E].
    + apply IH. intros b Hb. apply H. apply elem_of_cons. now right.
Qed.

(** *** Frames *)

Lemma setpgid_race_view pid g : keeps (same shell_view) (setpgid_race pid g).
Proof. unfold setpgid_race. repeat keeps_step. Qed.

#[export] Hint Resolve setpgid_race_view : keeps.

Lemma spawn_view ib fg pd : keeps (same shell_view) (spawn ib fg pd).
Proof. unfold spawn. repeat keeps_step. Qed.

Lemma spawn_jobs ib fg pd w c pd2 w1 :
  spawn ib fg pd w = Ok (Some (c, pd2)) w1 ->
  jobs w1 = (if negb (c =? 0) && (pd_pgid pd =? 0)
             then jobs w ++ [Job (pd_jid pd2) c 0] else jobs w) /\
  (negb (c =? 0) && (pd_pgid pd =? 0) = true ->
   pd_jid pd2 = Jobs.fresh_jid (jobs w)).
Proof.
  unfold spawn. destruct (should_fork ib fg).
  2:{ intros [= <- <- <-]. simpl. split; [reflexivity | discriminate]. }
  assert (Hfork : exists c0 w0, sys_fork w = Ok c0 w0 /\ jobs w0 = jobs w).
  { unfold sys_fork. repeat (case_goal; simpl); eauto. }
  destruct Hfork as (c0 & w0 & E0 & J0). rewrite (bind_ok _ _ _ _ _ E0).
  destruct (c0 <? 0).
  { unfold stderr, bind, modify, ret. intros H. discriminate H. }
  assert (Hrace : forall w, exists b w', setpgid_race c0 (pd_pgid pd) w = Ok b w' /\
                                         jobs w' = jobs w).
  { intros v. unfold setpgid_race. unfold_prims. repeat (case_goal; simpl); eauto. }
  destruct (Hrace w0) as (b1 & w1' & E1 & J1). rewrite (bind_ok _ _ _ _ _ E1).
  destruct b1; cbn [negb]; [| intros H; discriminate H].
  destruct (Hrace w1') as (b2 & w2 & E2 & J2). rewrite (bind_ok _ _ _ _ _ E2).
  destruct b2; cbn [negb]; [| intros H; discriminate H].
  destruct (negb (c0 =? 0) && (pd_pgid pd =? 0)) eqn:Hnew.
  - unfold sys_getpgid. rewrite bind_get.
    match goal with |- context [assert ?b] => destruct b end; cbn [assert];
      [rewrite bind_ret | unfold halt, bind; intros H; discriminate H].
    unfold jobs_add, bind, fault, get, modify, ret.
    destruct (faults w2) as [| e fs]; simpl.
    + destruct (Jobs.fresh_jid (jobs w2) <? 0); [intros H; discriminate H |].
      intros [= <- <- <-]. rewrite Hnew. simpl. split; [| intros _]; congruence.
    + destruct (e =? 0); simpl; [| intros H; discriminate H].
      destruct (Jobs.fresh_jid (jobs w2) <? 0); [intros H; discriminate H |].
      intros [= <- <- <-]. rewrite Hnew. simpl. split; [| intros _]; congruence.
  - intros [= <- <- <-]. rewrite Hnew. split; [congruence | discriminate].
Qed.

Lemma setpgid_race_no_wait pid g : keeps (emitting (never is_wait)) (setpgid_race pid g).
Proof. unfold setpgid_race. repeat keeps_step. Qed.

#[export] Hint Resolve setpgid_race_no_wait : keeps.




Lemma fg_handoff_fds pgrp : keeps (same fds) (fg_handoff pgrp).
Proof. unfold fg_handoff. repeat keeps_step. Qed.

Lemma fg_restore_fds : keeps (same fds) fg_restore.
Proof. unfold fg_restore. repeat keeps_step. Qed.

Lemma fg_wait_loop_view fuel pgrp j : keeps (same wait_view) (fg_wait_loop fuel pgrp j).
Proof.
  induction fuel as [| n IH]; simpl.
  - apply keeps_halt; typeclasses eauto.
  - unfold record_exit_status. repeat keeps_step.
Qed.

(** The foreground wait when every call succeeds and the children of
    the group are reaped one after the other until ECHILD. *)
Lemma fg_wait_reaped pgrp jb pre rest w :
  faults w = [] -> 0 <= pgrp ->
  Jobs.find_pgid pgrp (jobs w) = Some jb -> 0 <= jid jb ->
  waits w = pre ++ WError C.ECHILD :: rest ->
  forallb benign pre = true ->
  exists jb1 w',
    Jobs.find_jid (jid jb) (recorded (jid jb) pre (jobs w)) = Some jb1 /\
    wait_on_fg_pgid pgrp w = Ok 0 w' /\
    p_status w' = shell_status (jstatus jb1) (p_status w) /\
    jobs w' = Jobs.forget_group pgrp (recorded (jid jb) pre (jobs w)) /\
    (is_interactive w = true -> tty_fg w' = shell_pgrp w) /\
    fds w' = fds w.
Proof.
  intros F Hg Hj Hjid Hw Hb.
  destruct (fg_handoff_ok pgrp w jb F Hg Hj Hjid)
    as (w1 & ev1 & E1 & J1 & S1 & W1 & F1 & I1 & G1 & T1).
  pose proof (keeps_ok _ _ _ _ _ (fg_handoff_fds _) E1) as D1.
  destruct (find_pgid_jid _ _ _ Hj) as (jb0 & Hjid0).
  destruct (fg_wait_loop_echild pgrp (jid jb) rest pre
              (S (List.length (waits w1))) w1 jb0)
    as (jb1 & w2 & R2 & E2 & S2 & J2 & I2 & G2).
  { rewrite W1, Hw, length_app. simpl. lia. }
  { now rewrite W1. }
  { exact Hb. }
  { now rewrite J1. }
  pose proof (keeps_ok _ _ _ _ _ (fg_wait_loop_view _ _ _) E2) as V2.
  unfold same, wait_view in V2. injection V2 as D2 F2 _ _ _.
  destruct (fg_restore_ok w2) as (w3 & E3 & J3 & S3 & W3 & Y3 & ev3 & T3).
  { congruence. }
  pose proof (keeps_ok _ _ _ _ _ fg_restore_fds E3) as D3.
  exists jb1, w3. rewrite J1 in R2. split; [exact R2 |]. split.
  { unfold wait_on_fg_pgid. rewrite (bind_ok _ _ _ _ _ E1), bind_get.
    rewrite (bind_ok _ _ _ _ _ E2), (bind_ok _ _ _ _ _ E3). reflexivity. }
  split; [congruence |]. split; [congruence |]. split.
  - intros Hi. rewrite Y3 by congruence. congruence.
  - unfold same in *. congruence.
Qed.

Section Forked.
Variable expand : World -> string -> string.
Variable get_builtin : command -> option builtin_fn.

(** The run of a command that is forked, seen from the parent: the
    pipe, the spawn, then the parent's branch. *)
Lemma run_command_forked pd cmd w p fs :
  is_ctrl "|" cmd || is_ctrl "&" cmd || is_ctrl ";" cmd = true ->
  (is_ctrl ";" cmd = true -> get_builtin (expanded expand w cmd) = None) ->
  faults w = [] -> forks w = p :: fs -> 0 < p -> p ∉ map fst (procs w) ->
  let g := if pd_pgid pd =? 0 then p else pd_pgid pd in
  exists rd wr w0 j w1,
    setup_pipe (is_ctrl "|" cmd) w = Ok (Some (rd, wr)) w0 /\
    spawn (is_some (get_builtin (expanded expand w cmd))) (is_ctrl ";" cmd)
      (PipelineData rd (pd_pgid pd) (pd_jid pd)) w0 = Ok (Some (p, PipelineData rd g j)) w1 /\
    run_command expand get_builtin pd cmd w =
      parent_branch (is_ctrl "|" cmd) (is_ctrl "&" cmd) (is_ctrl ";" cmd) p
        (pipe_fd pd) wr (PipelineData rd g j) w1 /\
    faults w0 = [] /\ faults w1 = [] /\ procs w1 = procs w ++ [(p, g)] /\
    (is_ctrl "|" cmd = false -> rd = -1 /\ wr = -1 /\ w0 = w).
Proof.
  intros Hctrl Hext Hf Hforks Hp Hfresh g.
  unfold run_command, expand_command_words. rewrite bind_get.
  change (is_ctrl "|" (expanded expand w cmd)) with (is_ctrl "|" cmd).
  change (is_ctrl "&" (expanded expand w cmd)) with (is_ctrl "&" cmd).
  change (is_ctrl ";" (expanded expand w cmd)) with (is_ctrl ";" cmd).
  rewrite Hctrl. cbn [assert]. rewrite bind_ret.
  destruct (setup_pipe_ok (is_ctrl "|" cmd) w Hf)
    as ([rd wr] & w0 & Hs & (Hprocs0 & Hforks0 & Hfaults0 & e0 & Ht0 & Hj0) & Hrd).
  rewrite (bind_ok _ _ _ _ _ Hs). mred.
  assert (Hsf : should_fork (is_some (get_builtin (expanded expand w cmd)))
                  (is_ctrl ";" cmd) = true).
  { unfold should_fork. destruct (is_ctrl ";" cmd) eqn:E.
    - now rewrite (Hext eq_refl).
    - now rewrite orb_true_r. }
  destruct (spawn_ok _ _ (PipelineData rd (pd_pgid pd) (pd_jid pd)) w0 p fs Hsf)
    as (j & w1 & e1 & Hsp & Hprocs1 & Hforks1 & Hfaults1 & Ht1 & Hj1 & Hjn);
    [ now apply Hfaults0 | congruence | exact Hp | now rewrite Hprocs0 |].
  cbn [pd_pgid pipe_fd] in *. fold g in Hsp, Hprocs1.
  rewrite (bind_ok _ _ _ _ _ Hsp). mred.
  assert (Hp3 : (p =? 0) = false) by (apply Z.eqb_neq; lia).
  rewrite Hp3.
  exists rd, wr, w0, j, w1.
  split; [exact Hs |]. split; [exact Hsp |]. split; [reflexivity |].
  split; [now apply Hfaults0 |]. split; [exact Hfaults1 |].
  split; [congruence |].
  intros Hpl. rewrite Hpl in Hs. simpl in Hs. injection Hs as <- <- <-. auto.
Qed.

(** X19.  An external command in the foreground, outside any pipeline, when
    every call succeeds: the child is spawned in a group of its own,
    awaited until no child is left, and the exit status of the shell is
    the translation of the last status reaped (the exit code, or 128 plus
    the signal); the job that was registered for it is gone again, the
    descriptors are those of before, an interactive shell has the
    terminal back, and the list goes on with a fresh pipeline state. *)
Theorem foreground_external (pd : pipeline_data) (cmd : command) (w : World)
    (p : Z) (fs : list Z) (pre rest : list wait_answer) :
  is_ctrl ";" cmd = true ->
  get_builtin (expanded expand w cmd) = None ->
  pd_pgid pd = 0 -> pipe_fd pd = -1 ->
  faults w = [] -> forks w = p :: fs -> 0 < p -> p ∉ map fst (procs w) ->
  Jobs.find_pgid p (jobs w) = None ->
  waits w = pre ++ WError C.ECHILD :: rest ->
  forallb benign pre = true ->
  exists w',
    run_command expand get_builtin pd cmd w = Ok (inl (PipelineData (-1) 0 (-1))) w' /\
    p_status w' = shell_status (last_recorded pre 0) (p_status w) /\
    (forall c, 0 <= c <= 255 ->
       last_recorded pre 0 = WStatus.exited c -> p_status w' = c) /\
    (forall s, 1 <= s <= 126 ->
       last_recorded pre 0 = WStatus.signaled s -> p_status w' = 128 + s) /\
    jobs w' = jobs w /\
    procs w' = procs w ++ [(p, p)] /\
    fds w' = fds w /\
    (is_interactive w = true -> tty_fg w' = shell_pgrp w).
Proof.
  intros Hfg Hext Hpg Hpf Hf Hforks Hp Hfresh Hnojob Hw Hb.
  assert (Hpl : is_ctrl "|" cmd = false).
  { apply is_ctrl_eq in Hfg. unfold is_ctrl. now rewrite Hfg. }
  assert (Hbg : is_ctrl "&" cmd = false).
  { apply is_ctrl_eq in Hfg. unfold is_ctrl. now rewrite Hfg. }
  destruct (run_command_forked pd cmd w p fs) as
    (rd & wr & w0 & j & w1 & Hs & Hsp & Hrun & F0 & F1 & P1 & Hnp);
    [ now rewrite Hfg, orb_true_r | intros _; exact Hext
    | exact Hf | exact Hforks | exact Hp | exact Hfresh |].
  destruct (Hnp Hpl) as (-> & -> & ->).
  rewrite Hpg in Hsp, Hrun, P1. change (0 =? 0) with true in Hsp, Hrun, P1.
  cbv iota in Hsp, Hrun, P1.
  rewrite Hrun, Hpl, Hbg, Hfg, Hpf.
  pose proof (keeps_ok _ _ _ _ _ (spawn_view _ _ _) Hsp) as V1.
  unfold same, shell_view in V1. injection V1 as Vd Vt Vs _ Vw Vi Vg.
  pose proof (spawn_jobs _ _ _ _ _ _ _ Hsp) as [J1 Jf].
  assert (Hp3 : (p =? 0) = false) by (apply Z.eqb_neq; lia).
  cbn [pd_pgid pd_jid] in J1, Jf. rewrite Hp3 in J1, Jf.
  specialize (Jf eq_refl). cbn [negb andb] in J1.
  pose proof (fresh_jid_nonneg (jobs w)) as Hjn. rewrite <- Jf in Hjn.
  destruct (fg_wait_reaped p (Job j p 0) pre rest w1)
    as (jb1 & w2 & R2 & E2 & S2 & J2 & Y2 & D2);
    [ exact F1 | lia | rewrite J1; now apply find_pgid_new | exact Hjn
    | congruence | exact Hb |].
  cbn [jid] in R2, J2.
  assert (Hrec : recorded j pre (jobs w1) = jobs w ++ [Job j p (last_recorded pre 0)]).
  { rewrite J1. apply recorded_fresh. intros b Hb'. rewrite Jf.
    now apply fresh_jid_fresh. }
  rewrite Hrec in R2, J2. rewrite Jf, find_jid_new in R2. injection R2 as <-.
  rewrite forget_group_new in J2 by exact Hnojob.
  cbn [jstatus] in S2.
  assert (Hc : (0 <? p) = true) by now apply Z.ltb_lt.
  exists w2. split.
  { unfold parent_branch. rewrite Hc. cbn [assert]. rewrite bind_ret.
    unfold close_pipe_ends, when. change (-1 >=? 0) with false. cbv iota.
    rewrite bind_assoc, !bind_ret. cbn [pd_pgid].
    rewrite bind_assoc, (bind_ok _ _ _ _ _ E2).
    change (0 <? 0) with false. cbv iota. rewrite bind_ret.
    cbn [negb pipe_fd]. change (-1 =? -1) with true. cbn [assert].
    rewrite bind_ret. reflexivity. }
  assert (Hst : p_status w2 = shell_status (last_recorded pre 0) (p_status w))
    by congruence.
  split; [exact Hst |]. split; [| split; [| split; [| split; [| split]]]].
  - intros c Hc' Hl. rewrite Hst, Hl. unfold shell_status.
    now rewrite WIFEXITED_exited, WEXITSTATUS_exited.
  - intros s Hs' Hl. rewrite Hst, Hl. unfold shell_status.
    destruct (WTERMSIG_signaled s Hs') as (-> & -> & ->). reflexivity.
  - exact J2.
  - pose proof (wait_on_fg_pgid_quiet p w1) as (Q & _). rewrite E2 in Q. simpl in Q.
    congruence.
  - congruence.
  - intros Hi. rewrite Y2 by congruence. congruence.
Qed.

End Forked.


Lemma foreground_external_witness :
  exists w',
    Sample.run [Sample.ls ";"]
      (set_waits [WChanged 100 (WStatus.exited 2); WError C.ECHILD]
         (set_forks [100] Sample.w0)) = Ok 0 w' /\
    p_status w' = 2 /\ jobs w' = [].
Proof.
  destruct (foreground_external Sample.no_expand Sample.builtins
              (PipelineData (-1) 0 (-1)) (Sample.ls ";")
              (set_waits [WChanged 100 (WStatus.exited 2); WError C.ECHILD]
                 (set_forks [100] Sample.w0))
              100 [] [WChanged 100 (WStatus.exited 2)] [])
    as (w' & E & _ & Hc & _ & J & _);
    try reflexivity; try lia.
  { intros H. inversion H. }
  exists w'. split.
  - unfold Sample.run, run_command_list. simpl. rewrite (bind_ok _ _ _ _ _ E). reflexivity.
  - split; [apply (Hc 2); [lia | reflexivity] | exact J].
Defined.

(** ** runner.c: the descriptors of the parent along a pipeline *)

Lemma fresh_fd_nonneg t n : fresh_fd t = Some n -> 0 <= n.
Proof.
  unfold fresh_fd. intros H. apply List.find_some in H as [Hin _].
  apply List.in_map_iff in Hin as (k & <- & _). lia.
Qed.

Lemma setup_pipe_pipe w :
  faults w = [] ->
  exists rd wr w0,
    setup_pipe true w = Ok (Some (rd, wr)) w0 /\
    0 <= rd /\ 0 <= wr /\ rd <> wr /\
    fds w !! rd = None /\ fds w !! wr = None /\
    fds w0 = <[wr:=OPipeWrite (npipes w)]> (<[rd:=OPipeRead (npipes w)]> (fds w)).
Proof.
  intros F. unfold setup_pipe, sys_pipe, fault, bind. rewrite F. simpl.
  destruct (fresh_fd_some (fds w)) as (rd & Hrd & Nrd).
  destruct (fresh_fd_some (<[rd:=OPipeRead (npipes w)]> (fds w))) as (wr & Hwr & Nwr).
  rewrite Hrd, Hwr. simpl.
  exists rd, wr. eexists. split; [reflexivity |]. wred.
  assert (rd <> wr) by (intros ->; now rewrite lookup_insert_eq in Nwr).
  rewrite lookup_insert_ne in Nwr by assumption.
  repeat split; eauto using fresh_fd_nonneg.
Qed.

Lemma sys_close_fds fd w :
  exists rv w', sys_close fd w = Ok rv w' /\ fds w' = delete fd (fds w).
Proof.
  unfold sys_close. destruct (fds w !! fd) eqn:E.
  - eexists _, _. split; reflexivity.
  - eexists _, _. split; [reflexivity |]. wred. now rewrite delete_id.
Qed.

Lemma close_pipe_ends_fds d u w :
  exists w', close_pipe_ends d u w = Ok tt w' /\ fds w' = closed u (closed d (fds w)).
Proof.
  unfold close_pipe_ends, when, closed.
  destruct (d >=? 0).
  - destruct (sys_close_fds d w) as (r1 & w1 & E1 & D1).
    rewrite bind_assoc, (bind_ok _ _ _ _ _ E1), !bind_ret.
    destruct (u >=? 0).
    + destruct (sys_close_fds u w1) as (r2 & w2 & E2 & D2).
      rewrite (bind_ok _ _ _ _ _ E2). exists w2. split; [reflexivity | congruence].
    + exists w1. split; [reflexivity | congruence].
  - rewrite bind_ret.
    destruct (u >=? 0).
    + destruct (sys_close_fds u w) as (r2 & w2 & E2 & D2).
      rewrite (bind_ok _ _ _ _ _ E2). exists w2. split; [reflexivity | congruence].
    + exists w. split; reflexivity.
Qed.

Lemma fg_wait_loop_fds fuel pgrp j : keeps (same fds) (fg_wait_loop fuel pgrp j).
Proof.
  induction fuel as [| n IH]; simpl.
  - apply keeps_halt; typeclasses eauto.
  - unfold record_exit_status. repeat keeps_step.
Qed.

#[export] Hint Resolve fg_handoff_fds fg_restore_fds fg_wait_loop_fds : keeps.

Lemma wait_on_fg_pgid_fds pgrp : keeps (same fds) (wait_on_fg_pgid pgrp).
Proof. unfold wait_on_fg_pgid. repeat keeps_step. Qed.

#[export] Hint Resolve wait_on_fg_pgid_fds : keeps.

(** The parent's branch closes the two pipe ends of the command and
    touches no other descriptor. *)
Lemma parent_branch_fds is_pl is_bg is_fg c u d pd w :
  0 < c ->
  fds (world_of (parent_branch is_pl is_bg is_fg c u d pd w)) =
    closed u (closed d (fds w)).
Proof.
  intros Hc. unfold parent_branch.
  assert (Hc' : (0 <? c) = true) by now apply Z.ltb_lt.
  rewrite Hc'. cbn [assert]. rewrite bind_ret.
  destruct (close_pipe_ends_fds d u w) as (w1 & E1 & D1).
  rewrite (bind_ok _ _ _ _ _ E1). rewrite <- D1.
  match goal with
  | |- fds (world_of (?m w1)) = _ =>
      assert (K : keeps (same fds) m) by (unfold when; repeat keeps_step)
  end.
  apply K.
Qed.

Section PipelineDescriptors.
Variable expand : World -> string -> string.
Variable get_builtin : command -> option builtin_fn.

Lemma closed_none t : closed (-1) t = t.
Proof. reflexivity. Qed.

Lemma closed_delete fd t : 0 <= fd -> closed fd t = delete fd t.
Proof. intros H. unfold closed. destruct (Z.geb_spec fd 0); [reflexivity | lia]. Qed.

Lemma run_command_pipes pd cmd w p fs t :
  is_ctrl "|" cmd || is_ctrl "&" cmd || is_ctrl ";" cmd = true ->
  (is_ctrl ";" cmd = true -> get_builtin (expanded expand w cmd) = None) ->
  faults w = [] -> forks w = p :: fs -> 0 < p -> p ∉ map fst (procs w) ->
  pipe_inv pd t w ->
  let r := run_command expand get_builtin pd cmd w in
  if is_ctrl "|" cmd
  then exists pd', r = Ok (inl pd') (world_of r) /\ pipe_inv pd' t (world_of r)
  else fds (world_of r) = t.
Proof.
  intros Hctrl Hext Hf Hforks Hp Hfresh Hinv r. subst r.
  destruct (run_command_forked expand get_builtin pd cmd w p fs Hctrl Hext Hf Hforks Hp Hfresh)
    as (rd & wr & w0 & j & w1 & Hs & Hsp & Hrun & F0 & F1 & P1 & Hnp).
  pose proof (keeps_ok _ _ _ _ _ (spawn_view _ _ _) Hsp) as V1.
  unfold same, shell_view in V1. injection V1 as Vd _ _ _ _ _ _.
  rewrite Hrun.
  pose proof (parent_branch_fds (is_ctrl "|" cmd) (is_ctrl "&" cmd) (is_ctrl ";" cmd)
                p (pipe_fd pd) wr
                (PipelineData rd (if pd_pgid pd =? 0 then p else pd_pgid pd) j) w1 Hp)
    as Hfds.
  destruct (is_ctrl "|" cmd) eqn:Hpl.
  - destruct (setup_pipe_pipe w Hf) as (rd' & wr' & w0' & Hs' & Hrd & Hwr & Hne & Nrd & Nwr & D0).
    rewrite Hs in Hs'. injection Hs' as <- <- <-.
    assert (Hfg : is_ctrl ";" cmd = false).
    { apply is_ctrl_eq in Hpl. unfold is_ctrl. now rewrite Hpl. }
    rewrite Hfg in *.
    destruct (parent_branch_bg true (is_ctrl "&" cmd) p (pipe_fd pd) wr
                (PipelineData rd (if pd_pgid pd =? 0 then p else pd_pgid pd) j) w1)
      as (w2 & H2); [now rewrite orb_true_r | exact Hp | discriminate |].
    rewrite H2 in *. simpl world_of in *.
    eexists. split; [reflexivity |].
    right. cbn [pipe_fd]. rewrite Hfds, Vd, D0.
    rewrite (closed_delete wr) by exact Hwr.
    rewrite delete_insert_eq.
    destruct Hinv as [[Hu Ht] | (Hu & Hnone & x & Ht)].
    + rewrite Hu, closed_none. rewrite Ht in *.
      split; [exact Hrd |]. split; [exact Nrd |].
      exists (OPipeRead (npipes w)).
      rewrite delete_insert_ne by congruence. now rewrite delete_id.
    + rewrite Ht in *.
      assert (Hru : rd <> pipe_fd pd).
      { intros ->. now rewrite lookup_insert_eq in Nrd. }
      assert (Hwu : wr <> pipe_fd pd).
      { intros ->. now rewrite lookup_insert_eq in Nwr. }
      rewrite lookup_insert_ne in Nrd, Nwr by congruence.
      split; [exact Hrd |]. split; [exact Nrd |].
      exists (OPipeRead (npipes w)).
      rewrite (closed_delete (pipe_fd pd)) by exact Hu.
      rewrite (delete_insert_ne _ wr) by congruence.
      rewrite (delete_insert_ne _ wr) by congruence.
      rewrite (delete_id _ wr) by exact Nwr.
      rewrite delete_insert_ne by congruence.
      rewrite delete_insert_eq. now rewrite delete_id.
  - destruct (Hnp eq_refl) as (-> & -> & ->).
    rewrite Hfds, Vd, closed_none.
    destruct Hinv as [[Hu Ht] | (Hu & Hnone & x & Ht)].
    + now rewrite Hu, closed_none.
    + rewrite (closed_delete (pipe_fd pd)) by exact Hu.
      rewrite Ht, delete_insert_eq. now rewrite delete_id.
Qed.

Lemma pipeline_pipes : forall stages last pids more pd w t,
  Forall (fun c => is_ctrl "|" c = true) stages ->
  is_ctrl "&" last = true \/ is_ctrl ";" last = true ->
  forks_always expand get_builtin last ->
  List.length pids = S (List.length stages) ->
  faults w = [] ->
  forks w = pids ++ more ->
  Forall (fun p => 0 < p) pids ->
  NoDup pids ->
  (forall p, p ∈ pids -> p ∉ map fst (procs w)) ->
  pipe_inv pd t w ->
  fds (world_of (run_commands expand get_builtin pd (stages ++ [last]) w)) = t.
Proof.
  induction stages as [| c stages IH];
    intros last pids more pd w t Hst Hlast Hfa Hlen Hf Hforks Hpos Hnd Hfresh Hinv.
  - destruct pids as [| p [| ? ?]]; simpl in Hlen; try lia.
    simpl app. apply Forall_cons in Hpos as [Hp _].
    cbn [run_commands].
    rewrite world_of_bind_pure by (intros [? | ?] ?; reflexivity).
    assert (Hpl : is_ctrl "|" last = false).
    { destruct Hlast as [H | H]; apply is_ctrl_eq in H; unfold is_ctrl; now rewrite H. }
    pose proof (run_command_pipes pd last w p more t) as H.
    cbv zeta in H. rewrite Hpl in H. apply H; try assumption.
    + destruct Hlast as [-> | ->]; [now rewrite orb_true_r | now rewrite !orb_true_r].
    + intros Hfg. destruct Hfa as [Hfa | Hfa]; [congruence | apply Hfa].
    + apply Hfresh. apply elem_of_cons. now left.
  - destruct pids as [| p pids]; [simpl in Hlen; lia |].
    apply Forall_cons in Hst as [Hc Hst].
    apply Forall_cons in Hpos as [Hp Hpos].
    apply NoDup_cons in Hnd as [Hpn Hnd].
    simpl in Hlen. injection Hlen as Hlen.
    assert (Hctrl : is_ctrl "|" c || is_ctrl "&" c || is_ctrl ";" c = true)
      by now rewrite Hc.
    assert (Hext : is_ctrl ";" c = true -> get_builtin (expanded expand w c) = None).
    { intros Hfg. apply is_ctrl_eq in Hc. apply is_ctrl_eq in Hfg. congruence. }
    assert (Hfr : p ∉ map fst (procs w)).
    { apply Hfresh. apply elem_of_cons. now left. }
    destruct (run_command_spawns expand get_builtin pd c w p (pids ++ more)
                Hctrl Hext Hf Hforks Hp Hfr)
      as (H1 & H2 & H3 & _ & _).
    pose proof (run_command_pipes pd c w p (pids ++ more) t
                  Hctrl Hext Hf Hforks Hp Hfr Hinv) as H.
    cbv zeta in H. rewrite Hc in H. destruct H as (pd' & Hr & Hinv').
    change ((c :: stages) ++ [last]) with (c :: (stages ++ [last])).
    cbn [run_commands]. rewrite (bind_ok _ _ _ _ _ Hr). mred.
    apply (IH last pids more pd' _ t Hst Hlast Hfa Hlen H3 H2 Hpos Hnd); [| exact Hinv'].
    intros q Hq. rewrite H1, map_app. simpl.
    intros Hin. apply elem_of_app in Hin as [Hin | Hin].
    + apply (Hfresh q); [apply elem_of_cons; now right | exact Hin].
    + apply list_elem_of_singleton in Hin. subst q. contradiction.
Qed.

(** X20.  A pipeline all of whose commands are forked leaves no descriptor
    behind in the shell: each pipe end is closed by the parent as soon as
    the child that uses it is spawned, so that after the pipeline the
    descriptor table of the shell is the one of before. *)
Theorem pipeline_closes_pipes (stages : list command) (last : command)
    (pids more : list Z) (pd : pipeline_data) (w : World) :
  Forall (fun c => is_ctrl "|" c = true) stages ->
  is_ctrl "&" last = true \/ is_ctrl ";" last = true ->
  forks_always expand get_builtin last ->
  pipe_fd pd = -1 ->
  faults w = [] ->
  forks w = pids ++ more ->
  List.length pids = S (List.length stages) ->
  Forall (fun p => 0 < p) pids ->
  NoDup pids ->
  (forall p, p ∈ pids -> p ∉ map fst (procs w)) ->
  fds (world_of (run_commands expand get_builtin pd (stages ++ [last]) w)) = fds w.
Proof.
  intros Hst Hlast Hfa Hpf Hf Hforks Hlen Hpos Hnd Hfresh.
  apply (pipeline_pipes stages last pids more pd w (fds w)); try assumption.
  left. split; [exact Hpf | reflexivity].
Qed.

End PipelineDescriptors.

Lemma pipeline_closes_pipes_witness :
  let w := set_waits [WChanged 102 0; WChanged 100 0; WChanged 101 0; WError C.ECHILD]
             (set_forks [100; 101; 102] Sample.w0) in
  fds (world_of (Sample.run [Sample.ls "|"; Sample.ls "|"; Sample.ls ";"] w)) =
    Sample.std_fds.
Proof.
  intros w.
  apply (pipeline_closes_pipes Sample.no_expand Sample.builtins
           [Sample.ls "|"; Sample.ls "|"] (Sample.ls ";") [100; 101; 102] []
           (PipelineData (-1) 0 (-1)) w).
  - repeat constructor.
  - now right.
  - right. intros w1. reflexivity.
  - reflexivity.
  - reflexivity.
  - reflexivity.
  - reflexivity.
  - repeat constructor; lia.
  - repeat (apply NoDup_cons_2; [rewrite ?elem_of_cons, ?elem_of_nil; lia |]).
    apply NoDup_nil_2.
  - intros p _ H. inversion H.
Defined.

(** ** runner.c: what run_command_list returns *)

Section Returns.
Variable expand : World -> string -> string.
Variable get_builtin : command -> option builtin_fn.

Lemma run_command_returns pd cmd :
  returns goes_on_or_fails (run_command expand get_builtin pd cmd).
Proof.
  unfold run_command.
  apply returns_bind. intros cmd'.
  apply returns_bind. intros _.
  apply returns_bind. intros [[rd wr] |]; [| apply returns_ret; now right].
  apply returns_bind. intros [[child pd2] |]; [| apply returns_ret; now right].
  destruct (child =? 0).
  - destruct (get_builtin cmd') as [b |].
    + apply returns_bind. intros [u |]; apply returns_ret; simpl; [exact I | now right].
    + intros w a w' E.
      destruct (@run_external_cases (pipeline_data + Z) cmd' (pipe_fd pd) wr w)
        as (w1 & [(E1 & _) | [E1 | E1]]); rewrite E1 in E; discriminate E.
  - unfold parent_branch.
    apply returns_bind. intros _. apply returns_bind. intros _.
    apply (returns_bind_with
             (fun r => match r with Some rv => zero_or_minus_one rv | None => True end)).
    + unfold when, assert, stderr, modify, get, zero_or_minus_one.
      repeat returns_step.
    + intros [rv |] Hr; [apply returns_ret; exact Hr |].
      unfold assert. repeat returns_step.
Qed.

(** X21.  run_command_list returns 0 or -1, nothing else: -1 when a pipe, a
    fork, a setpgid, a registration of a job or an allocation fails and
    when a foreground wait fails with the exit status 127, 0 in every
    other case. *)
Theorem run_command_list_returns (cl : command_list) (w w' : World) (rv : Z) :
  run_command_list expand get_builtin cl w = Ok rv w' -> rv = 0 \/ rv = -1.
Proof.
  unfold run_command_list. generalize (PipelineData (-1) 0 (-1)). revert w.
  induction cl as [| cmd cl IH]; intros w pd E; simpl in E.
  - injection E as <- _. now left.
  - unfold bind in E.
    destruct (run_command expand get_builtin pd cmd w) as [r w1 | s w1] eqn:E1;
      [| discriminate].
    destruct r as [pd' | rv'].
    + exact (IH w1 pd' E).
    + injection E as <- _. exact (run_command_returns pd cmd w (inr rv') w1 E1).
Qed.
End Returns.

Lemma run_command_list_returns_witness :
  exists w',
    Sample.run [Sample.ls "|"] (set_faults [C.EMFILE] Sample.w0) = Ok (-1) w' /\
    (-1 = 0 \/ -1 = -1).
Proof.
  eexists. split; [vm_compute; reflexivity |].
  eapply (run_command_list_returns Sample.no_expand Sample.builtins
            [Sample.ls "|"] (set_faults [C.EMFILE] Sample.w0)).
  vm_compute. reflexivity.
Defined.

Section SpawnFailure.
Variable expand : World -> string -> string.
Variable get_builtin : command -> option builtin_fn.

(** X22.  When pipe() fails for a command that ends in [|], run_command_list
    prints "pipe" and returns -1 at once: nothing is forked, no later
    command is run, and the descriptors (the read end of an upstream pipe
    included) are left as they were. *)
Theorem pipe_failure_ends_list (pd : pipeline_data) (cmd : command)
    (rest : list command) (w : World) (e : Z) (fs : list Z) :
  is_ctrl "|" cmd = true ->
  faults w = e :: fs -> e <> 0 ->
  exists w',
    run_commands expand get_builtin pd (cmd :: rest) w = Ok (-1) w' /\
    added w w' = [EPipe (-1) (-1) (-1); EStderr "pipe" []] /\
    errno w' = e /\ fds w' = fds w /\ forks w' = forks w /\ procs w' = procs w.
Proof.
  intros Hpl F Ne. cbn [run_commands].
  unfold run_command, expand_command_words. rewrite bind_assoc, bind_get.
  change (is_ctrl "|" (expanded expand w cmd)) with (is_ctrl "|" cmd).
  rewrite Hpl. cbn [orb assert]. rewrite !bind_assoc, bind_ret.
  unfold setup_pipe, sys_pipe, fault, stderr, modify, bind, ret. rewrite F.
  destruct (Z.eqb_spec e 0); [contradiction |]. simpl.
  eexists. split; [reflexivity |]. wred.
  repeat split; try reflexivity. apply added_app. wred. now rewrite <- app_assoc.
Qed.

(** X23.  When fork() fails, run_command_list prints "fork" and returns -1 at
    once: no process and no job is added, no later command is run; the
    two ends of the pipe that was created for a command ending in [|]
    stay open in the shell. *)
Theorem fork_failure_ends_list (pd : pipeline_data) (cmd : command)
    (rest : list command) (w : World) :
  is_ctrl "|" cmd || is_ctrl "&" cmd || is_ctrl ";" cmd = true ->
  should_fork (is_some (get_builtin (expanded expand w cmd))) (is_ctrl ";" cmd) = true ->
  faults w = [] -> forks w = [] ->
  exists w',
    run_commands expand get_builtin pd (cmd :: rest) w = Ok (-1) w' /\
    procs w' = procs w /\ jobs w' = jobs w /\
    last (added w w') = Some (EStderr "fork" []) /\
    if is_ctrl "|" cmd
    then exists rd wr, rd <> wr /\ fds w !! rd = None /\ fds w !! wr = None /\
           fds w' = <[wr:=OPipeWrite (npipes w)]> (<[rd:=OPipeRead (npipes w)]> (fds w))
    else fds w' = fds w.
Proof.
  intros Hctrl Hsf F Hforks. cbn [run_commands].
  unfold run_command, expand_command_words. rewrite bind_assoc, bind_get.
  change (is_ctrl "|" (expanded expand w cmd)) with (is_ctrl "|" cmd).
  change (is_ctrl "&" (expanded expand w cmd)) with (is_ctrl "&" cmd).
  change (is_ctrl ";" (expanded expand w cmd)) with (is_ctrl ";" cmd).
  rewrite Hctrl. cbn [assert]. rewrite !bind_assoc, bind_ret.
  assert (Hfail : forall v pd1, forks v = [] ->
            spawn (is_some (get_builtin (expanded expand w cmd))) (is_ctrl ";" cmd) pd1 v =
              Ok None (emit (EStderr "fork" []) (emit (EFork (-1)) (set_errno C.EAGAIN v)))).
  { intros v pd1 Hv. unfold spawn. rewrite Hsf.
    unfold sys_fork, stderr, modify, bind, ret. rewrite Hv. reflexivity. }
  destruct (is_ctrl "|" cmd) eqn:Hpl.
  - destruct (setup_pipe_pipe w F) as (rd & wr & w0 & Hs & _ & _ & Hne & Nrd & Nwr & D0).
    assert (Q : quiet w w0).
    { destruct (setup_pipe_ok true w F) as (ends & w0' & Hs' & Q & _).
      rewrite Hs in Hs'. now injection Hs' as _ <-. }
    assert (J : jobs w0 = jobs w).
    { revert Hs. unfold setup_pipe, sys_pipe, fault, stderr, modify, bind, ret.
      rewrite F. simpl. repeat case_goal; intros [= <- <- <-] || intros [=]; reflexivity. }
    destruct Q as (Qp & Qf & _ & evs & Qt & _).
    rewrite ?bind_assoc.
    rewrite (bind_ok _ _ _ _ _ Hs). mred. rewrite ?bind_assoc.
    rewrite (bind_ok _ _ _ _ _ (Hfail w0 _ ltac:(congruence))). rewrite bind_ret.
    eexists. split; [reflexivity |]. wred.
    split; [exact Qp |]. split; [exact J |]. split.
    + erewrite added_app; [| wred; rewrite Qt, <- !app_assoc; reflexivity].
      rewrite !app_assoc. apply last_snoc.
    + exists rd, wr. auto.
  - unfold setup_pipe. rewrite ?bind_assoc, bind_ret. mred. rewrite ?bind_assoc.
    rewrite (bind_ok _ _ _ _ _ (Hfail w _ Hforks)). rewrite bind_ret.
    eexists. split; [reflexivity |]. wred.
    repeat split; try reflexivity.
    erewrite added_app; [| wred; rewrite <- !app_assoc; reflexivity].
    reflexivity.
Qed.

End SpawnFailure.

Lemma pipe_failure_ends_list_witness :
  exists w',
    Sample.run [Sample.ls "|"; Sample.ls ";"]
      (set_faults [C.EMFILE] (set_forks [100; 101] Sample.w0)) = Ok (-1) w' /\
    forks w' = [100; 101] /\ fds w' = Sample.std_fds.
Proof.
  destruct (pipe_failure_ends_list Sample.no_expand Sample.builtins
              (PipelineData (-1) 0 (-1)) (Sample.ls "|") [Sample.ls ";"]
              (set_faults [C.EMFILE] (set_forks [100; 101] Sample.w0)) C.EMFILE [])
    as (w' & E & _ & _ & D & K & _); try reflexivity; try discriminate.
  exists w'. split; [exact E |]. split; [exact K | exact D].
Defined.

Lemma fork_failure_ends_list_witness :
  exists w',
    Sample.run [Sample.ls "|"; Sample.ls ";"] Sample.w0 = Ok (-1) w' /\
    procs w' = [] /\
    exists rd wr, rd <> wr /\ is_Some (fds w' !! rd) /\ is_Some (fds w' !! wr) /\
                  Sample.std_fds !! rd = None /\ Sample.std_fds !! wr = None.
Proof.
  destruct (fork_failure_ends_list Sample.no_expand Sample.builtins
              (PipelineData (-1) 0 (-1)) (Sample.ls "|") [Sample.ls ";"] Sample.w0)
    as (w' & E & P & _ & _ & rd & wr & Hne & Nrd & Nwr & D); try reflexivity.
  exists w'. split; [exact E |]. split; [exact P |].
  exists rd, wr. rewrite D. split; [exact Hne |]. split; [| split; [| split]].
  - rewrite lookup_insert_ne by congruence. rewrite lookup_insert_eq. eauto.
  - rewrite lookup_insert_eq. eauto.
  - exact Nrd.
  - exact Nwr.
Defined.

(** ** runner.c: the records of the virtual redirection list *)

Lemma resolve_src_backing pre rec post v :
  realfd rec = v ->
  (forall r, r ∈ pre -> pseudofd r <> v) ->
  resolve_src (pre ++ rec :: post) v = None.
Proof.
  intros Hr. induction pre as [| a pre IH]; intros Hpre; simpl.
  - now rewrite Hr, Z.eqb_refl.
  - destruct (realfd a =? v); [reflexivity |].
    destruct (Z.eqb_spec (pseudofd a) v) as [E | _].
    + exfalso. apply (Hpre a); [apply elem_of_cons; now left | exact E].
    + apply IH. intros r Hin. apply Hpre. apply elem_of_cons. now right.
Qed.

(** X24.  In the redirections of a builtin, [n>&m] or [n<&m] fails with
    EBADF, without any system call, when [m] is the real descriptor
    behind a record of the list and no record before that one maps the
    pseudo-descriptor [m]: a builtin cannot reach the descriptors that
    back its virtual redirections.  The test comes before the look-up of
    [m] as a pseudo-descriptor, so that it also refuses a pseudo-descriptor
    whose record holds a real descriptor of the same number. *)
Theorem builtin_dup_of_backing_descriptor (r : io_redir) (pre post : list builtin_redir)
    (rec : builtin_redir) (v : Z) (w : World) :
  is_dup_op (io_op r) = true ->
  filename r <> "-"%string ->
  fd_operand (filename r) = Some v ->
  realfd rec = v ->
  (forall x, x ∈ pre -> pseudofd x <> v) ->
  builtin_io_redirect r (pre ++ rec :: post) w = Ok None (set_errno C.EBADF w).
Proof.
  intros Hop Hne Hv Hr Hpre. unfold builtin_io_redirect. rewrite Hop.
  destruct (String.eqb_spec (filename r) "-"); [contradiction |].
  rewrite Hv, (resolve_src_backing pre rec post v Hr Hpre).
  unfold strtol_errno, bind, modify, ret.
  destruct (Strtol.erange (filename r)); reflexivity.
Qed.

(** [3>f 1>&3] with the descriptors 0, 1 and 2 open: the file is opened
    as descriptor 3, and the duplication of pseudo-descriptor 3 is
    refused. *)
Lemma builtin_dup_of_backing_descriptor_witness :
  exists w1 w2,
    builtin_io_redirect (IoRedir 3 OP_GREAT "f") [] Sample.w0 =
      Ok (Some [BuiltinRedir 3 3]) w1 /\
    builtin_io_redirect (IoRedir 1 OP_GREATAND "3") [BuiltinRedir 3 3] w1 = Ok None w2 /\
    errno w2 = C.EBADF.
Proof.
  eexists _, _. split; [vm_compute; reflexivity |]. split.
  - apply (builtin_dup_of_backing_descriptor (IoRedir 1 OP_GREATAND "3") [] []
             (BuiltinRedir 3 3) 3); try reflexivity.
    + discriminate.
    + intros x Hx. inversion Hx.
  - reflexivity.
Defined.

Lemma builtin_io_redirect_returns r l w :
  exists o w', builtin_io_redirect r l w = Ok o w'.
Proof.
  unfold builtin_io_redirect, builtin_open_redirect, push_rec, move_fd. unfold_prims.
  repeat (case_goal; simpl); eauto.
Qed.

Lemma builtin_io_redirects_returns rs : forall status l w,
  exists st l' w', builtin_io_redirects rs status l w = Ok (st, l') w'.
Proof.
  induction rs as [| r rs IH]; intros status l w; simpl; [eauto |].
  destruct (builtin_io_redirect_returns r l w) as (o & w1 & E).
  rewrite (bind_ok _ _ _ _ _ E). destruct o; apply IH.
Qed.

(** X25.  do_builtin_io_redirects always returns, and it keeps the
    invariant of the virtual redirection list, whether redirections fail
    or not: started with a list in which no pseudo-descriptor has two
    records, it ends with such a list (for redirections of descriptors
    that are not negative). *)
Theorem do_builtin_io_redirects_one_record (cmd : command) (l : list builtin_redir)
    (w : World) :
  Forall (fun r => 0 <= io_number r) (io_redirs cmd) ->
  NoDup (mapped l) ->
  exists st l' w',
    do_builtin_io_redirects cmd l w = Ok (st, l') w' /\ NoDup (mapped l').
Proof.
  intros Hrs Hnd. unfold do_builtin_io_redirects.
  destruct (builtin_io_redirects_returns (io_redirs cmd) 0 l w) as (st & l' & w' & E).
  exists st, l', w'. split; [exact E |].
  exact (builtin_io_redirects_one_record _ _ _ _ _ _ _ Hrs Hnd E).
Qed.

(** [1>f 1>g 2>&1] after the two records of a pipeline: one record for
    each of the pseudo-descriptors 0, 1 and 2. *)
Lemma do_builtin_io_redirects_one_record_witness :
  exists st l' w',
    do_builtin_io_redirects
      (Command ["cd"%string] []
         [IoRedir 1 OP_GREAT "f"; IoRedir 1 OP_GREAT "g"; IoRedir 2 OP_GREATAND "1"] "|")
      [BuiltinRedir 1 6; BuiltinRedir 0 3] Sample.w0 = Ok (st, l') w' /\
    NoDup (mapped l').
Proof.
  apply do_builtin_io_redirects_one_record.
  - repeat constructor; simpl; lia.
  - unfold mapped. simpl.
    repeat (apply NoDup_cons_2; [rewrite ?elem_of_cons, ?elem_of_nil; lia |]).
    apply NoDup_nil_2.
Defined.

(** ** wait.c: a wait that fails *)

Section FgPrefix.
Variables (pgrp j : Z) (tail : list wait_answer).

(** The loop of the foreground wait goes through the children that
    ended and the interrupted calls, recording the statuses. *)
Lemma fg_wait_loop_benign : forall pre fuel w jb0,
  (List.length pre < fuel)%nat ->
  waits w = pre ++ tail ->
  forallb benign pre = true ->
  Jobs.find_jid j (jobs w) = Some jb0 ->
  exists fuel1 w1 jb1,
    (0 < fuel1)%nat /\
    fg_wait_loop fuel pgrp j w = fg_wait_loop fuel1 pgrp j w1 /\
    waits w1 = tail /\
    jobs w1 = recorded j pre (jobs w) /\
    Jobs.find_jid j (jobs w1) = Some jb1 /\
    loop_view w1 = loop_view w /\
    exists evs, trace w1 = trace w ++ evs.
Proof.
  induction pre as [| a pre IH]; intros fuel w jb0 Hfuel Hw Hb Hj.
  - exists fuel, w, jb0. simpl in *. repeat split; try assumption; try lia.
    exists []. now rewrite app_nil_r.
  - simpl in Hb. apply andb_prop in Hb as [Ha Hb]. simpl in Hw.
    destruct fuel as [| n]; [simpl in Hfuel; lia |].
    destruct a as [| q sq | e]; simpl in Ha.
    + rewrite (fg_wait_loop_skip _ _ _ _ _ Hw).
      destruct (IH (S n) (set_waits (pre ++ tail) w) jb0)
        as (f1 & w1 & jb1 & H); [simpl in Hfuel; lia | reflexivity | exact Hb | exact Hj |].
      exists f1, w1, jb1. exact H.
    + apply andb_prop in Ha as [Hq Hsq]. apply negb_true_iff in Hsq.
      destruct (IH n (set_jobs (Jobs.record_status j sq (jobs w))
                        (emit (EWaitpid (- pgrp) 0 q) (set_waits (pre ++ tail) w)))
                  (Job (jid jb0) (pgid jb0) sq))
        as (f1 & w1 & jb1 & H0 & H1 & H2 & H3 & H4 & H5 & evs & H6);
        [simpl in Hfuel; lia | reflexivity | exact Hb | |].
      { simpl. rewrite find_jid_record_status, Hj.
        apply List.find_some in Hj as [_ Hj]. now rewrite Hj. }
      exists f1, w1, jb1.
      assert (Hq' : (q <? 0) = false) by (apply Z.ltb_lt in Hq; apply Z.ltb_ge; lia).
      split; [exact H0 |]. split.
      { simpl. unfold_prims. rewrite Hw. simpl.
        repeat (rewrite ?Hq', ?Hq, ?Hj, ?Hsq; simpl). exact H1. }
      repeat split; try assumption.
      exists (EWaitpid (- pgrp) 0 q :: evs). rewrite H6. wred. now rewrite <- app_assoc.
    + apply Z.eqb_eq in Ha. subst e.
      destruct (IH n (emit (EWaitpid (- pgrp) 0 (-1))
                        (set_errno C.EINTR (set_waits (pre ++ tail) w))) jb0)
        as (f1 & w1 & jb1 & H0 & H1 & H2 & H3 & H4 & H5 & evs & H6);
        [simpl in Hfuel; lia | reflexivity | exact Hb | exact Hj |].
      exists f1, w1, jb1.
      split; [exact H0 |]. split.
      { simpl. unfold_prims. rewrite Hw. simpl. exact H1. }
      repeat split; try assumption.
      exists (EWaitpid (- pgrp) 0 (-1) :: evs). rewrite H6. wred. now rewrite <- app_assoc.
Qed.
End FgPrefix.

Lemma fg_restore_quiet_errno w :
  faults w = [] ->
  exists w', fg_restore w = Ok tt w' /\ errno w' = errno w /\ jobs w' = jobs w /\
    p_status w' = p_status w /\
    (is_interactive w = true -> tty_fg w' = shell_pgrp w).
Proof.
  intros F. unfold fg_restore, sys_getpgid, sys_tcsetpgrp, bind, fault, get, modify, ret.
  destruct (is_interactive w); simpl; rewrite ?F; simpl.
  - eexists. split; [reflexivity |]. wred. repeat split; reflexivity.
  - exists w. repeat split; try reflexivity; discriminate.
Qed.

(** X26.  A call of waitpid that fails in the foreground wait, with an error
    that is neither ECHILD nor EINTR: the wait returns -1 with that
    error; the job stays in the table, the exit status of the shell is
    left alone, and an interactive shell has the terminal back. *)
Theorem fg_wait_error (pgrp e : Z) (jb : job) (pre rest : list wait_answer)
    (w : World) :
  faults w = [] -> 0 <= pgrp ->
  Jobs.find_pgid pgrp (jobs w) = Some jb -> 0 <= jid jb ->
  waits w = pre ++ WError e :: rest ->
  forallb benign pre = true ->
  e <> C.ECHILD -> e <> C.EINTR ->
  exists w',
    wait_on_fg_pgid pgrp w = Ok (-1) w' /\
    errno w' = e /\
    p_status w' = p_status w /\
    (exists jb', Jobs.find_pgid pgrp (jobs w') = Some jb' /\ jid jb' = jid jb) /\
    (is_interactive w = true -> tty_fg w' = shell_pgrp w).
Proof.
  intros F Hg Hj Hjid Hw Hb Ne1 Ne2.
  destruct (fg_handoff_ok pgrp w jb F Hg Hj Hjid)
    as (w1 & ev1 & E1 & J1 & S1 & W1 & F1 & I1 & G1 & T1).
  destruct (find_pgid_jid _ _ _ Hj) as (jb0 & Hjid0).
  destruct (fg_wait_loop_benign pgrp (jid jb) (WError e :: rest) pre
              (S (List.length (waits w1))) w1 jb0)
    as (f1 & w2 & jb1 & Hf1 & E2 & W2 & J2 & _ & V2 & _).
  { rewrite W1, Hw, length_app. simpl. lia. }
  { now rewrite W1. }
  { exact Hb. }
  { now rewrite J1. }
  unfold loop_view in V2. injection V2 as _ F2 _ I2 G2 S2.
  destruct f1 as [| f1]; [lia |].
  set (w3 := emit (EWaitpid (- pgrp) 0 (-1)) (set_errno e (set_waits rest w2))).
  assert (E3 : fg_wait_loop (S f1) pgrp (jid jb) w2 = Ok (-1) w3).
  { simpl. unfold_prims. rewrite W2. simpl.
    destruct (Z.eqb_spec e C.ECHILD); [contradiction |].
    destruct (Z.eqb_spec e C.EINTR); [contradiction |]. reflexivity. }
  destruct (fg_restore_quiet_errno w3) as (w4 & E4 & R4 & J4 & S4 & Y4).
  { unfold w3. wred. congruence. }
  exists w4. split.
  { unfold wait_on_fg_pgid. rewrite (bind_ok _ _ _ _ _ E1), bind_get.
    unfold bind at 1. rewrite E2, E3.
    rewrite (bind_ok _ _ _ _ _ E4). reflexivity. }
  split; [rewrite R4; reflexivity |].
  split; [rewrite S4; unfold w3; wred; congruence |]. split.
  - destruct (find_pgid_recorded (jid jb) pgrp pre (jobs w) jb Hj) as (jb' & Fj & Ij & _).
    exists jb'. rewrite J4. unfold w3. wred. rewrite J2, J1. auto.
  - intros Hi. rewrite Y4; unfold w3; wred; congruence.
Qed.

Lemma fg_wait_error_witness :
  exists w',
    wait_on_fg_pgid 100
      (set_waits [WChanged 100 0; WError C.EINVAL] (set_jobs [Job 0 100 0] Sample.w0))
      = Ok (-1) w' /\
    errno w' = C.EINVAL /\ tty_fg w' = 1.
Proof.
  destruct (fg_wait_error 100 C.EINVAL (Job 0 100 0) [WChanged 100 0] []
              (set_waits [WChanged 100 0; WError C.EINVAL]
                 (set_jobs [Job 0 100 0] Sample.w0)))
    as (w' & E & Herr & _ & _ & Y);
    try reflexivity; try lia; try discriminate.
  exists w'. split; [exact E |]. split; [exact Herr | exact (Y eq_refl)].
Defined.

(** ** runner.c: virtual redirections that open a file; builtins in a pipeline *)

Lemma malloc_rec_ok w :
  faults w = [] -> malloc_rec w = Ok true (set_live_recs (S (live_recs w)) w).
Proof. intros F. unfold malloc_rec, bind, fault, modify, ret. now rewrite F. Qed.

(** X28.  A redirection of a builtin that opens a file is virtual: for
    a pseudo-descriptor without a record the file stays at the fresh
    descriptor that open() returned, one that was not open before, and a
    record for it is put at the head of the list; for a pseudo-descriptor
    that has a record the file is moved onto the real descriptor of that
    record, and the list is left as it is.  Nothing else changes in the
    descriptor table. *)
Theorem builtin_open_redirect_virtual (r : io_redir) (l : list builtin_redir) (w : World) :
  is_dup_op (io_op r) = false ->
  faults w = [] ->
  let file := OFile (filename r) (get_io_flags (io_op r)) in
  match find_rec (io_number r) l with
  | None =>
      exists k w',
        builtin_io_redirect r l w = Ok (Some (BuiltinRedir (io_number r) k :: l)) w' /\
        fds w !! k = None /\ fds w' = <[k:=file]> (fds w)
  | Some rec =>
      0 <= realfd rec ->
      exists w',
        builtin_io_redirect r l w = Ok (Some l) w' /\
        fds w' = <[realfd rec:=file]> (fds w)
  end.
Proof.
  intros Hop F file. unfold builtin_io_redirect. rewrite Hop.
  unfold builtin_open_redirect.
  destruct (sys_open_ok (filename r) (get_io_flags (io_op r)) 511 w)
    as (k & w1 & E1 & Hk & Hfree & T1 & _ & F1 & _).
  { now rewrite F. }
  rewrite F in F1. simpl in F1.
  rewrite (bind_ok _ _ _ _ _ E1).
  destruct (Z.ltb_spec k 0); [lia |].
  destruct (find_rec (io_number r) l) as [rec |].
  - intros Hreal.
    destruct (Z.eq_dec k (realfd rec)) as [Heq | Hneq].
    + assert (Hsame : move_fd k (realfd rec) w1 = Ok (realfd rec) w1)
        by (rewrite <- Heq; apply move_fd_same).
      rewrite (bind_ok _ _ _ _ _ Hsame).
      destruct (Z.ltb_spec (realfd rec) 0); [lia |].
      exists w1. split; [reflexivity |]. now rewrite T1, Heq.
    + destruct (move_fd_onto k (realfd rec) file w1 Hneq) as (w2 & E2 & T2 & _);
        [rewrite T1; apply lookup_insert_eq | exact Hreal | now rewrite F1 |].
      rewrite T1 in T2.
      rewrite (bind_ok _ _ _ _ _ E2).
      destruct (Z.ltb_spec (realfd rec) 0); [lia |].
      exists w2. split; [reflexivity |]. rewrite T2.
      rewrite delete_insert_ne by congruence.
      rewrite delete_insert_eq. now rewrite delete_id by exact Hfree.
  - unfold push_rec. rewrite (bind_ok _ _ _ _ _ (malloc_rec_ok w1 F1)).
    eexists k, _. split; [reflexivity |]. wred. auto.
Qed.

Lemma builtin_open_redirect_virtual_witness :
  exists k w',
    builtin_io_redirect (IoRedir 1 OP_GREAT "out") [] Sample.w0 =
      Ok (Some [BuiltinRedir 1 k]) w' /\
    fds Sample.w0 !! k = None /\
    fds w' !! 1 = Some OTerminal.
Proof.
  destruct (builtin_open_redirect_virtual (IoRedir 1 OP_GREAT "out") [] Sample.w0
              eq_refl eq_refl) as (k & w' & E & Hk & Hfds).
  exists k, w'. split; [exact E |]. split; [exact Hk |].
  rewrite Hfds. rewrite lookup_insert_ne; [reflexivity |].
  intros ->. vm_compute in Hk. discriminate Hk.
Defined.

(** X29.  A builtin that is forked inside a pipeline, without redirections
    of its own: it is called with two records, pseudo-descriptor 1 on the
    write end of the downstream pipe and pseudo-descriptor 0 on the read
    end of the upstream pipe; both ends are closed after the call and the
    child exits with 0 or 127. *)
Theorem builtin_in_pipeline (b : builtin_fn) (cmd : command) (up down : Z) (w : World) :
  io_redirs cmd = [] -> faults w = [] -> 0 <= up -> 0 <= down ->
  let l := [BuiltinRedir C.STDOUT_FILENO down; BuiltinRedir C.STDIN_FILENO up] in
  exists res pre evs w',
    run_builtin b cmd false up down w =
      Stop (Exited (if res =? 0 then 0 else 127)) w' /\
    trace w' = pre ++ EBuiltin (words cmd) l res :: evs /\
    closes_of l evs.
Proof.
  intros Hr F Hup Hdown l.
  set (w0 := set_live_recs (S (live_recs (set_live_recs (S (live_recs w)) w)))
               (set_live_recs (S (live_recs w)) w)).
  destruct (variable_assignments_ok false (assignments cmd) w0) as (w1 & E1 & _);
    [exact F |].
  destruct (b cmd l w1) as [res wb] eqn:Eb.
  assert (Hclose : forall fd v, exists rv v',
            sys_close fd v = Ok rv v' /\ trace v' = trace v ++ [EClose fd rv]).
  { intros fd v. unfold sys_close. destruct (fds v !! fd); eexists _, _; split; reflexivity. }
  destruct (Hclose down (emit (EBuiltin (words cmd) l res) wb)) as (rv1 & v1 & C1 & T1).
  destruct (Hclose up (set_live_recs (Nat.pred (live_recs v1)) v1)) as (rv2 & v2 & C2 & T2).
  exists res, (trace wb), [EClose down rv1; EClose up rv2]. eexists.
  split; [| split].
  - unfold run_builtin, seed_redirs.
    destruct (Z.geb_spec up 0); [| lia]. destruct (Z.geb_spec down 0); [| lia].
    unfold push_rec. cbv iota.
    rewrite !bind_assoc, (bind_ok _ _ _ _ _ (malloc_rec_ok w F)), bind_ret.
    cbv iota.
    rewrite !bind_assoc,
      (bind_ok _ _ _ _ _ (malloc_rec_ok (set_live_recs (S (live_recs w)) w) F)), bind_ret.
    cbv iota.
    unfold do_builtin_io_redirects. rewrite Hr. cbn [builtin_io_redirects].
    rewrite bind_ret. cbn [snd].
    unfold do_variable_assignment. fold w0. rewrite (bind_ok _ _ _ _ _ E1).
    unfold call_builtin at 1. unfold bind at 1. fold l. rewrite Eb.
    unfold l at 1. cbn [cleanup_redirs realfd].
    rewrite !bind_assoc, (bind_ok _ _ _ _ _ C1).
    unfold free_rec at 1. rewrite !bind_assoc, bind_modify.
    rewrite !bind_assoc, (bind_ok _ _ _ _ _ C2).
    unfold free_rec. rewrite !bind_assoc, bind_modify, bind_ret.
    rewrite bind_modify. cbn [negb]. rewrite bind_get. unfold halt.
    reflexivity.
  - wred. rewrite T2. wred. rewrite T1. wred. now rewrite <- !app_assoc.
  - unfold closes_of, l. repeat constructor; simpl; eauto.
Qed.

Lemma builtin_in_pipeline_witness :
  exists res w',
    run_builtin Sample.builtin_false (Sample.cd "|") false 3 6
      (set_fds (<[6:=OPipeWrite 1]> (<[3:=OPipeRead 0]> Sample.std_fds)) Sample.w0) =
      Stop (Exited (if res =? 0 then 0 else 127)) w'.
Proof.
  destruct (builtin_in_pipeline Sample.builtin_false (Sample.cd "|") 3 6
              (set_fds (<[6:=OPipeWrite 1]> (<[3:=OPipeRead 0]> Sample.std_fds)) Sample.w0))
    as (res & pre & evs & w' & E & _); try reflexivity; try lia.
  exists res, w'. exact E.
Defined.
